(** * check_esxcli_hparray_MegaRAID: a shallow embedding of the Nagios plugin

    The plugin (src/check_esxcli_hparray_MegaRAID.py) runs storcli commands
    through esxcli, scans their text with Python regular expressions, records
    findings in a [RaidStatus] and folds everything into one Nagios verdict.

    Text is modelled as [string] (code points below 256), Python integers as
    [Z], the [re] module as a backtracking matcher over a small pattern
    syntax, and the mutable checker object by explicit state passing. *)

From Stdlib Require Import ZArith List Bool Lia Ascii String.
From Stdlib Require Import Numbers.DecimalString.
From Stdlib Require Import Relations.Relation_Operators.
Import ListNotations.

Open Scope string_scope.
Open Scope Z_scope.

(** ** Python string primitives *)
Module PyStr.

(** [str(n)] for an integer. *)
Definition str_of_Z (n : Z) : string := NilZero.string_of_int (Z.to_int n).

Definition is_digit (c : ascii) : bool :=
  let n := nat_of_ascii c in (48 <=? n)%nat && (n <=? 57)%nat.

Definition digit_val (c : ascii) : Z := Z.of_nat (nat_of_ascii c) - 48.

Fixpoint int_acc (acc : Z) (s : string) : Z :=
  match s with
  | EmptyString => acc
  | String c t => int_acc (10 * acc + digit_val c) t
  end.

(** [int(s)] on a string of decimal digits (the only use in the plugin is on
    a [\d+] capture). *)
Definition int (s : string) : Z := int_acc 0 s.

(** [c.lower()] on one code point below 256: A-Z and the Latin-1 capitals. *)
Definition lower_char (c : ascii) : ascii :=
  let n := nat_of_ascii c in
  if ((65 <=? n) && (n <=? 90))%nat then ascii_of_nat (n + 32)
  else if ((192 <=? n) && (n <=? 222) && negb (n =? 215))%nat
       then ascii_of_nat (n + 32)
  else c.

Fixpoint lower (s : string) : string :=
  match s with
  | EmptyString => EmptyString
  | String c t => String (lower_char c) (lower t)
  end.

(** [s.startswith(p)] *)
Fixpoint startswith (p s : string) : bool :=
  match p, s with
  | EmptyString, _ => true
  | String a p', String b s' => Ascii.eqb a b && startswith p' s'
  | String _ _, EmptyString => false
  end.

(** [p in s] *)
Fixpoint contains (p s : string) : bool :=
  startswith p s ||
  match s with
  | EmptyString => false
  | String _ t => contains p t
  end.

(** [sep.join(l)] *)
Definition join (sep : string) (l : list string) : string := String.concat sep l.

(** Truthiness of a string and of a list. *)
Definition nonempty (s : string) : bool :=
  match s with EmptyString => false | _ => true end.

Definition nonnil {A} (l : list A) : bool :=
  match l with [] => false | _ => true end.

(** [len(l)] *)
Definition len {A} (l : list A) : Z := Z.of_nat (List.length l).

Definition is_py_space (c : ascii) : bool :=
  let n := nat_of_ascii c in
  ((9 <=? n) && (n <=? 13) || (28 <=? n) && (n <=? 32)
   || (n =? 133) || (n =? 160))%nat.

(** [s.split()]: the maximal runs of non-whitespace. *)
Fixpoint split_acc (cur : string) (s : string) : list string :=
  match s with
  | EmptyString => if nonempty cur then [cur] else []
  | String c t =>
      if is_py_space c
      then (if nonempty cur then cur :: split_acc "" t else split_acc "" t)
      else split_acc (cur ++ String c "") t
  end.

Definition split (s : string) : list string := split_acc "" s.

End PyStr.

(** ** The fragment of Python's [re] the plugin uses *)
Module Re.

Inductive cclass : Type :=
| CDigit                       (* \d *)
| CSpace                       (* \s *)
| CNotSpace                    (* \S *)
| CRange (lo hi : ascii)       (* [a-b] *)
| COneOf (s : string).         (* [xyz] *)

Inductive regex : Type :=
| Eps
| Lit (s : string)             (* literal text *)
| Any                          (* . *)
| Cls (c : cclass)
| Bol                          (* ^ *)
| Eol                          (* $ *)
| Seq (r1 r2 : regex)
| Alt (r1 r2 : regex)          (* r1|r2 *)
| Star (greedy : bool) (r : regex)   (* r* and r*? *)
| Group (n : nat) (r : regex)  (* n-th capturing group *)
| Look (r : regex).            (* (?=r) *)

Record flags : Type := Flags {
  ignorecase : bool;
  multiline : bool;
  dotall : bool
}.

Definition NOFLAGS := Flags false false false.
Definition I := Flags true false false.
Definition M := Flags false true false.
Definition MI := Flags true true false.
Definition IS := Flags true false true.

(** A position in the subject: offset, the character before it, the text
    after it; and the groups closed so far (latest first). *)
Record cursor : Type := Cursor {
  pos : nat;
  prev : option ascii;
  rest : string;
  caps : list (nat * (nat * nat))
}.

Definition newline : ascii := ascii_of_nat 10.

Definition in_class (c : cclass) (a : ascii) : bool :=
  match c with
  | CDigit => PyStr.is_digit a
  | CSpace => PyStr.is_py_space a
  | CNotSpace => negb (PyStr.is_py_space a)
  | CRange lo hi =>
      ((nat_of_ascii lo <=? nat_of_ascii a) && (nat_of_ascii a <=? nat_of_ascii hi))%nat
  | COneOf s => PyStr.contains (String a "") s
  end.

Definition chr_eq (fl : flags) (a b : ascii) : bool :=
  if ignorecase fl then Ascii.eqb (PyStr.lower_char a) (PyStr.lower_char b)
  else Ascii.eqb a b.

Definition advance (c : cursor) (a : ascii) (t : string) : cursor :=
  Cursor (S (pos c)) (Some a) t (caps c).

Definition at_bol (fl : flags) (c : cursor) : bool :=
  match prev c with
  | None => true
  | Some a => multiline fl && Ascii.eqb a newline
  end.

Definition at_eol (fl : flags) (c : cursor) : bool :=
  match rest c with
  | EmptyString => true
  | String a t =>
      Ascii.eqb a newline &&
      (multiline fl || match t with EmptyString => true | _ => false end)
  end.

Definition set_cap (n : nat) (s e : nat) (c : cursor) : cursor :=
  Cursor (pos c) (prev c) (rest c) ((n, (s, e)) :: caps c).

(** Consume the literal [s] at the cursor. *)
Fixpoint eat (fl : flags) (s : string) (c : cursor) : option cursor :=
  match s with
  | EmptyString => Some c
  | String a s' =>
      match rest c with
      | String b t => if chr_eq fl a b then eat fl s' (advance c b t) else None
      | EmptyString => None
      end
  end.

(** The backtracking matcher, in continuation-passing style: [k] is what has
    to match after [r]; alternatives are tried left to right, a greedy star
    tries one more iteration before leaving, a lazy star the other way round.
    An iteration of a star has to consume text. *)
Fixpoint run (fl : flags) (r : regex) (c : cursor)
         (k : cursor -> option cursor) {struct r} : option cursor :=
  match r with
  | Eps => k c
  | Lit s => match eat fl s c with Some c' => k c' | None => None end
  | Any =>
      match rest c with
      | String a t =>
          if dotall fl || negb (Ascii.eqb a newline) then k (advance c a t) else None
      | EmptyString => None
      end
  | Cls cl =>
      match rest c with
      | String a t => if in_class cl a then k (advance c a t) else None
      | EmptyString => None
      end
  | Bol => if at_bol fl c then k c else None
  | Eol => if at_eol fl c then k c else None
  | Seq r1 r2 => run fl r1 c (fun c' => run fl r2 c' k)
  | Alt r1 r2 =>
      match run fl r1 c k with
      | Some x => Some x
      | None => run fl r2 c k
      end
  | Star greedy r' =>
      (fix loop (n : nat) (c : cursor) {struct n} : option cursor :=
         match n with
         | O => k c
         | S n' =>
             if greedy then
               match run fl r' c (fun c' => if (pos c <? pos c')%nat then loop n' c' else None) with
               | Some x => Some x
               | None => k c
               end
             else
               match k c with
               | Some x => Some x
               | None => run fl r' c (fun c' => if (pos c <? pos c')%nat then loop n' c' else None)
               end
         end) (String.length (rest c)) c
  | Group n r' => run fl r' c (fun c' => k (set_cap n (pos c) (pos c') c'))
  | Look r' =>
      match run fl r' c (fun c' => Some c') with
      | Some _ => k c
      | None => None
      end
  end.

(** A match object: the subject, the span and the groups. *)
Record Match : Type := MkMatch {
  subject : string;
  mstart : nat;
  mend : cursor
}.

Definition span_of (m : Match) (n : nat) : option (nat * nat) :=
  match n with
  | O => Some (mstart m, pos (mend m))
  | _ => option_map snd (List.find (fun p => Nat.eqb (fst p) n) (caps (mend m)))
  end.

(** [m.group(n)]; a group that did not take part reads as the empty string,
    as it does in the tuples of [findall]. *)
Definition group (m : Match) (n : nat) : string :=
  match span_of m n with
  | Some (s, e) => String.substring s (e - s) (subject m)
  | None => ""
  end.

(** Try to match at the cursor and, failing that, one position further on.
    [must_advance] forbids an empty match at the first position tried. *)
Fixpoint scan (fl : flags) (r : regex) (text : string)
         (p : nat) (pv : option ascii) (s : string) (must_advance : bool)
  : option Match :=
  match run fl r (Cursor p pv s [])
            (fun c' => if must_advance && (pos c' =? p)%nat then None else Some c') with
  | Some c' => Some (MkMatch text p c')
  | None =>
      match s with
      | EmptyString => None
      | String a t => scan fl r text (S p) (Some a) t false
      end
  end.

(** [re.search(r, text, fl)] *)
Definition search (r : regex) (text : string) (fl : flags) : option Match :=
  scan fl r text 0 None text false.

(** [re.match(r, text, fl)] *)
Definition match_ (r : regex) (text : string) (fl : flags) : option Match :=
  match run fl r (Cursor 0 None text []) (fun c' => Some c') with
  | Some c' => Some (MkMatch text 0 c')
  | None => None
  end.

(** The successive non-overlapping matches, left to right. *)
Fixpoint iter (fuel : nat) (fl : flags) (r : regex) (text : string)
         (p : nat) (pv : option ascii) (s : string) (must_advance : bool)
  : list Match :=
  match fuel with
  | O => []
  | S fuel' =>
      match scan fl r text p pv s must_advance with
      | None => []
      | Some m =>
          let c := mend m in
          m :: iter fuel' fl r text (pos c) (prev c) (rest c)
                    (pos c =? mstart m)%nat
      end
  end.

(** [re.finditer(r, text, fl)] *)
Definition finditer (r : regex) (text : string) (fl : flags) : list Match :=
  iter (2 * String.length text + 2) fl r text 0 None text false.

(** [re.findall] for a pattern without group, with one group, with two, with
    four. *)
Definition findall0 (r : regex) (text : string) (fl : flags) : list string :=
  map (fun m => group m 0) (finditer r text fl).

Definition findall1 (r : regex) (text : string) (fl : flags) : list string :=
  map (fun m => group m 1) (finditer r text fl).

Definition findall2 (r : regex) (text : string) (fl : flags)
  : list (string * string) :=
  map (fun m => (group m 1, group m 2)) (finditer r text fl).

Definition findall4 (r : regex) (text : string) (fl : flags)
  : list (string * string * string * string) :=
  map (fun m => (group m 1, group m 2, group m 3, group m 4)) (finditer r text fl).

(** Pattern syntax. *)
Definition plus (r : regex) : regex := Seq r (Star true r).      (* r+ *)
Definition star (r : regex) : regex := Star true r.              (* r* *)
Definition lazy (r : regex) : regex := Star false r.             (* r*? *)
Definition opt (r : regex) : regex := Alt r Eps.                 (* r? *)
Definition d := Cls CDigit.
Definition s_ := Cls CSpace.
Definition S_ := Cls CNotSpace.

Fixpoint seq (l : list regex) : regex :=
  match l with
  | [] => Eps
  | [r] => r
  | r :: l' => Seq r (seq l')
  end.

End Re.

Import PyStr.

(** ** Module constants *)

Definition ESX_THUMBPRINTS : list (string * string) :=
  [ ("10.10.10.10", "55:45:DE:29:38:59:0F:02:F3:1D:57:81:38:99:68:96:37:BE:89:E2");
    ("10.10.10.20", "5E:BF:B4:AF:A4:7E:F9:CF:71:D2:AB:16:86:68:80:A2:49:59:80:8B");
    ("10.10.10.30", "DD:B5:4F:11:FA:8B:09:2A:40:3E:28:C0:AE:C0:08:68:E3:EC:E1:A8") ].

Definition ESXCLI_PATH : string := "/opt/vmware-vsphere-cli-distrib/lib/bin/esxcli/esxcli".

(** The four switches read from the environment when the module is loaded. *)
Record Config : Type := MkConfig {
  ENABLE_PERFDATA : bool;
  ENABLE_LONG_OUTPUT : bool;
  SHOW_HOST : bool;
  TERSE_OUTPUT : bool
}.

(** The switches when the environment sets none of them. *)
Definition default_config : Config := MkConfig false false false true.

Definition STATE_OK : Z := 0.
Definition STATE_WARNING : Z := 1.
Definition STATE_CRITICAL : Z := 2.
Definition STATE_UNKNOWN : Z := 3.

Definition TEMP_WARN : Z := 50.
Definition TEMP_CRIT : Z := 60.
Definition SSD_WEAR_WARN : Z := 20.
Definition SSD_WEAR_CRIT : Z := 10.
Definition MEDIA_ERROR_WARN : Z := 1.
Definition MEDIA_ERROR_CRIT : Z := 10.
Definition OTHER_ERROR_WARN : Z := 1.

(** ** RaidStatus *)

Record RaidStatus : Type := MkRaidStatus {
  vd_total : Z;
  vd_ok : Z;
  vd_warn : Z;
  vd_crit : Z;
  pd_total : Z;
  pd_ok : Z;
  pd_warn : Z;
  pd_crit : Z;
  spare_count : Z;
  max_temp : Z;
  media_errors : Z;
  other_errors : Z;
  ctrl_status : string;
  battery_status : string;
  hotspare_status : string;
  rebuild_status : string;
  cc_status : string;
  patrol_status : string;
  warnings : list string;
  critical_warnings : list string;
  long_output : list string
}.

(** [RaidStatus()] *)
Definition RaidStatus_new : RaidStatus :=
  MkRaidStatus 0 0 0 0 0 0 0 0 0 0 0 0 "" "" "" "" "" "" [] [] [].

(** Field assignment, one setter per field the plugin writes. *)
Definition set_vd_total (v : Z) (s : RaidStatus) : RaidStatus :=
  MkRaidStatus v (vd_ok s) (vd_warn s) (vd_crit s) (pd_total s) (pd_ok s)
    (pd_warn s) (pd_crit s) (spare_count s) (max_temp s) (media_errors s)
    (other_errors s) (ctrl_status s) (battery_status s) (hotspare_status s)
    (rebuild_status s) (cc_status s) (patrol_status s) (warnings s)
    (critical_warnings s) (long_output s).

Definition set_vd_ok (v : Z) (s : RaidStatus) : RaidStatus :=
  MkRaidStatus (vd_total s) v (vd_warn s) (vd_crit s) (pd_total s) (pd_ok s)
    (pd_warn s) (pd_crit s) (spare_count s) (max_temp s) (media_errors s)
    (other_errors s) (ctrl_status s) (battery_status s) (hotspare_status s)
    (rebuild_status s) (cc_status s) (patrol_status s) (warnings s)
    (critical_warnings s) (long_output s).

Definition set_vd_warn (v : Z) (s : RaidStatus) : RaidStatus :=
  MkRaidStatus (vd_total s) (vd_ok s) v (vd_crit s) (pd_total s) (pd_ok s)
    (pd_warn s) (pd_crit s) (spare_count s) (max_temp s) (media_errors s)
    (other_errors s) (ctrl_status s) (battery_status s) (hotspare_status s)
    (rebuild_status s) (cc_status s) (patrol_status s) (warnings s)
    (critical_warnings s) (long_output s).

Definition set_vd_crit (v : Z) (s : RaidStatus) : RaidStatus :=
  MkRaidStatus (vd_total s) (vd_ok s) (vd_warn s) v (pd_total s) (pd_ok s)
    (pd_warn s) (pd_crit s) (spare_count s) (max_temp s) (media_errors s)
    (other_errors s) (ctrl_status s) (battery_status s) (hotspare_status s)
    (rebuild_status s) (cc_status s) (patrol_status s) (warnings s)
    (critical_warnings s) (long_output s).

Definition set_pd_total (v : Z) (s : RaidStatus) : RaidStatus :=
  MkRaidStatus (vd_total s) (vd_ok s) (vd_warn s) (vd_crit s) v (pd_ok s)
    (pd_warn s) (pd_crit s) (spare_count s) (max_temp s) (media_errors s)
    (other_errors s) (ctrl_status s) (battery_status s) (hotspare_status s)
    (rebuild_status s) (cc_status s) (patrol_status s) (warnings s)
    (critical_warnings s) (long_output s).

Definition set_pd_ok (v : Z) (s : RaidStatus) : RaidStatus :=
  MkRaidStatus (vd_total s) (vd_ok s) (vd_warn s) (vd_crit s) (pd_total s) v
    (pd_warn s) (pd_crit s) (spare_count s) (max_temp s) (media_errors s)
    (other_errors s) (ctrl_status s) (battery_status s) (hotspare_status s)
    (rebuild_status s) (cc_status s) (patrol_status s) (warnings s)
    (critical_warnings s) (long_output s).

Definition set_pd_warn (v : Z) (s : RaidStatus) : RaidStatus :=
  MkRaidStatus (vd_total s) (vd_ok s) (vd_warn s) (vd_crit s) (pd_total s) (pd_ok s)
    v (pd_crit s) (spare_count s) (max_temp s) (media_errors s)
    (other_errors s) (ctrl_status s) (battery_status s) (hotspare_status s)
    (rebuild_status s) (cc_status s) (patrol_status s) (warnings s)
    (critical_warnings s) (long_output s).

Definition set_pd_crit (v : Z) (s : RaidStatus) : RaidStatus :=
  MkRaidStatus (vd_total s) (vd_ok s) (vd_warn s) (vd_crit s) (pd_total s) (pd_ok s)
    (pd_warn s) v (spare_count s) (max_temp s) (media_errors s)
    (other_errors s) (ctrl_status s) (battery_status s) (hotspare_status s)
    (rebuild_status s) (cc_status s) (patrol_status s) (warnings s)
    (critical_warnings s) (long_output s).

Definition set_spare_count (v : Z) (s : RaidStatus) : RaidStatus :=
  MkRaidStatus (vd_total s) (vd_ok s) (vd_warn s) (vd_crit s) (pd_total s) (pd_ok s)
    (pd_warn s) (pd_crit s) v (max_temp s) (media_errors s)
    (other_errors s) (ctrl_status s) (battery_status s) (hotspare_status s)
    (rebuild_status s) (cc_status s) (patrol_status s) (warnings s)
    (critical_warnings s) (long_output s).

Definition set_max_temp (v : Z) (s : RaidStatus) : RaidStatus :=
  MkRaidStatus (vd_total s) (vd_ok s) (vd_warn s) (vd_crit s) (pd_total s) (pd_ok s)
    (pd_warn s) (pd_crit s) (spare_count s) v (media_errors s)
    (other_errors s) (ctrl_status s) (battery_status s) (hotspare_status s)
    (rebuild_status s) (cc_status s) (patrol_status s) (warnings s)
    (critical_warnings s) (long_output s).

Definition set_media_errors (v : Z) (s : RaidStatus) : RaidStatus :=
  MkRaidStatus (vd_total s) (vd_ok s) (vd_warn s) (vd_crit s) (pd_total s) (pd_ok s)
    (pd_warn s) (pd_crit s) (spare_count s) (max_temp s) v
    (other_errors s) (ctrl_status s) (battery_status s) (hotspare_status s)
    (rebuild_status s) (cc_status s) (patrol_status s) (warnings s)
    (critical_warnings s) (long_output s).

Definition set_other_errors (v : Z) (s : RaidStatus) : RaidStatus :=
  MkRaidStatus (vd_total s) (vd_ok s) (vd_warn s) (vd_crit s) (pd_total s) (pd_ok s)
    (pd_warn s) (pd_crit s) (spare_count s) (max_temp s) (media_errors s)
    v (ctrl_status s) (battery_status s) (hotspare_status s)
    (rebuild_status s) (cc_status s) (patrol_status s) (warnings s)
    (critical_warnings s) (long_output s).

Definition set_ctrl_status (v : string) (s : RaidStatus) : RaidStatus :=
  MkRaidStatus (vd_total s) (vd_ok s) (vd_warn s) (vd_crit s) (pd_total s) (pd_ok s)
    (pd_warn s) (pd_crit s) (spare_count s) (max_temp s) (media_errors s)
    (other_errors s) v (battery_status s) (hotspare_status s)
    (rebuild_status s) (cc_status s) (patrol_status s) (warnings s)
    (critical_warnings s) (long_output s).

Definition set_battery_status (v : string) (s : RaidStatus) : RaidStatus :=
  MkRaidStatus (vd_total s) (vd_ok s) (vd_warn s) (vd_crit s) (pd_total s) (pd_ok s)
    (pd_warn s) (pd_crit s) (spare_count s) (max_temp s) (media_errors s)
    (other_errors s) (ctrl_status s) v (hotspare_status s)
    (rebuild_status s) (cc_status s) (patrol_status s) (warnings s)
    (critical_warnings s) (long_output s).

Definition set_hotspare_status (v : string) (s : RaidStatus) : RaidStatus :=
  MkRaidStatus (vd_total s) (vd_ok s) (vd_warn s) (vd_crit s) (pd_total s) (pd_ok s)
    (pd_warn s) (pd_crit s) (spare_count s) (max_temp s) (media_errors s)
    (other_errors s) (ctrl_status s) (battery_status s) v
    (rebuild_status s) (cc_status s) (patrol_status s) (warnings s)
    (critical_warnings s) (long_output s).

Definition set_rebuild_status (v : string) (s : RaidStatus) : RaidStatus :=
  MkRaidStatus (vd_total s) (vd_ok s) (vd_warn s) (vd_crit s) (pd_total s) (pd_ok s)
    (pd_warn s) (pd_crit s) (spare_count s) (max_temp s) (media_errors s)
    (other_errors s) (ctrl_status s) (battery_status s) (hotspare_status s)
    v (cc_status s) (patrol_status s) (warnings s)
    (critical_warnings s) (long_output s).

Definition set_cc_status (v : string) (s : RaidStatus) : RaidStatus :=
  MkRaidStatus (vd_total s) (vd_ok s) (vd_warn s) (vd_crit s) (pd_total s) (pd_ok s)
    (pd_warn s) (pd_crit s) (spare_count s) (max_temp s) (media_errors s)
    (other_errors s) (ctrl_status s) (battery_status s) (hotspare_status s)
    (rebuild_status s) v (patrol_status s) (warnings s)
    (critical_warnings s) (long_output s).

Definition set_patrol_status (v : string) (s : RaidStatus) : RaidStatus :=
  MkRaidStatus (vd_total s) (vd_ok s) (vd_warn s) (vd_crit s) (pd_total s) (pd_ok s)
    (pd_warn s) (pd_crit s) (spare_count s) (max_temp s) (media_errors s)
    (other_errors s) (ctrl_status s) (battery_status s) (hotspare_status s)
    (rebuild_status s) (cc_status s) v (warnings s)
    (critical_warnings s) (long_output s).

Definition set_warnings (v : list string) (s : RaidStatus) : RaidStatus :=
  MkRaidStatus (vd_total s) (vd_ok s) (vd_warn s) (vd_crit s) (pd_total s) (pd_ok s)
    (pd_warn s) (pd_crit s) (spare_count s) (max_temp s) (media_errors s)
    (other_errors s) (ctrl_status s) (battery_status s) (hotspare_status s)
    (rebuild_status s) (cc_status s) (patrol_status s) v
    (critical_warnings s) (long_output s).

Definition set_critical_warnings (v : list string) (s : RaidStatus) : RaidStatus :=
  MkRaidStatus (vd_total s) (vd_ok s) (vd_warn s) (vd_crit s) (pd_total s) (pd_ok s)
    (pd_warn s) (pd_crit s) (spare_count s) (max_temp s) (media_errors s)
    (other_errors s) (ctrl_status s) (battery_status s) (hotspare_status s)
    (rebuild_status s) (cc_status s) (patrol_status s) (warnings s)
    v (long_output s).

Definition set_long_output (v : list string) (s : RaidStatus) : RaidStatus :=
  MkRaidStatus (vd_total s) (vd_ok s) (vd_warn s) (vd_crit s) (pd_total s) (pd_ok s)
    (pd_warn s) (pd_crit s) (spare_count s) (max_temp s) (media_errors s)
    (other_errors s) (ctrl_status s) (battery_status s) (hotspare_status s)
    (rebuild_status s) (cc_status s) (patrol_status s) (warnings s)
    (critical_warnings s) v.

(** [status.warnings.append(msg)] and its two siblings. *)
Definition warn (msg : string) (s : RaidStatus) : RaidStatus :=
  set_warnings (warnings s ++ [msg]) s.

Definition crit (msg : string) (s : RaidStatus) : RaidStatus :=
  set_critical_warnings (critical_warnings s ++ [msg]) s.

Definition long (msg : string) (s : RaidStatus) : RaidStatus :=
  set_long_output (long_output s ++ [msg]) s.

(** ** ESXiStorCLIRunner *)

(** What [subprocess.run] can do with one command line: finish, run out of
    time, or raise something else. *)
Inductive Outcome : Type :=
| Completed (stdout stderr : string) (returncode : Z)
| TimeoutExpired
| Raised (e : string).

(** The host behind esxcli: the outcome of the [n]-th process started, given
    its argument vector. *)
Definition World : Type := nat -> list string -> Outcome.

Record ESXiStorCLIRunner : Type := MkRunner {
  host : string;
  user : string;
  timeout : Z;
  controller : string;
  thumb : string;
  world : World;
  calls : nat          (* processes started so far *)
}.

Fixpoint dict_get (d : list (string * string)) (k : string) (default : string) : string :=
  match d with
  | [] => default
  | (k', v) :: d' => if String.eqb k' k then v else dict_get d' k default
  end.

(** [ESXiStorCLIRunner(host, user, timeout, controller)] *)
Definition ESXiStorCLIRunner_new (w : World) (host user : string) (timeout : Z)
           (controller : string) : ESXiStorCLIRunner :=
  MkRunner host user timeout controller (dict_get ESX_THUMBPRINTS host "") w 0.

(** [runner.run(cmd)]: the text and the exit code, and the runner afterwards. *)
Definition run (r : ESXiStorCLIRunner) (cmd : string)
  : (string * Z) * ESXiStorCLIRunner :=
  let full_cmd :=
    ([ESXCLI_PATH; "-s"; host r; "-u"; user r; "-d"; thumb r; "storcli"]
       ++ split cmd)%list in
  let r' := MkRunner (host r) (user r) (timeout r) (controller r) (thumb r)
                     (world r) (S (calls r)) in
  match world r (calls r) full_cmd with
  | Completed out err rc => ((out ++ err, rc), r')
  | TimeoutExpired => (("Timeout after " ++ str_of_Z (timeout r) ++ "s", 124), r')
  | Raised e => ((e, 1), r')
  end.

(** ** translate_status *)

Definition translations : list (string * string) :=
  [ ("Optl", "Optimal"); ("Dgrd", "Degraded"); ("Rbld", "Rebuilding");
    ("Offln", "Offline"); ("OfLn", "Offline"); ("Pdgd", "Partially Degraded");
    ("Rec", "Recovering"); ("Failed", "Failed"); ("Msng", "Missing");
    ("Onln", "Online"); ("UBad", "Unconfigured Bad") ].

Definition translate_status (status : string) : string :=
  dict_get translations status status.

(** ** RaidChecker *)

Record RaidChecker : Type := MkChecker {
  runner : ESXiStorCLIRunner;
  vd_num : option string;
  status : RaidStatus;
  vd_output : string;
  pd_output : string
}.

(** [RaidChecker(runner, vd_num)] *)
Definition RaidChecker_new (r : ESXiStorCLIRunner) (vd_num : option string) : RaidChecker :=
  MkChecker r vd_num RaidStatus_new "" "".

(** [if self.vd_num:] -- neither [None] nor the empty string. *)
Definition vd_num_set (v : option string) : bool :=
  match v with Some s => nonempty s | None => false end.

Definition vd_num_str (v : option string) : string :=
  match v with Some s => s | None => "None" end.

Definition upd (f : RaidStatus -> RaidStatus) (self : RaidChecker) : RaidChecker :=
  MkChecker (runner self) (vd_num self) (f (status self)) (vd_output self) (pd_output self).

Definition set_vd_output (v : string) (self : RaidChecker) : RaidChecker :=
  MkChecker (runner self) (vd_num self) (status self) v (pd_output self).

Definition set_pd_output (v : string) (self : RaidChecker) : RaidChecker :=
  MkChecker (runner self) (vd_num self) (status self) (vd_output self) v.

(** [output, _ = self.runner.run(cmd)] *)
Definition call (self : RaidChecker) (cmd : string) : string * RaidChecker :=
  let '((output, _), r') := run (runner self) cmd in
  (output, MkChecker r' (vd_num self) (status self) (vd_output self) (pd_output self)).

Definition found (m : option Re.Match) : bool :=
  match m with Some _ => true | None => false end.

(** ** The patterns, in the order the plugin uses them *)
Module Pat.
Import Re.

Fixpoint alts (l : list string) : regex :=
  match l with
  | [] => Eps
  | [s] => Lit s
  | s :: l' => Alt (Lit s) (alts l')
  end.

(* "(?:State|Status)\s*[:=]\s*(\S+)" *)
Definition state_token : regex :=
  seq [Alt (Lit "State") (Lit "Status"); star s_; Cls (COneOf ":="); star s_;
       Group 1 (plus S_)].

(* "Controller Status\s*:\s*(\S+)" *)
Definition controller_status : regex :=
  seq [Lit "Controller Status"; star s_; Lit ":"; star s_; Group 1 (plus S_)].

(* "(Optimal|OK|Good)" *)
Definition optimal_ok_good : regex := Group 1 (alts ["Optimal"; "OK"; "Good"]).

(* "(Optimal|Good)" *)
Definition optimal_good : regex := Group 1 (alts ["Optimal"; "Good"]).

(* "(Optimal|Good|OK)" *)
Definition optimal_good_ok : regex := Group 1 (alts ["Optimal"; "Good"; "OK"]).

(* "(OK|Optimal|Good)" *)
Definition ok_optimal_good : regex := Group 1 (alts ["OK"; "Optimal"; "Good"]).

(* "CacheVault.*?(?:State|Status)\s*[:=]\s*(\S+)" *)
Definition cachevault_state : regex :=
  seq [Lit "CacheVault"; lazy Any; state_token].

(* "(?:BBU|Battery).*?(?:State|Status)\s*[:=]\s*(\S+)" *)
Definition bbu_state : regex :=
  seq [Alt (Lit "BBU") (Lit "Battery"); lazy Any; state_token].

(* "Energy Pack\s*=\s*(\S+)" *)
Definition energy_pack : regex :=
  seq [Lit "Energy Pack"; star s_; Lit "="; star s_; Group 1 (plus S_)].

(* "Energy Pack Status\s*=\s*(\S+)" *)
Definition energy_pack_status : regex :=
  seq [Lit "Energy Pack Status"; star s_; Lit "="; star s_; Group 1 (plus S_)].

(* "(Present|Yes)" *)
Definition present_yes : regex := Group 1 (alts ["Present"; "Yes"]).

(* "(Absent|No)" *)
Definition absent_no : regex := Group 1 (alts ["Absent"; "No"]).

(* "foreign configuration|DG" *)
Definition foreign_marker : regex := alts ["foreign configuration"; "DG"].

(* "^[0-9]+" *)
Definition leading_number : regex := seq [Bol; plus (Cls (CRange "0" "9"))].

(* "Predictive.*Yes" *)
Definition predictive_yes : regex := seq [Lit "Predictive"; star Any; Lit "Yes"].

(* "(\d+:\d+).*?Predictive.*?Yes" *)
Definition predictive_drive : regex :=
  seq [Group 1 (seq [plus d; Lit ":"; plus d]); lazy Any; Lit "Predictive";
       lazy Any; Lit "Yes"].

(* "^(\d+:\d+)" *)
Definition pd_id : regex := seq [Bol; Group 1 (seq [plus d; Lit ":"; plus d])].

(* "Drive\s+\d+:\d+|$"   (inside the lookahead that ends a drive section) *)
Definition next_drive_or_end : regex :=
  Alt (seq [Lit "Drive"; plus s_; plus d; Lit ":"; plus d]) Eol.

(* "(Drive\s+{drive}|^{drive}).*?(?=Drive\s+\d+:\d+|$)"   with re.escape(drive) *)
Definition smart_section (drive : string) : regex :=
  seq [Group 1 (Alt (seq [Lit "Drive"; plus s_; Lit drive]) (seq [Bol; Lit drive]));
       lazy Any; Look next_drive_or_end].

(* "Drive\s+{drive}.*?(?=Drive\s+\d+:\d+|$)"   with re.escape(drive) *)
Definition ssd_section (drive : string) : regex :=
  seq [Lit "Drive"; plus s_; Lit drive; lazy Any; Look next_drive_or_end].

(* "{label}.*?(\d+)"   for Media Error, Other Error, Shield Counter, BBM Error *)
Definition counter (label : string) : regex :=
  seq [Lit label; lazy Any; Group 1 (plus d)].

(* "Progress.*?(\d+)%" *)
Definition progress : regex :=
  seq [Lit "Progress"; lazy Any; Group 1 (plus d); Lit "%"].

(* "\d+%|in progress" *)
Definition cc_running : regex := Alt (seq [plus d; Lit "%"]) (Lit "in progress").

(* "(\d+)%" *)
Definition percent : regex := seq [Group 1 (plus d); Lit "%"].

(* "^(\d+:\d+).*SSD" *)
Definition ssd_line : regex :=
  seq [Bol; Group 1 (seq [plus d; Lit ":"; plus d]); star Any; Lit "SSD"].

(* "(Life Left|Wear|Wearout).*?(\d+)" *)
Definition wear : regex :=
  seq [Group 1 (alts ["Life Left"; "Wear"; "Wearout"]); lazy Any; Group 2 (plus d)].

(* "(?:Drive\s+)?Temperature.*?(\d+)" *)
Definition temperature : regex :=
  seq [opt (seq [Lit "Drive"; plus s_]); Lit "Temperature"; lazy Any; Group 1 (plus d)].

(* "State\s*:\s*(\S+)" *)
Definition patrol_state : regex :=
  seq [Lit "State"; star s_; Lit ":"; star s_; Group 1 (plus S_)].

(* "(Active|Running)" *)
Definition active_running : regex := Group 1 (alts ["Active"; "Running"]).

(* "(Stopped|Paused)" *)
Definition stopped_paused : regex := Group 1 (alts ["Stopped"; "Paused"]).

(* "(DHS|GHS)" *)
Definition dhs_ghs : regex := Group 1 (alts ["DHS"; "GHS"]).

(* "UGood" *)
Definition ugood : regex := Lit "UGood".

(* "^(\d+/\d+)\s+RAID\S*\s+(\S+)" *)
Definition vd_line : regex :=
  seq [Bol; Group 1 (seq [plus d; Lit "/"; plus d]); plus s_; Lit "RAID"; star S_;
       plus s_; Group 2 (plus S_)].

(* "^(\d+:\d+)\s+\d+\s+(\S+)" *)
Definition pd_line : regex :=
  seq [Bol; Group 1 (seq [plus d; Lit ":"; plus d]); plus s_; plus d; plus s_;
       Group 2 (plus S_)].

(* "^(\d+/\d+)\s+(G)\s+(\S+).*?(\S+)\s*$"   where G stands for "RAID\S*" *)
Definition vd_long_line : regex :=
  seq [Bol; Group 1 (seq [plus d; Lit "/"; plus d]); plus s_;
       Group 2 (seq [Lit "RAID"; star S_]); plus s_; Group 3 (plus S_); lazy Any;
       Group 4 (plus S_); star s_; Eol].

(* "^(\d+)/(\d+)\s+RAID\S*\s+(\S+).*?(\S+)\s*$" *)
Definition vd_eval_line : regex :=
  seq [Bol; Group 1 (plus d); Lit "/"; Group 2 (plus d); plus s_; Lit "RAID"; star S_;
       plus s_; Group 3 (plus S_); lazy Any; Group 4 (plus S_); star s_; Eol].

End Pat.

(** ** The checks *)

Definition check_controller_health (self : RaidChecker) : RaidChecker :=
  let ctrl := "/c" ++ controller (runner self) in
  let '(output, self) := call self (ctrl ++ " show") in
  match Re.search Pat.controller_status output Re.I with
  | Some m =>
      let state := Re.group m 1 in
      if found (Re.match_ Pat.optimal_ok_good state Re.I)
      then upd (set_ctrl_status "Controller:OK") self
      else upd (fun s => warn ("Controller status: " ++ state)
                              (set_ctrl_status ("Controller:" ++ state) s)) self
  | None => self
  end.

(** [None if "unsupported command" in output.lower() else re.search(State|Status ...)] *)
Definition supported_state (output : string) : option Re.Match :=
  if contains "unsupported command" (lower output) then None
  else Re.search Pat.state_token output Re.I.

(** The three command variants [status], [basic], [all] of one family
    ([cachevault] or [battery]), then the controller summary scanned with
    [embedded]; every command is issued only while nothing matched yet. *)
Definition find_state (family : string) (embedded : Re.regex) (self : RaidChecker)
  : option Re.Match * RaidChecker :=
  let i := controller (runner self) in
  let '(output, self) := call self (family ++ " show status -i " ++ i) in
  let m := supported_state output in
  let '(m, self) :=
    if found m then (m, self)
    else let '(alt_output, self) := call self (family ++ " show basic -i " ++ i) in
         (supported_state alt_output, self) in
  let '(m, self) :=
    if found m then (m, self)
    else let '(alt_output, self) := call self (family ++ " show all -i " ++ i) in
         (supported_state alt_output, self) in
  if found m then (m, self)
  else let '(ctrl_output, self) := call self ("controller show -i " ++ i) in
       (Re.search embedded ctrl_output Re.I, self).

(** The CacheVault half of [check_battery]. *)
Definition check_cachevault (self : RaidChecker) : RaidChecker :=
  let '(m, self) := find_state "cachevault" Pat.cachevault_state self in
  match m with
  | Some m =>
      let state := Re.group m 1 in
      if found (Re.match_ Pat.optimal_good state Re.I)
      then upd (set_battery_status "CV:OK") self
      else
        let self := upd (set_battery_status ("CV:" ++ state)) self in
        if negb (found (Re.match_ Pat.optimal_good state Re.I))
        then upd (warn ("CacheVault " ++ state)) self
        else self
  | None => self
  end.

(** The BBU half. *)
Definition check_bbu (self : RaidChecker) : RaidChecker :=
  let '(m, self) := find_state "battery" Pat.bbu_state self in
  match m with
  | Some m =>
      let state := Re.group m 1 in
      let '(bbu_status, self) :=
        if found (Re.match_ Pat.optimal_good_ok state Re.I)
        then ("BBU:OK", self)
        else ("BBU:" ++ state, upd (warn ("BBU " ++ state)) self) in
      if nonempty (battery_status (status self))
      then upd (fun s => set_battery_status (battery_status s ++ " " ++ bbu_status) s) self
      else upd (set_battery_status bbu_status) self
  | None => self
  end.

(** The energy-pack fallback, taken when neither half left a status. *)
Definition check_energy_pack (self : RaidChecker) : RaidChecker :=
  if negb (nonempty (battery_status (status self))) then
    let '(ctrl_output, self) :=
      call self ("controller show all -i " ++ controller (runner self)) in
    let ep_present := Re.search Pat.energy_pack ctrl_output Re.I in
    let ep_status := Re.search Pat.energy_pack_status ctrl_output Re.I in
    let present_val := match ep_present with Some m => Re.group m 1 | None => "" end in
    let status_val := match ep_status with Some m => Re.group m 1 | None => "" end in
    if nonempty present_val || nonempty status_val then
      if found (Re.match_ Pat.present_yes present_val Re.I) then
        if negb (nonempty status_val) || String.eqb status_val "0"
           || found (Re.match_ Pat.ok_optimal_good status_val Re.I)
        then upd (set_battery_status "Cache:OK Battery:OK") self
        else upd (fun s => warn ("Energy Pack status " ++ status_val)
                    (set_battery_status
                       ("Cache:EP" ++ status_val ++ " Battery:EP" ++ status_val) s)) self
      else if found (Re.match_ Pat.absent_no present_val Re.I)
      then upd (warn "Energy Pack Absent") self
      else self
    else self
  else self.

Definition check_battery (self : RaidChecker) : RaidChecker :=
  check_energy_pack (check_bbu (check_cachevault self)).

Definition check_foreign_config (self : RaidChecker) : RaidChecker :=
  let ctrl := "/c" ++ controller (runner self) in
  let '(output, self) := call self (ctrl ++ "/fall show") in
  if found (Re.search Pat.foreign_marker output Re.I) then
    let foreign_count := len (Re.findall0 Pat.leading_number output Re.M) in
    if 0 <? foreign_count
    then upd (warn ("Foreign config detected (" ++ str_of_Z foreign_count ++ ")")) self
    else self
  else self.

Definition check_predictive_failure (self : RaidChecker) : RaidChecker :=
  let ctrl := "/c" ++ controller (runner self) in
  let '(output, self) := call self (ctrl ++ "/eall/sall show all") in
  if found (Re.search Pat.predictive_yes output Re.I) then
    let pred_drives :=
      map (fun m => Re.group m 1) (Re.finditer Pat.predictive_drive output Re.IS) in
    if nonnil pred_drives
    then upd (warn ("Predictive failure on: " ++ join ", " pred_drives)) self
    else self
  else self.

(** [int(m.group(1))] of the first match of a counter pattern in a section. *)
Definition counter_of (label : string) (section : string) : option Z :=
  match Re.search (Pat.counter label) section Re.I with
  | Some m => Some (int (Re.group m 1))
  | None => None
  end.

(** The four counters of one drive section, in source order. *)
Definition smart_media (drive : string) (section : string) (s : RaidStatus) : RaidStatus :=
  match counter_of "Media Error" section with
  | Some count =>
      if 0 <? count then
        let s := set_media_errors (media_errors s + count) s in
        if MEDIA_ERROR_CRIT <=? count
        then crit ("Drive " ++ drive ++ ": " ++ str_of_Z count ++ " media errors") s
        else if MEDIA_ERROR_WARN <=? count
        then warn ("Drive " ++ drive ++ ": " ++ str_of_Z count ++ " media errors") s
        else s
      else s
  | None => s
  end.

Definition smart_other (drive : string) (section : string) (s : RaidStatus) : RaidStatus :=
  match counter_of "Other Error" section with
  | Some count =>
      if 0 <? count then
        let s := set_other_errors (other_errors s + count) s in
        if OTHER_ERROR_WARN <=? count
        then warn ("Drive " ++ drive ++ ": " ++ str_of_Z count ++ " other errors") s
        else s
      else s
  | None => s
  end.

Definition smart_shield (drive : string) (section : string) (s : RaidStatus) : RaidStatus :=
  match counter_of "Shield Counter" section with
  | Some count =>
      if 0 <? count
      then warn ("Drive " ++ drive ++ ": " ++ str_of_Z count ++ " shield errors") s
      else s
  | None => s
  end.

Definition smart_bbm (drive : string) (section : string) (s : RaidStatus) : RaidStatus :=
  match counter_of "BBM Error" section with
  | Some count =>
      if 0 <? count
      then warn ("Drive " ++ drive ++ ": " ++ str_of_Z count ++ " BBM errors") s
      else s
  | None => s
  end.

(** The detail section of a drive in the [show all] text, if there is one. *)
Definition smart_section_of (output drive : string) : option string :=
  match Re.search (Pat.smart_section drive) output Re.IS with
  | Some m => Some (Re.group m 0)
  | None => None
  end.

(** One turn of the loop of [check_smart_data]. *)
Definition smart_drive (output : string) (s : RaidStatus) (drive : string) : RaidStatus :=
  match smart_section_of output drive with
  | None => s
  | Some section =>
      smart_bbm drive section
        (smart_shield drive section
           (smart_other drive section
              (smart_media drive section s)))
  end.

Definition check_smart_data (self : RaidChecker) : RaidChecker :=
  let ctrl := "/c" ++ controller (runner self) in
  let '(output, self) := call self (ctrl ++ "/eall/sall show all") in
  let pd_list := Re.findall1 Pat.pd_id (pd_output self) Re.M in
  upd (fun s => fold_left (smart_drive output) pd_list s) self.

Definition check_rebuild_progress (self : RaidChecker) : RaidChecker :=
  if contains " Rbld " (vd_output self) then
    let ctrl := "/c" ++ controller (runner self) in
    let '(output, self) := call self (ctrl ++ "/vall show rebuild") in
    match Re.search Pat.progress output Re.I with
    | Some m => upd (set_rebuild_status ("Rebuild:" ++ Re.group m 1 ++ "%")) self
    | None => upd (set_rebuild_status "Rebuild:InProgress") self
    end
  else self.

Definition check_consistency_check (self : RaidChecker) : RaidChecker :=
  let ctrl := "/c" ++ controller (runner self) in
  let '(output, self) := call self (ctrl ++ "/vall show cc") in
  if found (Re.search Pat.cc_running output Re.I) then
    match Re.search Pat.percent output Re.NOFLAGS with
    | Some m => upd (set_cc_status ("CC:" ++ Re.group m 1 ++ "%")) self
    | None => upd (set_cc_status "CC:Running") self
    end
  else self.

(** The remaining-life figure of an SSD: its section, then the first wear
    field in it. *)
Definition ssd_remaining (output drive : string) : option Z :=
  match Re.search (Pat.ssd_section drive) output Re.IS with
  | Some m =>
      let section := Re.group m 0 in
      match Re.search Pat.wear section Re.I with
      | Some wear_match => Some (int (Re.group wear_match 2))
      | None => None
      end
  | None => None
  end.

(** One turn of the loop of [check_ssd_wear]. *)
Definition ssd_drive (output : string) (s : RaidStatus) (drive : string) : RaidStatus :=
  match ssd_remaining output drive with
  | Some remaining =>
      if remaining <=? SSD_WEAR_CRIT
      then crit ("SSD " ++ drive ++ " wear critical (" ++ str_of_Z remaining ++ "% left)") s
      else if remaining <=? SSD_WEAR_WARN
      then warn ("SSD " ++ drive ++ " wear warning (" ++ str_of_Z remaining ++ "% left)") s
      else s
  | None => s
  end.

Definition check_ssd_wear (self : RaidChecker) : RaidChecker :=
  let ctrl := "/c" ++ controller (runner self) in
  let '(output, self) := call self (ctrl ++ "/eall/sall show all") in
  let ssd_drives := Re.findall1 Pat.ssd_line (pd_output self) Re.MI in
  upd (fun s => fold_left (ssd_drive output) ssd_drives s) self.

(** One turn of the loop of [check_drive_temperature], on [int(temp_str)]. *)
Definition temp_reading (s : RaidStatus) (temp : Z) : RaidStatus :=
  if (0 <? temp) && (temp <? 100) then
    let s := if max_temp s <? temp then set_max_temp temp s else s in
    if TEMP_CRIT <=? temp
    then crit ("Drive overheating (" ++ str_of_Z temp ++ "C)") s
    else if TEMP_WARN <=? temp
    then warn ("Drive temperature high (" ++ str_of_Z temp ++ "C)") s
    else s
  else s.

Definition check_drive_temperature (self : RaidChecker) : RaidChecker :=
  let ctrl := "/c" ++ controller (runner self) in
  let '(output, self) := call self (ctrl ++ "/eall/sall show all") in
  let temps := Re.findall1 Pat.temperature output Re.I in
  upd (fun s => fold_left temp_reading (map int temps) s) self.

Definition check_patrol_read (self : RaidChecker) : RaidChecker :=
  let ctrl := "/c" ++ controller (runner self) in
  let '(output, self) := call self (ctrl ++ " show patrolread") in
  match Re.search Pat.patrol_state output Re.I with
  | Some m =>
      let state := Re.group m 1 in
      if found (Re.match_ Pat.active_running state Re.I) then
        match Re.search Pat.progress output Re.I with
        | Some progress_match =>
            upd (set_patrol_status ("PR:" ++ Re.group progress_match 1 ++ "%")) self
        | None => upd (set_patrol_status "PR:Running") self
        end
      else if found (Re.match_ Pat.stopped_paused state Re.I)
      then upd (set_patrol_status "PR:Stopped") self
      else self
  | None => self
  end.

Definition check_hotspare (self : RaidChecker) : RaidChecker :=
  let spare_ok := len (Re.findall1 Pat.dhs_ghs (pd_output self) Re.I) in
  let ugood_count := len (Re.findall0 Pat.ugood (pd_output self) Re.I) in
  let pd_total :=
    if negb (pd_total (status self) =? 0) then pd_total (status self)
    else len (Re.findall1 Pat.pd_id (pd_output self) Re.M) in
  let self := upd (set_spare_count spare_ok) self in
  if 0 <? spare_ok
  then upd (set_hotspare_status ("Spares:" ++ str_of_Z spare_ok)) self
  else if 0 <? ugood_count
  then upd (set_hotspare_status ("UGood:" ++ str_of_Z ugood_count)) self
  else
    let self := upd (set_hotspare_status "Spares:0") self in
    if 2 <? pd_total
    then upd (warn "No hot spares configured") self
    else self.

(** ** Counting and message building *)

(** One turn of the virtual-drive loop of [build_perfdata]. *)
Definition count_vd (s : RaidStatus) (line : string * string) : RaidStatus :=
  let '(vd_id, state) := line in
  if String.eqb state "Optl" then set_vd_ok (vd_ok s + 1) s
  else if String.eqb state "Rbld" || String.eqb state "Pdgd"
  then set_vd_warn (vd_warn s + 1) s
  else set_vd_crit (vd_crit s + 1) s.

(** One turn of the physical-drive loop. *)
Definition count_pd (s : RaidStatus) (line : string * string) : RaidStatus :=
  let '(pd_id, state) := line in
  if String.eqb state "Onln" then set_pd_ok (pd_ok s + 1) s
  else if String.eqb state "Rbld" then set_pd_warn (pd_warn s + 1) s
  else if String.eqb state "Offln" || String.eqb state "Failed"
          || String.eqb state "UBad" || String.eqb state "Msng"
  then set_pd_crit (pd_crit s + 1) s
  else s.

(** [build_perfdata] on the two lists [re.findall] returns. *)
Definition count_drives (vd_lines pd_lines : list (string * string)) (s : RaidStatus)
  : RaidStatus :=
  let s := set_vd_total (len vd_lines) s in
  let s := fold_left count_vd vd_lines s in
  let s := set_pd_total (len pd_lines) s in
  fold_left count_pd pd_lines s.

Definition build_perfdata (self : RaidChecker) : RaidChecker :=
  let vd_lines := Re.findall2 Pat.vd_line (vd_output self) Re.M in
  let pd_lines := Re.findall2 Pat.pd_line (pd_output self) Re.M in
  upd (count_drives vd_lines pd_lines) self.

(** [if cond: long_output.append(line)], condition and line read off the
    report as it is then. *)
Definition long_when (cond : RaidStatus -> bool) (line : RaidStatus -> string)
           (s : RaidStatus) : RaidStatus :=
  if cond s then long (line s) s else s.

Definition build_long_output (self : RaidChecker) : RaidChecker :=
  let vds := Re.finditer Pat.vd_long_line (vd_output self) Re.M in
  upd (fun s =>
    let s := long "--- Virtual Drives ---" s in
    let s := fold_left (fun s m =>
               long ("VD" ++ Re.group m 1 ++ ": " ++ Re.group m 2 ++ " "
                     ++ Re.group m 3 ++ " (" ++ Re.group m 4 ++ ")") s) vds s in
    let s := long "" s in
    let s := long "--- Status ---" s in
    let s := long_when (fun s => nonempty (ctrl_status s))
               (fun s => "Controller: " ++ ctrl_status s) s in
    let s := long_when (fun s => nonempty (battery_status s))
               (fun s => "Battery: " ++ battery_status s) s in
    let s := long_when (fun s => nonempty (hotspare_status s))
               (fun s => "Hot Spares: " ++ hotspare_status s) s in
    let s := long_when (fun s => nonempty (patrol_status s))
               (fun s => "Patrol Read: " ++ patrol_status s) s in
    let s := long_when (fun s => nonempty (cc_status s))
               (fun s => "Consistency Check: " ++ cc_status s) s in
    let s := long_when (fun s => nonempty (rebuild_status s))
               (fun s => "Rebuild: " ++ rebuild_status s) s in
    let s := long_when (fun s => 0 <? max_temp s)
               (fun s => "Max Temperature: " ++ str_of_Z (max_temp s) ++ "C") s in
    let s := long_when (fun s => 0 <? media_errors s)
               (fun s => "Total Media Errors: " ++ str_of_Z (media_errors s)) s in
    long_when (fun s => 0 <? other_errors s)
              (fun s => "Total Other Errors: " ++ str_of_Z (other_errors s)) s) self.

Definition LF : string := String Re.newline "".

Definition VdLine : Type := string * string * string * string.

Definition vd_index (l : VdLine) : string := let '(c, v, st, n) := l in v.
Definition vd_state (l : VdLine) : string := let '(c, v, st, n) := l in st.
Definition vd_name (l : VdLine) : string := let '(c, v, st, n) := l in n.

(** [if cond: extra.append(x)] *)
Definition push_if (cond : bool) (x : string) (extra : list string) : list string :=
  if cond then app extra [x] else extra.

Section Evaluate.

Variable cfg : Config.

Definition perfdata (s : RaidStatus) : string :=
  "| vd_total=" ++ str_of_Z (vd_total s) ++ " vd_ok=" ++ str_of_Z (vd_ok s)
  ++ " vd_warn=" ++ str_of_Z (vd_warn s) ++ " vd_crit=" ++ str_of_Z (vd_crit s)
  ++ " pd_total=" ++ str_of_Z (pd_total s) ++ " pd_ok=" ++ str_of_Z (pd_ok s)
  ++ " pd_warn=" ++ str_of_Z (pd_warn s) ++ " pd_crit=" ++ str_of_Z (pd_crit s)
  ++ " spares=" ++ str_of_Z (spare_count s)
  ++ " max_temp=" ++ str_of_Z (max_temp s) ++ "C media_errors="
  ++ str_of_Z (media_errors s)
  ++ " other_errors=" ++ str_of_Z (other_errors s).

(** [f"{host_suffix}{perf_suffix}{long_out}"] *)
Definition suffixes (host : string) (s : RaidStatus) : string :=
  let perf_suffix := if ENABLE_PERFDATA cfg then " " ++ perfdata s else "" in
  let host_suffix := if SHOW_HOST cfg then " - " ++ host else "" in
  let long_out :=
    if ENABLE_LONG_OUTPUT cfg && nonnil (long_output s)
    then LF ++ join LF (long_output s) else "" in
  host_suffix ++ perf_suffix ++ long_out.

(** [", ".join([f"VD{v}:Optimal" for c, v, st, n in vd_lines])] *)
Definition vd_info (vd_lines : list VdLine) : string :=
  join ", " (map (fun l => "VD" ++ vd_index l ++ ":Optimal") vd_lines).

(** [evaluate_status] once the virtual-drive lines have been read off
    [vd_output]. *)
Definition evaluate (host : string) (vd_num : option string) (s : RaidStatus)
           (vd_lines : list VdLine) : Z * string :=
  let tail := suffixes host s in
  let vd_lines :=
    if vd_num_set vd_num
    then filter (fun l => String.eqb (vd_index l) (vd_num_str vd_num)) vd_lines
    else vd_lines in
  if vd_num_set vd_num && negb (nonnil vd_lines) then
    (STATE_CRITICAL, "RAID CRITICAL - Virtual Drive " ++ vd_num_str vd_num ++ " not found")
  else
  let non_optimal := filter (fun l => negb (String.eqb (vd_state l) "Optl")) vd_lines in
  match non_optimal with
  | (ctrl_id, vd_id, state, name) :: _ =>
      let readable := translate_status state in
      let rebuild_info :=
        if nonempty (rebuild_status s) then " [" ++ rebuild_status s ++ "]" else "" in
      if String.eqb state "Rbld" || String.eqb state "Pdgd" then
        let msg :=
          if TERSE_OUTPUT cfg
          then "RAID WARNING (MegaRAID) - VD" ++ vd_id ++ " " ++ readable
          else "RAID WARNING (MegaRAID) - VD" ++ vd_id ++ " (" ++ name ++ ") Status: "
               ++ readable ++ rebuild_info in
        (STATE_WARNING, msg ++ tail)
      else
        let msg :=
          if TERSE_OUTPUT cfg
          then "RAID CRITICAL (MegaRAID) - VD" ++ vd_id ++ " " ++ readable
          else "RAID CRITICAL (MegaRAID) - VD" ++ vd_id ++ " (" ++ name ++ ") Status: "
               ++ readable in
        (STATE_CRITICAL, msg ++ tail)
  | [] =>
      if nonnil (critical_warnings s) then
        let crit_msg := join "; " (critical_warnings s) in
        let msg :=
          if TERSE_OUTPUT cfg
          then "RAID CRITICAL (MegaRAID) - " ++ crit_msg
          else "RAID CRITICAL (MegaRAID) - VDs Optimal but: " ++ crit_msg
               ++ " (" ++ vd_info vd_lines ++ ")" in
        (STATE_CRITICAL, msg ++ tail)
      else if nonnil (warnings s) then
        let warn_msg := join "; " (warnings s) in
        let msg :=
          if TERSE_OUTPUT cfg
          then "RAID WARNING (MegaRAID) - " ++ warn_msg
          else "RAID WARNING (MegaRAID) - VDs Optimal but: " ++ warn_msg
               ++ " (" ++ vd_info vd_lines ++ ")" in
        (STATE_WARNING, msg ++ tail)
      else
        let extra := [] in
        let extra := push_if (nonempty (battery_status s)) (battery_status s) extra in
        let extra := push_if (nonempty (ctrl_status s)) (ctrl_status s) extra in
        let extra := push_if (nonempty (hotspare_status s)) (hotspare_status s) extra in
        let extra := push_if (nonempty (cc_status s)) (cc_status s) extra in
        let extra := push_if (nonempty (patrol_status s)) (patrol_status s) extra in
        let extra := push_if (0 <? max_temp s)
                       ("Temp:" ++ str_of_Z (max_temp s) ++ "C") extra in
        let extra_str := if nonnil extra then " " ++ join " " extra else "" in
        let msg :=
          if TERSE_OUTPUT cfg then
            if vd_num_set vd_num
            then "RAID OK (MegaRAID) - VD" ++ vd_num_str vd_num ++ " Optimal"
            else "RAID OK (MegaRAID)"
          else
            if vd_num_set vd_num
            then "RAID OK (MegaRAID) - VD" ++ vd_num_str vd_num ++ " Status: Optimal"
                 ++ extra_str
            else "RAID OK (MegaRAID) - All " ++ str_of_Z (vd_total s)
                 ++ " Virtual Drives Optimal (" ++ vd_info vd_lines ++ ")" ++ extra_str in
        (STATE_OK, msg ++ tail)
  end.

Definition evaluate_status (self : RaidChecker) : Z * string :=
  evaluate (host (runner self)) (vd_num self) (status self)
           (Re.findall4 Pat.vd_eval_line (vd_output self) Re.M).

(** Everything [check_all] does before it evaluates. *)
Definition run_checks (self : RaidChecker) : RaidChecker :=
  let ctrl := "/c" ++ controller (runner self) in
  let '(out, self) := call self (ctrl ++ "/vall show") in
  let self := set_vd_output out self in
  let '(out, self) := call self (ctrl ++ "/eall/sall show") in
  let self := set_pd_output out self in
  let self := check_controller_health self in
  let self := check_battery self in
  let self := check_foreign_config self in
  let self := check_predictive_failure self in
  let self := check_smart_data self in
  let self := check_rebuild_progress self in
  let self := check_consistency_check self in
  let self := check_ssd_wear self in
  let self := check_drive_temperature self in
  let self := check_patrol_read self in
  let self := check_hotspare self in
  let self := build_perfdata self in
  if ENABLE_LONG_OUTPUT cfg then build_long_output self else self.

Definition check_all (self : RaidChecker) : Z * string :=
  evaluate_status (run_checks self).

End Evaluate.

(** One run of the plugin against a host: a new runner, a new checker,
    [check_all]. *)
Definition plugin (cfg : Config) (w : World) (host user : string) (vd : option string)
           (controller : string) (timeout : Z) : Z * string :=
  check_all cfg (RaidChecker_new (ESXiStorCLIRunner_new w host user timeout controller) vd).

(** ** Vocabulary of the statements *)

(** [x] occurs in [msg]. *)
Definition mentions (x msg : string) : Prop := exists a b, msg = a ++ x ++ b.

(** The lines [evaluate_status] keeps when a drive is asked for. *)
Definition kept_lines (vd_num : option string) (vd_lines : list VdLine) : list VdLine :=
  if vd_num_set vd_num
  then filter (fun l => String.eqb (vd_index l) (vd_num_str vd_num)) vd_lines
  else vd_lines.

Definition non_optimal (l : VdLine) : bool := negb (String.eqb (vd_state l) "Optl").

Definition transient (state : string) : bool :=
  String.eqb state "Rbld" || String.eqb state "Pdgd".

(** The verdict rule as the specification words it.  When some kept drive is
    not Optimal: WARNING if the states that are not Optimal are Rebuilding or
    PartiallyDegraded, CRITICAL as soon as one of them is another state.
    Else CRITICAL on a critical finding, else WARNING on a warning, else OK. *)
Definition priority_verdict (kept : list VdLine) (s : RaidStatus) : Z :=
  let unhealthy := filter non_optimal kept in
  if nonnil unhealthy then
    if forallb (fun l => transient (vd_state l)) unhealthy
    then STATE_WARNING else STATE_CRITICAL
  else if nonnil (critical_warnings s) then STATE_CRITICAL
  else if nonnil (warnings s) then STATE_WARNING
  else STATE_OK.

(** Among the lines that are not Optimal, a Rebuilding or PartiallyDegraded
    one is listed first and one in another state after it. *)
Definition transient_before_worse (kept : list VdLine) : bool :=
  match filter non_optimal kept with
  | l :: others =>
      transient (vd_state l) && negb (forallb (fun l => transient (vd_state l)) others)
  | [] => false
  end.

(** The lines [evaluate_status] reads off the virtual-drive summary. *)
Definition eval_lines (self : RaidChecker) : list VdLine :=
  Re.findall4 Pat.vd_eval_line (vd_output self) Re.M.

(** Physical-drive states that [build_perfdata] puts in a bucket. *)
Definition pd_bucketed (state : string) : bool :=
  String.eqb state "Onln" || String.eqb state "Rbld" || String.eqb state "Offln"
  || String.eqb state "Failed" || String.eqb state "UBad" || String.eqb state "Msng".

(** A temperature reading the plugin takes into account. *)
Definition plausible (temp : Z) : bool := (0 <? temp) && (temp <? 100).

(** A scripted host: the text it prints for each storcli command line (the
    words after [storcli], single-spaced), nothing for any other. *)
Definition scripted (script : list (string * string)) : World :=
  fun _ argv => Completed (dict_get script (join " " (skipn 8 argv)) "") "" 0.

Definition lines (l : list string) : string := join LF l ++ LF.

(** A runner on controller 0 of a scripted host. *)
Definition scripted_runner (script : list (string * string)) : ESXiStorCLIRunner :=
  ESXiStorCLIRunner_new (scripted script) "10.10.10.20" "nagios" 60 "0".

(** The text the checker would get for [cmd] if it asked now. *)
Definition reply (self : RaidChecker) (cmd : string) : string := fst (call self cmd).

(** The drive-detail command of [self]'s controller. *)
Definition show_all (self : RaidChecker) : string :=
  "/c" ++ controller (runner self) ++ "/eall/sall show all".

(** The readings [check_drive_temperature] extracts. *)
Definition temperature_readings (self : RaidChecker) : list Z :=
  map int (Re.findall1 Pat.temperature (reply self (show_all self)) Re.I).

(** A drive section reporting exactly 20% of life left. *)
Definition ssd_sample : string :=
  lines ["Drive 252:0 - Detailed Information :"; "Media Error Count = 0";
         "Drive 252:1 - Detailed Information :"; "Life Left = 20"].

(** [[msg]] when [cond] holds. *)
Definition finding_if (cond : bool) (msg : string) : list string :=
  if cond then [msg] else [].

(** A counter that was not found counts as 0. *)
Definition count_or_zero (c : option Z) : Z :=
  match c with Some n => n | None => 0 end.

(** A drive detail text with a shield counter of 3 and nothing else wrong. *)
Definition shield_sample : string :=
  join LF ["Drive 252:0 - Detailed Information :"; "Shield Counter = 3";
         "Media Error Count = 0"; "Other Error Count = 0"; "BBM Error Count = 0"].

(** A drive detail text with every counter raised. *)
Definition smart_sample : string :=
  join LF ["Drive 252:0 - Detailed Information :"; "Shield Counter = 2";
         "Media Error Count = 12"; "Other Error Count = 4"; "BBM Error Count = 1"].

(** The eight drive counters of a report. *)
Definition counts (s : RaidStatus) : list Z :=
  [vd_total s; vd_ok s; vd_warn s; vd_crit s; pd_total s; pd_ok s; pd_warn s; pd_crit s].

(** An ordered list of extraction strategies, each a command and what to
    look for in its reply: run them in turn until one finds something. *)
Fixpoint first_hit (strategies : list (string * (string -> option Re.Match)))
         (self : RaidChecker) : option Re.Match * RaidChecker :=
  match strategies with
  | [] => (None, self)
  | (cmd, extract) :: others =>
      let '(output, self) := call self cmd in
      match extract output with
      | Some m => (Some m, self)
      | None => first_hit others self
      end
  end.

(** The four strategies of a power-protection family, in the order the
    specification lists them. *)
Definition state_strategies (family : string) (embedded : Re.regex) (i : string)
  : list (string * (string -> option Re.Match)) :=
  [ (family ++ " show status -i " ++ i, supported_state);
    (family ++ " show basic -i " ++ i, supported_state);
    (family ++ " show all -i " ++ i, supported_state);
    ("controller show -i " ++ i, fun output => Re.search embedded output Re.I) ].

(** The records [build_perfdata] parses from the two summaries. *)
Definition vd_records (self : RaidChecker) : list (string * string) :=
  Re.findall2 Pat.vd_line (vd_output self) Re.M.

Definition pd_records (self : RaidChecker) : list (string * string) :=
  Re.findall2 Pat.pd_line (pd_output self) Re.M.

(** A host with one online drive and one dedicated hot spare. *)
Definition spare_script : list (string * string) :=
  [ ("/c0/vall show",
     lines ["0/0   RAID1 Optl  RW     Yes     RWBD  -   OFF 278.875 GB VD0"]);
    ("/c0/eall/sall show",
     lines ["252:0     8 Onln   0 278.875 GB SAS  HDD N   N  512B ST9300603SS U";
            "252:1     9 DHS    0 278.875 GB SAS  HDD N   N  512B ST9300603SS U"]) ].

(** A host with one optimal and one rebuilding virtual drive, 45% through
    its rebuild. *)
Definition rebuild_script : list (string * string) :=
  [ ("/c0/vall show",
     lines ["0/0   RAID1 Optl  RW     Yes     RWBD  -   OFF 278.875 GB VD0";
            "0/1   RAID5 Rbld  RW     Yes     RWBD  -   OFF 1.089 TB VD1"]);
    ("/c0/vall show rebuild", lines ["Rebuild Progress = 45%"]) ].

(** All switches off: verbose phrasing, nothing appended. *)
Definition verbose_config : Config := MkConfig false false false false.

(** The checker of a default run against the rebuilding host, before it
    evaluates: without a drive filter, asked for drive 1, asked for drive 5. *)
Definition rebuild_checker (cfg : Config) (vd : option string) : RaidChecker :=
  run_checks cfg (RaidChecker_new (scripted_runner rebuild_script) vd).

(** The same against the host with the hot spare. *)
Definition spare_checker (vd : option string) : RaidChecker :=
  run_checks default_config (RaidChecker_new (scripted_runner spare_script) vd).

(** [s] is [s0] with another detail block. *)
Definition only_long (s0 s : RaidStatus) : Prop :=
  exists lo, s = set_long_output lo s0.

(** What no check before the counting step touches: the drive counters, the
    two summaries, the drive asked for, host and controller. *)
Definition frame (self : RaidChecker)
  : list Z * string * string * option string * string * string :=
  (counts (status self), vd_output self, pd_output self, vd_num self,
   host (runner self), controller (runner self)).

(** [t] begins with [p], letter case ignored. *)
Definition starts_ci (p t : string) : bool := startswith (lower p) (lower t).

Definition found_cursor (c : option Re.cursor) : bool :=
  match c with Some _ => true | None => false end.

(** [self] after [j] more processes have been started. *)
Definition ahead (j : nat) (self : RaidChecker) : RaidChecker :=
  let r := runner self in
  MkChecker (MkRunner (host r) (user r) (timeout r) (controller r) (thumb r)
                      (world r) (calls r + j))
            (vd_num self) (status self) (vd_output self) (pd_output self).

(** What strategy [j] of a list finds in the reply to its command when it is
    the [j]-th command issued from [self] on. *)
Definition finds (strategies : list (string * (string -> option Re.Match)))
           (self : RaidChecker) (j : nat) : option Re.Match :=
  match nth_error strategies j with
  | Some (cmd, extract) => extract (reply (ahead j self) cmd)
  | None => None
  end.

(** [l'] is [l] with something appended. *)
Definition grows {A} (l l' : list A) : Prop := exists more, l' = app l more.

(** Both finding lists of [s'] are those of [s] with something appended. *)
Definition extends (s s' : RaidStatus) : Prop :=
  grows (warnings s) (warnings s')
  /\ grows (critical_warnings s) (critical_warnings s').

(** Everything in a report except the eight drive counters. *)
Definition beside_counts (s : RaidStatus)
  : list Z * list string * list (list string) :=
  ([spare_count s; max_temp s; media_errors s; other_errors s],
   [ctrl_status s; battery_status s; hotspare_status s; rebuild_status s;
    cc_status s; patrol_status s],
   [warnings s; critical_warnings s; long_output s]).

(** The three counts [check_hotspare] takes from the physical-drive summary:
    DHS/GHS tokens, UGood tokens, lines that begin with enclosure:slot. *)
Definition spare_tokens (pd : string) : Z := len (Re.findall1 Pat.dhs_ghs pd Re.I).
Definition ugood_tokens (pd : string) : Z := len (Re.findall0 Pat.ugood pd Re.I).
Definition slot_lines (pd : string) : Z := len (Re.findall1 Pat.pd_id pd Re.M).

(** What the finishing steps of a run do to the checker the hot-spare check
    leaves. *)
Definition finish (cfg : Config) (X : RaidChecker) : RaidChecker :=
  if ENABLE_LONG_OUTPUT cfg then build_long_output (build_perfdata X)
  else build_perfdata X.

(** [r] with its process counter set to [n]. *)
Definition with_calls (n : nat) (r : ESXiStorCLIRunner) : ESXiStorCLIRunner :=
  MkRunner (host r) (user r) (timeout r) (controller r) (thumb r) (world r) n.

(** Two runners that name the same host and controller, have started as many
    processes, and get the same text for every command at every turn; they
    may differ in user, timeout, thumbprint, exit codes and in how the text
    is split between stdout and stderr. *)
Definition same_text (r1 r2 : ESXiStorCLIRunner) : Prop :=
  host r1 = host r2 /\ controller r1 = controller r2 /\ calls r1 = calls r2
  /\ forall n cmd, fst (fst (run (with_calls n r1) cmd))
                   = fst (fst (run (with_calls n r2) cmd)).

(** Two checkers that agree on everything but the runner, and whose runners
    get the same text. *)
Definition sim (a b : RaidChecker) : Prop :=
  status a = status b /\ vd_output a = vd_output b /\ pd_output a = pd_output b
  /\ vd_num a = vd_num b /\ same_text (runner a) (runner b).

(** The scripted host again, but every command fails with exit code 1 and
    prints its text on stderr. *)
Definition failing_world (script : list (string * string)) : World :=
  fun _ argv => Completed "" (dict_get script (join " " (skipn 8 argv)) "") 1.

(** A runner on that host, with another user and another timeout. *)
Definition failing_runner (script : list (string * string)) : ESXiStorCLIRunner :=
  ESXiStorCLIRunner_new (failing_world script) "10.10.10.20" "root" 5 "0".

(** ** What a pattern can match, apart from the order of the search *)

Module Den.
Import Re.

(** A position without the groups: offset, character before, text after. *)
Definition place : Type := nat * option ascii * string.

Definition pl (c : cursor) : place := (pos c, prev c, rest c).

Definition at_pl (p : place) (cs : list (nat * (nat * nat))) : cursor :=
  Cursor (fst (fst p)) (snd (fst p)) (snd p) cs.

(** [c] with other groups. *)
Definition recap (cs : list (nat * (nat * nat))) (c : cursor) : cursor :=
  Cursor (pos c) (prev c) (rest c) cs.

Definition offset (p : place) : nat := fst (fst p).
Definition after (p : place) : string := snd p.

(** [den fl r p q]: some way of matching [r] leads from [p] to [q]. *)
Fixpoint den (fl : flags) (r : regex) (p q : place) {struct r} : Prop :=
  match r with
  | Eps => q = p
  | Lit s => option_map pl (eat fl s (at_pl p [])) = Some q
  | Any =>
      match after p with
      | String a t =>
          (dotall fl || negb (Ascii.eqb a newline)) = true
          /\ q = (S (offset p), Some a, t)
      | EmptyString => False
      end
  | Cls cl =>
      match after p with
      | String a t => in_class cl a = true /\ q = (S (offset p), Some a, t)
      | EmptyString => False
      end
  | Bol => at_bol fl (at_pl p []) = true /\ q = p
  | Eol => at_eol fl (at_pl p []) = true /\ q = p
  | Seq r1 r2 => exists m, den fl r1 p m /\ den fl r2 m q
  | Alt r1 r2 => den fl r1 p q \/ den fl r2 p q
  | Star _ r' =>
      clos_refl_trans_1n place
        (fun a b => den fl r' a b /\ (offset a < offset b)%nat) p q
  | Group _ r' => den fl r' p q
  | Look r' => q = p /\ exists x, den fl r' p x
  end.

End Den.

(** A host that prints nothing for any command. *)
Definition silent_checker (cfg : Config) : RaidChecker :=
  run_checks cfg (RaidChecker_new (scripted_runner []) None).

(** A host on which every command runs out of time. *)
Definition timing_out : World := fun _ _ => TimeoutExpired.

(** The solid-state drives [check_ssd_wear] goes through. *)
Definition ssd_drives (self : RaidChecker) : list string :=
  Re.findall1 Pat.ssd_line (pd_output self) Re.MI.

(** The drives among [drives] whose remaining life is extracted from
    [output], each with its figure. *)
Definition wear_of (output : string) (drives : list string) : list (string * Z) :=
  flat_map (fun drive => match ssd_remaining output drive with
                         | Some remaining => [(drive, remaining)]
                         | None => []
                         end) drives.

(** The same for the drives and the detail text [check_ssd_wear] sees. *)
Definition wear_readings (self : RaidChecker) : list (string * Z) :=
  wear_of (reply self (show_all self)) (ssd_drives self).

(** A host with one disk and one solid-state drive, the latter with exactly
    20% of its life left. *)
Definition ssd_script : list (string * string) :=
  [ ("/c0/eall/sall show",
     lines ["252:0     8 Onln   0 278.875 GB SAS  HDD N   N  512B ST9300603SS U";
            "252:1     9 Onln   0 446.625 GB SATA SSD N   N  512B MTFDDAK480TDC U"]);
    ("/c0/eall/sall show all", ssd_sample) ].

(** A checker that has read the physical-drive summary of that host. *)
Definition ssd_checker : RaidChecker :=
  let self := RaidChecker_new (scripted_runner ssd_script) None in
  let '(out, self) := call self "/c0/eall/sall show" in
  set_pd_output out self.

(** The drives [check_smart_data] goes through. *)
Definition smart_drives (self : RaidChecker) : list string :=
  Re.findall1 Pat.pd_id (pd_output self) Re.M.

(** The drives among [drives] whose detail section is found in [output],
    each with its section. *)
Definition sections_of (output : string) (drives : list string) : list (string * string) :=
  flat_map (fun drive => match smart_section_of output drive with
                         | Some section => [(drive, section)]
                         | None => []
                         end) drives.

(** The same for the drives and the detail text [check_smart_data] sees. *)
Definition smart_sections (self : RaidChecker) : list (string * string) :=
  sections_of (reply self (show_all self)) (smart_drives self).

Definition total (l : list Z) : Z := fold_right Z.add 0 l.

(** A counter of a drive section, 0 when the section does not show it. *)
Definition counted (label : string) (x : string * string) : Z :=
  count_or_zero (counter_of label (snd x)).

(** A host with one drive whose detail text is [detail]. *)
Definition smart_script (detail : string) : list (string * string) :=
  [ ("/c0/eall/sall show",
     lines ["252:0     8 Onln   0 278.875 GB SAS  HDD N   N  512B ST9300603SS U"]);
    ("/c0/eall/sall show all", detail) ].

(** A checker that has read the physical-drive summary of that host. *)
Definition smart_checker (detail : string) : RaidChecker :=
  let self := RaidChecker_new (scripted_runner (smart_script detail)) None in
  let '(out, self) := call self "/c0/eall/sall show" in
  set_pd_output out self.

(** A host whose first virtual drive is rebuilding and whose second is
    offline. *)
Definition mixed_script : list (string * string) :=
  [ ("/c0/vall show",
     lines ["0/0   RAID1 Rbld  RW     Yes     RWBD  -   OFF 278.875 GB VD0";
            "1/1   RAID5 OfLn  RW     Yes     RWBD  -   OFF 1.089 TB VD1"]) ].

Definition mixed_checker : RaidChecker :=
  run_checks default_config (RaidChecker_new (scripted_runner mixed_script) None).

(** Terse phrasing with the detail block switched on. *)
Definition detail_config : Config := MkConfig false true false true.

(** A checker on controller 0 of a scripted host, before any command. *)
Definition fresh_checker (script : list (string * string)) : RaidChecker :=
  RaidChecker_new (scripted_runner script) None.



(** A host whose cache vault reports the state OK. *)
Definition cachevault_ok_script : list (string * string) :=
  [ ("cachevault show status -i 0", lines ["State : OK"]) ].

(** * Properties *)

Lemma append_assoc (a b c : string) : (a ++ b) ++ c = a ++ b ++ c.
Proof.
  induction a as [|x a IH]; simpl; [reflexivity | now rewrite IH].
Qed.

Lemma append_nil_r (a : string) : a ++ "" = a.
Proof.
  induction a as [|x a IH]; simpl; [reflexivity | now rewrite IH].
Qed.

Lemma mentions_here (a x b : string) : mentions x (a ++ x ++ b).
Proof. now exists a, b. Qed.

Lemma mentions_app_l (x m t : string) : mentions x m -> mentions x (m ++ t).
Proof.
  intros (a & b & ->). exists a, (b ++ t). now rewrite !append_assoc.
Qed.

Lemma mentions_app_r (x m t : string) : mentions x m -> mentions x (t ++ m).
Proof.
  intros (a & b & ->). exists (t ++ a), b. now rewrite !append_assoc.
Qed.

Lemma mentions_refl (x : string) : mentions x x.
Proof. exists "", "". simpl. now rewrite append_nil_r. Qed.

(** ** Drive temperature *)

Lemma temp_reading_discarded (s : RaidStatus) (t : Z) :
  plausible t = false -> temp_reading s t = s.
Proof. unfold temp_reading, plausible. now intros ->. Qed.

Lemma temp_reading_max (s : RaidStatus) (t : Z) :
  plausible t = true -> max_temp (temp_reading s t) = Z.max (max_temp s) t.
Proof.
  unfold temp_reading, plausible. intros ->.
  destruct (max_temp s <? t) eqn:E;
    [apply Z.ltb_lt in E | apply Z.ltb_ge in E];
    destruct (TEMP_CRIT <=? t); destruct (TEMP_WARN <=? t); simpl; lia.
Qed.

Lemma temp_reading_critical (s : RaidStatus) (t : Z) :
  critical_warnings (temp_reading s t) =
  app (critical_warnings s)
      (if plausible t && (TEMP_CRIT <=? t)
       then ["Drive overheating (" ++ str_of_Z t ++ "C)"] else []).
Proof.
  unfold temp_reading, plausible.
  destruct ((0 <? t) && (t <? 100)); simpl; [|now rewrite app_nil_r].
  destruct (max_temp s <? t); destruct (TEMP_CRIT <=? t); destruct (TEMP_WARN <=? t);
    simpl; now rewrite ?app_nil_r.
Qed.

Lemma temp_reading_warning (s : RaidStatus) (t : Z) :
  warnings (temp_reading s t) =
  app (warnings s)
      (if plausible t && (TEMP_WARN <=? t) && (t <? TEMP_CRIT)
       then ["Drive temperature high (" ++ str_of_Z t ++ "C)"] else []).
Proof.
  unfold temp_reading, plausible.
  destruct ((0 <? t) && (t <? 100)); simpl; [|now rewrite app_nil_r].
  destruct (TEMP_CRIT <=? t) eqn:Ec.
  - apply Z.leb_le in Ec.
    replace (t <? TEMP_CRIT) with false by (symmetry; apply Z.ltb_ge; lia).
    rewrite andb_false_r. destruct (max_temp s <? t); simpl; now rewrite app_nil_r.
  - apply Z.leb_gt in Ec.
    replace (t <? TEMP_CRIT) with true by (symmetry; apply Z.ltb_lt; lia).
    rewrite andb_true_r.
    destruct (max_temp s <? t); destruct (TEMP_WARN <=? t); simpl; now rewrite ?app_nil_r.
Qed.

(** The loop of [check_drive_temperature] over any list of readings. *)
Lemma temp_loop (temps : list Z) :
  forall s : RaidStatus,
    let s' := fold_left temp_reading temps s in
    critical_warnings s' =
      app (critical_warnings s)
          (map (fun t => "Drive overheating (" ++ str_of_Z t ++ "C)")
               (filter (fun t => plausible t && (TEMP_CRIT <=? t)) temps))
    /\ warnings s' =
      app (warnings s)
          (map (fun t => "Drive temperature high (" ++ str_of_Z t ++ "C)")
               (filter (fun t => plausible t && (TEMP_WARN <=? t) && (t <? TEMP_CRIT)) temps))
    /\ max_temp s <= max_temp s'
    /\ (forall t, In t temps -> plausible t = true -> t <= max_temp s')
    /\ (max_temp s' = max_temp s
        \/ In (max_temp s') temps /\ plausible (max_temp s') = true).
Proof.
  induction temps as [|t temps IH]; intros s; cbn zeta.
  - simpl. rewrite !app_nil_r. repeat split; try lia; try tauto.
  - simpl fold_left. specialize (IH (temp_reading s t)). cbn zeta in IH.
    destruct IH as (Hc & Hw & Hle & Hub & Hex).
    rewrite Hc, Hw, temp_reading_critical, temp_reading_warning, <- !app_assoc.
    assert (Hm : max_temp s <= max_temp (temp_reading s t) /\
                 (plausible t = true -> t <= max_temp (temp_reading s t))).
    { destruct (plausible t) eqn:P.
      - rewrite (temp_reading_max _ _ P). lia.
      - rewrite (temp_reading_discarded _ _ P). split; [lia | discriminate]. }
    destruct Hm as [Hm1 Hm2].
    split; [|split; [|split; [|split]]].
    + simpl. destruct (plausible t && (TEMP_CRIT <=? t)); reflexivity.
    + simpl. destruct (plausible t && (TEMP_WARN <=? t) && (t <? TEMP_CRIT)); reflexivity.
    + lia.
    + intros u [<-|Hin] P; [specialize (Hm2 P); lia | now apply Hub].
    + destruct Hex as [Hex|[Hin P]]; [|right; split; [now right | exact P]].
      rewrite Hex. destruct (plausible t) eqn:P.
      * rewrite (temp_reading_max _ _ P).
        destruct (Z.max_spec (max_temp s) t) as [[_ ->]|[_ ->]];
          [right; split; [now left | exact P] | now left].
      * rewrite (temp_reading_discarded _ _ P). now left.
Qed.

(** ** What a command leaves untouched *)

Lemma call_frame (self : RaidChecker) (cmd : string) :
  status (snd (call self cmd)) = status self
  /\ vd_output (snd (call self cmd)) = vd_output self
  /\ pd_output (snd (call self cmd)) = pd_output self
  /\ vd_num (snd (call self cmd)) = vd_num self
  /\ host (runner (snd (call self cmd))) = host (runner self)
  /\ controller (runner (snd (call self cmd))) = controller (runner self).
Proof.
  unfold call, run.
  destruct (world (runner self) (calls (runner self)) _); simpl; repeat split.
Qed.

(** Name the reply and the checker after the next command, with the frame
    facts in the context. *)
Ltac step_call :=
  match goal with
  | |- context [call ?s ?c] =>
      let F := fresh "F" in
      let out := fresh "out" in
      let self' := fresh "self" in
      pose proof (call_frame s c) as F;
      destruct (call s c) as [out self']; cbn [fst snd] in F;
      destruct F as (? & ? & ? & ? & ? & ?)
  end.

(** ** SSD wear *)

(** One turn of the loop, by the figure extracted. *)
Lemma ssd_drive_spec (output drive : string) (s : RaidStatus) :
  ssd_drive output s drive =
  match ssd_remaining output drive with
  | Some remaining =>
      set_critical_warnings
        (app (critical_warnings s)
             (finding_if (remaining <=? SSD_WEAR_CRIT)
                ("SSD " ++ drive ++ " wear critical (" ++ str_of_Z remaining ++ "% left)")))
        (set_warnings
           (app (warnings s)
                (finding_if ((SSD_WEAR_CRIT <? remaining) && (remaining <=? SSD_WEAR_WARN))
                   ("SSD " ++ drive ++ " wear warning (" ++ str_of_Z remaining
                    ++ "% left)"))) s)
  | None => s
  end.
Proof.
  unfold ssd_drive. destruct (ssd_remaining output drive) as [r|]; [|reflexivity].
  rewrite Z.ltb_antisym.
  destruct (r <=? SSD_WEAR_CRIT); [|destruct (r <=? SSD_WEAR_WARN)];
    destruct s; cbn; rewrite ?app_nil_r; reflexivity.
Qed.

(** The loop of [check_ssd_wear] over any list of drives. *)
Lemma ssd_loop (output : string) (drives : list string) :
  forall s : RaidStatus,
    fold_left (ssd_drive output) drives s =
    set_critical_warnings
      (app (critical_warnings s)
           (map (fun x => "SSD " ++ fst x ++ " wear critical (" ++ str_of_Z (snd x)
                          ++ "% left)")
                (filter (fun x => snd x <=? SSD_WEAR_CRIT) (wear_of output drives))))
      (set_warnings
         (app (warnings s)
              (map (fun x => "SSD " ++ fst x ++ " wear warning (" ++ str_of_Z (snd x)
                             ++ "% left)")
                   (filter (fun x => (SSD_WEAR_CRIT <? snd x) && (snd x <=? SSD_WEAR_WARN))
                           (wear_of output drives)))) s).
Proof.
  induction drives as [|drive drives IH]; intros s.
  - destruct s; cbn. now rewrite !app_nil_r.
  - cbn [fold_left]. rewrite IH, ssd_drive_spec. unfold wear_of. cbn [flat_map].
    fold (wear_of output drives).
    destruct (ssd_remaining output drive) as [r|]; [|reflexivity].
    cbn [app filter fst snd].
    destruct (r <=? SSD_WEAR_CRIT); destruct ((SSD_WEAR_CRIT <? r) && (r <=? SSD_WEAR_WARN));
      destruct s; cbn [finding_if map fst snd set_critical_warnings set_warnings
                       critical_warnings warnings vd_total vd_ok vd_warn vd_crit pd_total
                       pd_ok pd_warn pd_crit spare_count max_temp media_errors other_errors
                       ctrl_status battery_status hotspare_status rebuild_status cc_status
                       patrol_status long_output];
      rewrite <- ?app_assoc, ?app_nil_r; reflexivity.
Qed.

(** C5. [check_ssd_wear] adds, for every solid-state drive whose remaining
    life is extracted and in the order of the summary, one CRITICAL finding
    when the figure is at or below the critical threshold, one WARNING finding
    when it is above the critical and at or below the warning threshold, and
    nothing when it is above the warning threshold; it changes nothing else.
    So a drive at exactly the warning threshold has its WARNING finding, a
    drive at or below the critical threshold its CRITICAL finding, drives all
    above the warning threshold leave the report as it was, and the check adds
    at most one finding per drive. *)
Theorem C5_ssd_wear_thresholds :
  forall self : RaidChecker,
    let readings := wear_readings self in
    let s := status self in
    let s' := status (check_ssd_wear self) in
    s' = set_critical_warnings
           (app (critical_warnings s)
                (map (fun x => "SSD " ++ fst x ++ " wear critical (" ++ str_of_Z (snd x)
                               ++ "% left)")
                     (filter (fun x => snd x <=? SSD_WEAR_CRIT) readings)))
           (set_warnings
              (app (warnings s)
                   (map (fun x => "SSD " ++ fst x ++ " wear warning (" ++ str_of_Z (snd x)
                                  ++ "% left)")
                        (filter (fun x => (SSD_WEAR_CRIT <? snd x)
                                          && (snd x <=? SSD_WEAR_WARN)) readings))) s)
    /\ (forall drive,
          In (drive, SSD_WEAR_WARN) readings ->
          In ("SSD " ++ drive ++ " wear warning (" ++ str_of_Z SSD_WEAR_WARN ++ "% left)")
             (warnings s'))
    /\ (forall drive remaining,
          In (drive, remaining) readings -> remaining <= SSD_WEAR_CRIT ->
          In ("SSD " ++ drive ++ " wear critical (" ++ str_of_Z remaining ++ "% left)")
             (critical_warnings s'))
    /\ ((forall drive remaining, In (drive, remaining) readings -> SSD_WEAR_WARN < remaining) ->
        s' = s)
    /\ (List.length (warnings s') + List.length (critical_warnings s')
        <= List.length (warnings s) + List.length (critical_warnings s)
           + List.length readings)%nat.
Proof.
  intros self readings s s'.
  assert (E : s' = fold_left (ssd_drive (reply self (show_all self))) (ssd_drives self) s).
  { subst s' s. unfold check_ssd_wear, ssd_drives, reply, show_all.
    rewrite <- append_assoc. step_call. simpl. congruence. }
  rewrite ssd_loop in E. fold (wear_readings self) in E. fold readings in E.
  split; [exact E|]. rewrite E. clear E. clearbody readings s. clear s' self.
  split; [|split; [|split]].
  - intros drive H. destruct s; cbn. apply in_or_app. right.
    apply (in_map (fun x => "SSD " ++ fst x ++ " wear warning (" ++ str_of_Z (snd x)
                            ++ "% left)") _ (drive, SSD_WEAR_WARN)).
    apply filter_In. split; [exact H | reflexivity].
  - intros drive r H L. destruct s; cbn. apply in_or_app. right.
    apply (in_map (fun x => "SSD " ++ fst x ++ " wear critical (" ++ str_of_Z (snd x)
                            ++ "% left)") _ (drive, r)).
    apply filter_In. split; [exact H | now apply Z.leb_le].
  - intros A.
    assert (F : filter (fun x : string * Z => snd x <=? SSD_WEAR_CRIT) readings = []
                /\ filter (fun x : string * Z => (SSD_WEAR_CRIT <? snd x)
                                                 && (snd x <=? SSD_WEAR_WARN)) readings = []).
    { induction readings as [|[d r] l IH]; [now split|]. cbn [filter snd].
      pose proof (A d r (or_introl eq_refl)) as G.
      replace (r <=? SSD_WEAR_CRIT) with false
        by (symmetry; apply Z.leb_gt; unfold SSD_WEAR_CRIT, SSD_WEAR_WARN in *; lia).
      replace (r <=? SSD_WEAR_WARN) with false by (symmetry; apply Z.leb_gt; lia).
      rewrite andb_false_r. apply IH. intros d' r' I. apply (A d' r'). now right. }
    destruct F as [F1 F2].
    rewrite F1, F2. destruct s; cbn. now rewrite !app_nil_r.
  - destruct s; cbn. rewrite !length_app, !length_map.
    set (warned := filter (fun x : string * Z => (SSD_WEAR_CRIT <? snd x)
                                                 && (snd x <=? SSD_WEAR_WARN)) readings).
    set (failed := filter (fun x : string * Z => snd x <=? SSD_WEAR_CRIT) readings).
    assert (K : (List.length warned + List.length failed <= List.length readings)%nat).
    { subst warned failed. induction readings as [|[d r] l IH]; [reflexivity|]. cbn [filter snd].
      rewrite Z.ltb_antisym.
      destruct (r <=? SSD_WEAR_CRIT); [|destruct (r <=? SSD_WEAR_WARN)]; cbn; lia. }
    lia.
Qed.

Lemma C5_ssd_wear_thresholds_witness :
  wear_readings ssd_checker = [("252:1", 20)]
  /\ status (check_ssd_wear ssd_checker)
     = warn "SSD 252:1 wear warning (20% left)" RaidStatus_new
  /\ In "SSD 252:1 wear warning (20% left)" (warnings (status (check_ssd_wear ssd_checker))).
Proof.
  assert (R : wear_readings ssd_checker = [("252:1", 20)]) by (vm_compute; reflexivity).
  pose proof (C5_ssd_wear_thresholds ssd_checker) as W. cbv zeta in W.
  destruct W as (W1 & W2 & _). rewrite R in W1, W2.
  split; [exact R | split].
  - rewrite W1. vm_compute. reflexivity.
  - apply (W2 "252:1"). now left.
Defined.

(** C7. Readings of 0 or less and of 100 or more change nothing.  Each
    reading strictly between 0 and 100 gives a CRITICAL finding when it is at
    least the critical threshold, a WARNING finding when it is at least the
    warning threshold and below the critical one, and nothing otherwise; the
    max-temperature metric ends as the largest of its old value and the
    plausible readings. *)
Theorem C7_temperature_readings :
  forall self : RaidChecker,
    let temps := temperature_readings self in
    let s := status self in
    let s' := status (check_drive_temperature self) in
    (forall (r : RaidStatus) (t : Z), t <= 0 \/ 100 <= t -> temp_reading r t = r)
    /\ critical_warnings s' =
         app (critical_warnings s)
             (map (fun t => "Drive overheating (" ++ str_of_Z t ++ "C)")
                  (filter (fun t => plausible t && (TEMP_CRIT <=? t)) temps))
    /\ warnings s' =
         app (warnings s)
             (map (fun t => "Drive temperature high (" ++ str_of_Z t ++ "C)")
                  (filter (fun t => plausible t && (TEMP_WARN <=? t) && (t <? TEMP_CRIT))
                          temps))
    /\ max_temp s <= max_temp s'
    /\ (forall t, In t temps -> 0 < t < 100 -> t <= max_temp s')
    /\ (max_temp s' = max_temp s
        \/ In (max_temp s') temps /\ 0 < max_temp s' < 100).
Proof.
  intros self temps s s'.
  assert (E : s' = fold_left temp_reading temps s).
  { subst s' temps s. unfold check_drive_temperature, temperature_readings, reply, show_all.
    rewrite <- append_assoc. step_call. simpl. congruence. }
  destruct (temp_loop temps s) as (Hc & Hw & Hle & Hub & Hex). rewrite <- E in *.
  split; [|split; [|split; [|split; [|split]]]]; try assumption.
  - intros r t H. apply temp_reading_discarded. unfold plausible.
    destruct H; [replace (0 <? t) with false by (symmetry; apply Z.ltb_ge; lia)
                | replace (t <? 100) with false by (symmetry; apply Z.ltb_ge; lia)];
      now rewrite ?andb_false_r.
  - intros t Hin Hr. apply Hub; [exact Hin|]. unfold plausible.
    apply andb_true_iff. split; apply Z.ltb_lt; lia.
  - destruct Hex as [Hex|[Hin P]]; [now left | right; split; [exact Hin|]].
    unfold plausible in P. apply andb_true_iff in P. destruct P as [P1 P2].
    apply Z.ltb_lt in P1, P2. lia.
Qed.

(** ** Per-drive error counters *)

Section Smart.

Variables (drive section : string).

Let media := count_or_zero (counter_of "Media Error" section).
Let other := count_or_zero (counter_of "Other Error" section).
Let shield := count_or_zero (counter_of "Shield Counter" section).
Let bbm := count_or_zero (counter_of "BBM Error" section).

Lemma smart_media_spec (s : RaidStatus) :
  smart_media drive section s =
  (if MEDIA_ERROR_CRIT <=? media
   then crit ("Drive " ++ drive ++ ": " ++ str_of_Z media ++ " media errors")
   else if MEDIA_ERROR_WARN <=? media
   then warn ("Drive " ++ drive ++ ": " ++ str_of_Z media ++ " media errors")
   else fun s => s)
    (set_media_errors (media_errors s + Z.max 0 media) s).
Proof.
  subst media. unfold smart_media, MEDIA_ERROR_CRIT, MEDIA_ERROR_WARN.
  destruct (counter_of "Media Error" section) as [c|]; simpl;
    [|rewrite Z.add_0_r; now destruct s].
  destruct (0 <? c) eqn:E0; [apply Z.ltb_lt in E0 | apply Z.ltb_ge in E0].
  - rewrite Z.max_r by lia. destruct (10 <=? c); [|destruct (1 <=? c)]; reflexivity.
  - rewrite Z.max_l by lia.
    replace (10 <=? c) with false by (symmetry; apply Z.leb_gt; lia).
    replace (1 <=? c) with false by (symmetry; apply Z.leb_gt; lia).
    rewrite Z.add_0_r. now destruct s.
Qed.

Lemma smart_other_spec (s : RaidStatus) :
  smart_other drive section s =
  (if OTHER_ERROR_WARN <=? other
   then warn ("Drive " ++ drive ++ ": " ++ str_of_Z other ++ " other errors")
   else fun s => s)
    (set_other_errors (other_errors s + Z.max 0 other) s).
Proof.
  subst other. unfold smart_other, OTHER_ERROR_WARN.
  destruct (counter_of "Other Error" section) as [c|]; simpl;
    [|rewrite Z.add_0_r; now destruct s].
  destruct (0 <? c) eqn:E0; [apply Z.ltb_lt in E0 | apply Z.ltb_ge in E0].
  - rewrite Z.max_r by lia. destruct (1 <=? c); reflexivity.
  - rewrite Z.max_l by lia.
    replace (1 <=? c) with false by (symmetry; apply Z.leb_gt; lia).
    rewrite Z.add_0_r. now destruct s.
Qed.

Lemma smart_shield_spec (s : RaidStatus) :
  smart_shield drive section s =
  set_warnings
    (app (warnings s)
         (finding_if (0 <? shield)
            ("Drive " ++ drive ++ ": " ++ str_of_Z shield ++ " shield errors"))) s.
Proof.
  subst shield. unfold smart_shield, finding_if.
  destruct (counter_of "Shield Counter" section) as [c|]; simpl;
    [destruct (0 <? c)|]; rewrite ?app_nil_r; now destruct s.
Qed.

Lemma smart_bbm_spec (s : RaidStatus) :
  smart_bbm drive section s =
  set_warnings
    (app (warnings s)
         (finding_if (0 <? bbm)
            ("Drive " ++ drive ++ ": " ++ str_of_Z bbm ++ " BBM errors"))) s.
Proof.
  subst bbm. unfold smart_bbm, finding_if.
  destruct (counter_of "BBM Error" section) as [c|]; simpl;
    [destruct (0 <? c)|]; rewrite ?app_nil_r; now destruct s.
Qed.

End Smart.

(** One turn of the loop on a drive whose section is found. *)
Lemma smart_drive_spec (output drive section : string) (s : RaidStatus) :
  smart_section_of output drive = Some section ->
  let media := count_or_zero (counter_of "Media Error" section) in
  let other := count_or_zero (counter_of "Other Error" section) in
  let shield := count_or_zero (counter_of "Shield Counter" section) in
  let bbm := count_or_zero (counter_of "BBM Error" section) in
  let label := "Drive " ++ drive ++ ": " in
  smart_drive output s drive =
  set_critical_warnings
    (app (critical_warnings s)
         (finding_if (MEDIA_ERROR_CRIT <=? media)
            (label ++ str_of_Z media ++ " media errors")))
    (set_warnings
       (app (warnings s)
         (app (finding_if ((MEDIA_ERROR_WARN <=? media) && (media <? MEDIA_ERROR_CRIT))
                 (label ++ str_of_Z media ++ " media errors"))
         (app (finding_if (OTHER_ERROR_WARN <=? other)
                 (label ++ str_of_Z other ++ " other errors"))
         (app (finding_if (0 <? shield)
                 (label ++ str_of_Z shield ++ " shield errors"))
              (finding_if (0 <? bbm)
                 (label ++ str_of_Z bbm ++ " BBM errors"))))))
       (set_media_errors (media_errors s + Z.max 0 media)
          (set_other_errors (other_errors s + Z.max 0 other) s))).
Proof.
  intros E media other shield bbm label.
  unfold smart_drive. rewrite E.
  rewrite smart_bbm_spec, smart_shield_spec, smart_other_spec, smart_media_spec.
  fold media other shield bbm. subst label. rewrite !append_assoc.
  unfold MEDIA_ERROR_CRIT, MEDIA_ERROR_WARN, OTHER_ERROR_WARN.
  destruct (10 <=? media) eqn:Ec.
  - apply Z.leb_le in Ec.
    replace (1 <=? media) with true by (symmetry; apply Z.leb_le; lia).
    replace (media <? 10) with false by (symmetry; apply Z.ltb_ge; lia).
    destruct (1 <=? other); destruct s; simpl; unfold set_warnings, set_critical_warnings;
      simpl; rewrite <- ?app_assoc; reflexivity.
  - apply Z.leb_gt in Ec.
    replace (media <? 10) with true by (symmetry; apply Z.ltb_lt; lia).
    rewrite andb_true_r.
    destruct (1 <=? media); destruct (1 <=? other); destruct s; simpl;
      unfold set_warnings, set_critical_warnings; simpl;
      rewrite <- ?app_assoc, ?app_nil_r; reflexivity.
Qed.

(** The loop of [check_smart_data] over any list of drives. *)
Lemma smart_loop (output : string) (drives : list string) :
  forall s : RaidStatus,
    let found := sections_of output drives in
    let label := fun x : string * string => "Drive " ++ fst x ++ ": " in
    let media := counted "Media Error" in
    let other := counted "Other Error" in
    let shield := counted "Shield Counter" in
    let bbm := counted "BBM Error" in
    fold_left (smart_drive output) drives s =
    set_critical_warnings
      (app (critical_warnings s)
           (flat_map (fun x => finding_if (MEDIA_ERROR_CRIT <=? media x)
                                 (label x ++ str_of_Z (media x) ++ " media errors")) found))
      (set_warnings
         (app (warnings s)
              (flat_map
                 (fun x =>
                    app (finding_if ((MEDIA_ERROR_WARN <=? media x)
                                     && (media x <? MEDIA_ERROR_CRIT))
                           (label x ++ str_of_Z (media x) ++ " media errors"))
                   (app (finding_if (OTHER_ERROR_WARN <=? other x)
                           (label x ++ str_of_Z (other x) ++ " other errors"))
                   (app (finding_if (0 <? shield x)
                           (label x ++ str_of_Z (shield x) ++ " shield errors"))
                        (finding_if (0 <? bbm x)
                           (label x ++ str_of_Z (bbm x) ++ " BBM errors"))))) found))
         (set_media_errors (media_errors s + total (map (fun x => Z.max 0 (media x)) found))
            (set_other_errors
               (other_errors s + total (map (fun x => Z.max 0 (other x)) found)) s))).
Proof.
  induction drives as [|drive drives IH]; intros s; cbv zeta.
  - destruct s; cbn. now rewrite !app_nil_r, !Z.add_0_r.
  - cbn [fold_left]. specialize (IH (smart_drive output s drive)). cbv zeta in IH.
    rewrite IH. clear IH. unfold sections_of. cbn [flat_map].
    fold (sections_of output drives).
    destruct (smart_section_of output drive) as [section|] eqn:E;
      [|unfold smart_drive; rewrite E; reflexivity].
    rewrite (smart_drive_spec _ _ _ s E). cbv zeta.
    cbn [app flat_map map total fold_right]. unfold counted at 1 2 3 4 5 6 7 8 9 10 11 12.
    cbn [fst snd].
    destruct s; cbn [set_critical_warnings set_warnings set_media_errors set_other_errors
                     critical_warnings warnings vd_total vd_ok vd_warn vd_crit pd_total
                     pd_ok pd_warn pd_crit spare_count max_temp media_errors other_errors
                     ctrl_status battery_status hotspare_status rebuild_status cc_status
                     patrol_status long_output].
    rewrite <- !app_assoc, <- !Z.add_assoc. reflexivity.
Qed.

(** C6 as the specification has it fails on the shield counter: the check
    finds the section of the one drive of the host, reads a shield counter of
    3 in it and adds the WARNING finding, and no total of the report moves:
    the report is the old one with that finding. *)
Lemma C6_shield_not_accumulated :
  let self := smart_checker shield_sample in
  smart_sections self = [("252:0", shield_sample)]
  /\ counted "Shield Counter" ("252:0", shield_sample) = 3
  /\ status (check_smart_data self)
     = warn "Drive 252:0: 3 shield errors" (status self)
  /\ media_errors (status (check_smart_data self)) = 0
  /\ other_errors (status (check_smart_data self)) = 0.
Proof. vm_compute. repeat split. Qed.

(** C6, amended. [check_smart_data] goes through the drives of the summary
    whose detail section is found, in order.  For each: a media-error count at
    or above the critical threshold gives a CRITICAL finding, one at or above
    the warning threshold and below the critical one a WARNING finding, and a
    positive count is added to the media-error total; an other-error count at
    its threshold gives a WARNING finding and a positive count is added to the
    other-error total; a positive shield counter and a positive BBM count give
    one WARNING finding each and are added to no total.  Nothing else in the
    report changes. *)
Theorem C6_error_counters :
  forall self : RaidChecker,
    let found := smart_sections self in
    let s := status self in
    let label := fun x : string * string => "Drive " ++ fst x ++ ": " in
    let media := counted "Media Error" in
    let other := counted "Other Error" in
    let shield := counted "Shield Counter" in
    let bbm := counted "BBM Error" in
    status (check_smart_data self) =
    set_critical_warnings
      (app (critical_warnings s)
           (flat_map (fun x => finding_if (MEDIA_ERROR_CRIT <=? media x)
                                 (label x ++ str_of_Z (media x) ++ " media errors")) found))
      (set_warnings
         (app (warnings s)
              (flat_map
                 (fun x =>
                    app (finding_if ((MEDIA_ERROR_WARN <=? media x)
                                     && (media x <? MEDIA_ERROR_CRIT))
                           (label x ++ str_of_Z (media x) ++ " media errors"))
                   (app (finding_if (OTHER_ERROR_WARN <=? other x)
                           (label x ++ str_of_Z (other x) ++ " other errors"))
                   (app (finding_if (0 <? shield x)
                           (label x ++ str_of_Z (shield x) ++ " shield errors"))
                        (finding_if (0 <? bbm x)
                           (label x ++ str_of_Z (bbm x) ++ " BBM errors"))))) found))
         (set_media_errors (media_errors s + total (map (fun x => Z.max 0 (media x)) found))
            (set_other_errors
               (other_errors s + total (map (fun x => Z.max 0 (other x)) found)) s))).
Proof.
  intros self found s label media other shield bbm.
  assert (E : status (check_smart_data self)
              = fold_left (smart_drive (reply self (show_all self))) (smart_drives self) s).
  { subst s. unfold check_smart_data, smart_drives, reply, show_all.
    rewrite <- append_assoc. step_call. simpl. congruence. }
  rewrite E. apply smart_loop.
Qed.

Lemma C6_error_counters_witness :
  let self := smart_checker smart_sample in
  smart_sections self = [("252:0", smart_sample)]
  /\ status (check_smart_data self) =
     set_critical_warnings ["Drive 252:0: 12 media errors"]
       (set_warnings ["Drive 252:0: 4 other errors"; "Drive 252:0: 2 shield errors";
                      "Drive 252:0: 1 BBM errors"]
          (set_media_errors 12 (set_other_errors 4 RaidStatus_new))).
Proof.
  cbv zeta.
  assert (F : smart_sections (smart_checker smart_sample) = [("252:0", smart_sample)])
    by (vm_compute; reflexivity).
  split; [exact F|].
  pose proof (C6_error_counters (smart_checker smart_sample)) as W. cbv zeta in W.
  rewrite F in W. rewrite W. vm_compute. reflexivity.
Defined.

(** ** The checks leave the drive counters alone *)

Lemma counts_eq (s t : RaidStatus) :
  counts s = counts t ->
  vd_total s = vd_total t /\ vd_ok s = vd_ok t /\ vd_warn s = vd_warn t
  /\ vd_crit s = vd_crit t /\ pd_total s = pd_total t /\ pd_ok s = pd_ok t
  /\ pd_warn s = pd_warn t /\ pd_crit s = pd_crit t.
Proof.
  unfold counts. intros H. injection H. intros. repeat split; assumption.
Qed.

Lemma fold_left_keeps {A B : Type} (view : RaidStatus -> B)
      (f : RaidStatus -> A -> RaidStatus) :
  (forall s x, view (f s x) = view s) ->
  forall l s, view (fold_left f l s) = view s.
Proof.
  intros H l. induction l as [|x l IH]; intros s; simpl; [reflexivity|].
  now rewrite IH, H.
Qed.

Lemma frame_eq (a b : RaidChecker) :
  frame a = frame b ->
  counts (status a) = counts (status b)
  /\ vd_output a = vd_output b /\ pd_output a = pd_output b
  /\ vd_num a = vd_num b /\ host (runner a) = host (runner b)
  /\ controller (runner a) = controller (runner b).
Proof.
  unfold frame. intros H. injection H. intros. repeat split; congruence.
Qed.

(** Take a check apart along its commands and its branches. *)
Ltac branches :=
  repeat first
    [ step_call
    | match goal with
      | |- context [match ?x with _ => _ end] =>
          lazymatch x with
          | context [match _ with _ => _ end] => fail
          | _ => destruct x eqn:?
          end
      end ].

Ltac keeps_frame := branches; unfold frame, counts in *; simpl in *; congruence.

Lemma check_controller_health_frame self :
  frame (check_controller_health self) = frame self.
Proof. unfold check_controller_health. keeps_frame. Qed.

(** The nested conditionals of [check_battery] are the ordered list of
    strategies. *)
Lemma find_state_first_hit (family : string) (embedded : Re.regex) (self : RaidChecker) :
  find_state family embedded self =
  first_hit (state_strategies family embedded (controller (runner self))) self.
Proof.
  unfold find_state, state_strategies, first_hit.
  destruct (call self _) as [o1 s1]. cbv zeta.
  destruct (supported_state o1) eqn:E1; cbn [found]; [reflexivity|].
  destruct (call s1 _) as [o2 s2].
  destruct (supported_state o2) eqn:E2; cbn [found]; [reflexivity|].
  destruct (call s2 _) as [o3 s3].
  destruct (supported_state o3) eqn:E3; cbn [found]; [reflexivity|].
  destruct (call s3 _) as [o4 s4].
  destruct (Re.search embedded o4 Re.I); reflexivity.
Qed.

Lemma first_hit_frame strategies :
  forall self : RaidChecker,
    status (snd (first_hit strategies self)) = status self
    /\ vd_output (snd (first_hit strategies self)) = vd_output self
    /\ pd_output (snd (first_hit strategies self)) = pd_output self
    /\ vd_num (snd (first_hit strategies self)) = vd_num self
    /\ host (runner (snd (first_hit strategies self))) = host (runner self)
    /\ controller (runner (snd (first_hit strategies self))) = controller (runner self).
Proof.
  induction strategies as [|[cmd extract] others IH]; intros self; simpl.
  - repeat split.
  - step_call. destruct (extract out); simpl.
    + repeat split; assumption.
    + destruct (IH self0) as (? & ? & ? & ? & ? & ?). repeat split; congruence.
Qed.

Lemma find_state_frame (family : string) (embedded : Re.regex) (self : RaidChecker) :
  status (snd (find_state family embedded self)) = status self
  /\ vd_output (snd (find_state family embedded self)) = vd_output self
  /\ pd_output (snd (find_state family embedded self)) = pd_output self
  /\ vd_num (snd (find_state family embedded self)) = vd_num self
  /\ host (runner (snd (find_state family embedded self))) = host (runner self)
  /\ controller (runner (snd (find_state family embedded self))) = controller (runner self).
Proof. rewrite find_state_first_hit. apply first_hit_frame. Qed.

Ltac step_find :=
  match goal with
  | |- context [find_state ?f ?e ?s] =>
      let F := fresh "F" in
      let m := fresh "m" in
      let self' := fresh "self" in
      pose proof (find_state_frame f e s) as F;
      destruct (find_state f e s) as [m self']; cbn [fst snd] in F;
      destruct F as (? & ? & ? & ? & ? & ?)
  end.

Lemma check_battery_frame self :
  frame (check_battery self) = frame self.
Proof.
  unfold check_battery.
  assert (A : frame (check_cachevault self) = frame self).
  { unfold check_cachevault. step_find. keeps_frame. }
  assert (B : forall x, frame (check_bbu x) = frame x).
  { intros x. unfold check_bbu. step_find. keeps_frame. }
  assert (C : forall x, frame (check_energy_pack x) = frame x).
  { intros x. unfold check_energy_pack. keeps_frame. }
  now rewrite C, B, A.
Qed.

Lemma check_foreign_config_frame self :
  frame (check_foreign_config self) = frame self.
Proof. unfold check_foreign_config. keeps_frame. Qed.

Lemma check_predictive_failure_frame self :
  frame (check_predictive_failure self) = frame self.
Proof. unfold check_predictive_failure. keeps_frame. Qed.

Lemma smart_drive_counts output s drive :
  counts (smart_drive output s drive) = counts s.
Proof.
  unfold smart_drive, smart_bbm, smart_shield, smart_other, smart_media.
  branches; reflexivity.
Qed.

Lemma check_smart_data_frame self :
  frame (check_smart_data self) = frame self.
Proof.
  unfold check_smart_data. step_call. unfold frame. simpl.
  rewrite (fold_left_keeps counts); [congruence|]. apply smart_drive_counts.
Qed.

Lemma check_rebuild_progress_frame self :
  frame (check_rebuild_progress self) = frame self.
Proof. unfold check_rebuild_progress. keeps_frame. Qed.

Lemma check_consistency_check_frame self :
  frame (check_consistency_check self) = frame self.
Proof. unfold check_consistency_check. keeps_frame. Qed.

Lemma check_ssd_wear_frame self :
  frame (check_ssd_wear self) = frame self.
Proof.
  unfold check_ssd_wear. step_call. unfold frame. simpl.
  rewrite (fold_left_keeps counts); [congruence|].
  intros s x. unfold ssd_drive. branches; reflexivity.
Qed.

Lemma check_drive_temperature_frame self :
  frame (check_drive_temperature self) = frame self.
Proof.
  unfold check_drive_temperature. step_call. unfold frame. simpl.
  rewrite (fold_left_keeps counts); [congruence|].
  intros s x. unfold temp_reading. branches; reflexivity.
Qed.

Lemma check_patrol_read_frame self :
  frame (check_patrol_read self) = frame self.
Proof. unfold check_patrol_read. keeps_frame. Qed.

Lemma check_hotspare_frame self :
  frame (check_hotspare self) = frame self.
Proof. unfold check_hotspare. keeps_frame. Qed.

(** ** Drive counts *)

Lemma count_vd_loop (vd_lines : list (string * string)) :
  forall s : RaidStatus,
    let s' := fold_left count_vd vd_lines s in
    vd_ok s' + vd_warn s' + vd_crit s' = vd_ok s + vd_warn s + vd_crit s + len vd_lines
    /\ vd_total s' = vd_total s.
Proof.
  unfold len. induction vd_lines as [|[vd_id state] l IH]; intros s; cbn zeta.
  - simpl. lia.
  - cbn [fold_left]. specialize (IH (count_vd s (vd_id, state))). cbn zeta in IH.
    destruct IH as [IH1 IH2]. rewrite IH1, IH2.
    change (List.length ((vd_id, state) :: l)) with (S (List.length l)).
    rewrite Nat2Z.inj_succ. unfold count_vd.
    destruct (String.eqb state "Optl");
      [|destruct (String.eqb state "Rbld" || String.eqb state "Pdgd")];
      simpl; lia.
Qed.

Lemma count_pd_step (s : RaidStatus) (pd_id state : string) :
  let s' := count_pd s (pd_id, state) in
  pd_ok s' + pd_warn s' + pd_crit s'
  = pd_ok s + pd_warn s + pd_crit s + (if pd_bucketed state then 1 else 0)
  /\ pd_total s' = pd_total s
  /\ vd_total s' = vd_total s /\ vd_ok s' = vd_ok s
  /\ vd_warn s' = vd_warn s /\ vd_crit s' = vd_crit s.
Proof.
  unfold count_pd, pd_bucketed.
  destruct (String.eqb state "Onln"); destruct (String.eqb state "Rbld");
    destruct (String.eqb state "Offln"); destruct (String.eqb state "Failed");
    destruct (String.eqb state "UBad"); destruct (String.eqb state "Msng");
    simpl; repeat split; lia.
Qed.

Lemma count_pd_loop (pd_lines : list (string * string)) :
  forall s : RaidStatus,
    let s' := fold_left count_pd pd_lines s in
    pd_ok s' + pd_warn s' + pd_crit s'
    = pd_ok s + pd_warn s + pd_crit s
      + len (filter (fun l => pd_bucketed (snd l)) pd_lines)
    /\ pd_total s' = pd_total s
    /\ vd_total s' = vd_total s /\ vd_ok s' = vd_ok s
    /\ vd_warn s' = vd_warn s /\ vd_crit s' = vd_crit s.
Proof.
  unfold len. induction pd_lines as [|[pd_id state] l IH]; intros s; cbn zeta.
  - simpl. lia.
  - cbn [fold_left]. specialize (IH (count_pd s (pd_id, state))). cbn zeta in IH.
    destruct IH as (IH1 & IH2 & IH3 & IH4 & IH5 & IH6).
    destruct (count_pd_step s pd_id state) as (S1 & S2 & S3 & S4 & S5 & S6).
    cbn zeta in *. rewrite IH1, IH2, IH3, IH4, IH5, IH6, S1, S2, S3, S4, S5, S6.
    cbn [filter snd]. destruct (pd_bucketed state); cbn [List.length];
      rewrite ?Nat2Z.inj_succ; repeat split; lia.
Qed.

Lemma filter_length_all {A} (f : A -> bool) (l : list A) :
  List.length (filter f l) = List.length l <-> forallb f l = true.
Proof.
  induction l as [|x l IH]; simpl; [tauto|].
  pose proof (filter_length_le f l) as L.
  destruct (f x); simpl; [rewrite <- IH; lia | split; [lia | discriminate]].
Qed.

(** [build_perfdata] on a report whose six buckets are still at zero. *)
Lemma count_drives_spec (vd_lines pd_lines : list (string * string)) (s : RaidStatus) :
  vd_ok s = 0 -> vd_warn s = 0 -> vd_crit s = 0 ->
  pd_ok s = 0 -> pd_warn s = 0 -> pd_crit s = 0 ->
  let s' := count_drives vd_lines pd_lines s in
  vd_total s' = len vd_lines
  /\ pd_total s' = len pd_lines
  /\ vd_total s' = vd_ok s' + vd_warn s' + vd_crit s'
  /\ pd_ok s' + pd_warn s' + pd_crit s'
     = len (filter (fun l => pd_bucketed (snd l)) pd_lines).
Proof.
  intros V1 V2 V3 P1 P2 P3 s'. subst s'. unfold count_drives.
  destruct (count_pd_loop pd_lines
              (set_pd_total (len pd_lines)
                 (fold_left count_vd vd_lines (set_vd_total (len vd_lines) s))))
    as (Q1 & Q2 & Q3 & Q4 & Q5 & Q6).
  destruct (count_vd_loop vd_lines (set_vd_total (len vd_lines) s)) as (R1 & R2).
  cbn zeta in *. rewrite Q1, Q2, Q3, Q4, Q5, Q6.
  assert (F : forall (l : list (string * string)) t,
             pd_ok (fold_left count_vd l t) = pd_ok t
             /\ pd_warn (fold_left count_vd l t) = pd_warn t
             /\ pd_crit (fold_left count_vd l t) = pd_crit t).
  { induction l as [|[i st] l IH]; intros t; cbn [fold_left]; [tauto|].
    destruct (IH (count_vd t (i, st))) as (-> & -> & ->). unfold count_vd.
    destruct (String.eqb st "Optl");
      [|destruct (String.eqb st "Rbld" || String.eqb st "Pdgd")]; simpl; tauto. }
  destruct (F vd_lines (set_vd_total (len vd_lines) s)) as (F1 & F2 & F3).
  simpl in *. rewrite F1, F2, F3, P1, P2, P3. lia.
Qed.

(** [build_long_output] writes to the detail block and to nothing else. *)
Lemma long_only_long (s0 s : RaidStatus) (m : string) :
  only_long s0 s -> only_long s0 (long m s).
Proof. intros [lo ->]. now exists (app lo [m]). Qed.

Lemma long_when_only_long (s0 s : RaidStatus) c m :
  only_long s0 s -> only_long s0 (long_when c m s).
Proof.
  intros H. unfold long_when. destruct (c s); [now apply long_only_long | exact H].
Qed.

Lemma fold_long_only_long {A} (f : A -> string) (l : list A) :
  forall s0 s, only_long s0 s -> only_long s0 (fold_left (fun s x => long (f x) s) l s).
Proof.
  induction l as [|x l IH]; intros s0 s H; simpl; [exact H|].
  apply IH. now apply long_only_long.
Qed.

Lemma build_long_output_only_long (self : RaidChecker) :
  only_long (status self) (status (build_long_output self))
  /\ vd_output (build_long_output self) = vd_output self
  /\ pd_output (build_long_output self) = pd_output self
  /\ vd_num (build_long_output self) = vd_num self
  /\ runner (build_long_output self) = runner self.
Proof.
  split; [|repeat split].
  unfold build_long_output. cbn [upd status].
  assert (R : only_long (status self) (status self))
    by (exists (long_output (status self)); now destruct (status self)).
  repeat first [ apply long_when_only_long | apply long_only_long
               | apply fold_long_only_long ].
  exact R.
Qed.

Lemma build_long_output_frame (self : RaidChecker) :
  counts (status (build_long_output self)) = counts (status self)
  /\ vd_output (build_long_output self) = vd_output self
  /\ pd_output (build_long_output self) = pd_output self.
Proof.
  destruct (build_long_output_only_long self) as ([lo E] & V & P & _).
  rewrite E. repeat split; assumption.
Qed.

(** The counting step, and the detail block after it, on a checker whose
    six buckets are still at zero. *)
Lemma counted_spec (cfg : Config) (X : RaidChecker) :
  vd_ok (status X) = 0 -> vd_warn (status X) = 0 -> vd_crit (status X) = 0 ->
  pd_ok (status X) = 0 -> pd_warn (status X) = 0 -> pd_crit (status X) = 0 ->
  let self := if ENABLE_LONG_OUTPUT cfg then build_long_output (build_perfdata X)
              else build_perfdata X in
  let s := status self in
  vd_total s = len (vd_records self)
  /\ pd_total s = len (pd_records self)
  /\ vd_total s = vd_ok s + vd_warn s + vd_crit s
  /\ pd_ok s + pd_warn s + pd_crit s
     = len (filter (fun l => pd_bucketed (snd l)) (pd_records self)).
Proof.
  intros V1 V2 V3 P1 P2 P3.
  pose proof (count_drives_spec (vd_records X) (pd_records X) (status X)
                V1 V2 V3 P1 P2 P3) as C. cbn zeta in C.
  assert (B : status (build_perfdata X)
              = count_drives (vd_records X) (pd_records X) (status X)
              /\ vd_records (build_perfdata X) = vd_records X
              /\ pd_records (build_perfdata X) = pd_records X)
    by (repeat split).
  destruct B as (B1 & B2 & B3). rewrite <- B1, <- B2, <- B3 in C.
  generalize dependent (build_perfdata X). intros Y C _ _ _.
  destruct (ENABLE_LONG_OUTPUT cfg); cbv zeta; [|exact C].
  destruct (build_long_output_frame Y) as (L1 & L2 & L3).
  unfold vd_records, pd_records in *. rewrite L2, L3.
  destruct (counts_eq _ _ L1) as (-> & -> & -> & -> & -> & -> & -> & ->).
  exact C.
Qed.

(** [run_checks] is ten checks that keep the frame, then the hot-spare
    check, the counting step, and the detail block if it is switched on. *)
Lemma run_checks_shape (cfg : Config) (self : RaidChecker) :
  exists Y,
    counts (status Y) = counts (status self)
    /\ vd_num Y = vd_num self
    /\ host (runner Y) = host (runner self)
    /\ run_checks cfg self =
       if ENABLE_LONG_OUTPUT cfg
       then build_long_output (build_perfdata (check_hotspare Y))
       else build_perfdata (check_hotspare Y).
Proof.
  unfold run_checks. do 2 step_call. cbv zeta.
  match goal with
  | |- context [check_hotspare ?x] =>
      match x with
      | context [check_controller_health ?y] =>
          exists x; assert (F : frame x = frame y)
      end
  end.
  { now rewrite check_patrol_read_frame,
      check_drive_temperature_frame, check_ssd_wear_frame,
      check_consistency_check_frame, check_rebuild_progress_frame,
      check_smart_data_frame, check_predictive_failure_frame,
      check_foreign_config_frame, check_battery_frame,
      check_controller_health_frame. }
  destruct (frame_eq _ _ F) as (F1 & _ & _ & F4 & F5 & _).
  rewrite F1, F4, F5. clear F F1 F4 F5.
  split; [|split; [|split; [|reflexivity]]]; simpl in *; congruence.
Qed.

(** C2 as the specification has it fails for a hot spare: of two parsed
    physical drives, one online and one dedicated spare, only the first lands
    in a bucket. *)
Lemma C2_hot_spare_in_no_bucket :
  let s := status (run_checks default_config
                     (RaidChecker_new (scripted_runner spare_script) None)) in
  pd_total s = 2 /\ pd_ok s + pd_warn s + pd_crit s = 1.
Proof. vm_compute. split; reflexivity. Qed.

(** C2, amended. After the counting step of a run, [vd_total] and [pd_total]
    are the numbers of parsed summary lines, [vd_total] is the sum of its
    three buckets, and the three physical-drive buckets add up to the number
    of lines whose state is one of Onln, Rbld, Offln, Failed, UBad, Msng: at
    most [pd_total], and [pd_total] exactly when no line has another state. *)
Theorem C2_drive_counts :
  forall (cfg : Config) (r : ESXiStorCLIRunner) (vd : option string),
    let self := run_checks cfg (RaidChecker_new r vd) in
    let s := status self in
    vd_total s = len (vd_records self)
    /\ pd_total s = len (pd_records self)
    /\ vd_total s = vd_ok s + vd_warn s + vd_crit s
    /\ pd_ok s + pd_warn s + pd_crit s
       = len (filter (fun l => pd_bucketed (snd l)) (pd_records self))
    /\ pd_ok s + pd_warn s + pd_crit s <= pd_total s
    /\ (pd_total s = pd_ok s + pd_warn s + pd_crit s
        <-> forallb (fun l => pd_bucketed (snd l)) (pd_records self) = true).
Proof.
  intros cfg r vd.
  destruct (run_checks_shape cfg (RaidChecker_new r vd)) as (Y & Z0 & _ & _ & E).
  rewrite E. clear E.
  destruct (frame_eq _ _ (check_hotspare_frame Y)) as (Z1 & _).
  rewrite <- Z1 in Z0. clear Z1. generalize dependent (check_hotspare Y). intros X Z0.
  destruct (counts_eq _ _ Z0) as (_ & V1 & V2 & V3 & _ & P1 & P2 & P3).
  generalize (counted_spec cfg X V1 V2 V3 P1 P2 P3).
  generalize (if ENABLE_LONG_OUTPUT cfg then build_long_output (build_perfdata X)
              else build_perfdata X).
  intros self (K1 & K2 & K3 & K4). cbv zeta.
  pose proof (filter_length_le (fun l => pd_bucketed (snd l)) (pd_records self)) as L.
  pose proof (filter_length_all (fun l => pd_bucketed (snd l)) (pd_records self)) as A.
  unfold len in *. repeat split; try assumption; try lia.
  - intros E. apply A. lia.
  - intros E. apply A in E. lia.
Qed.

(** ** The verdict *)

Lemma filter_head_find {A} (f : A -> bool) (l : list A) :
  find f l = match filter f l with x :: _ => Some x | [] => None end.
Proof.
  induction l as [|x l IH]; simpl; [reflexivity|]. now destruct (f x).
Qed.

Lemma kept_lines_index (v : string) (vd_lines : list VdLine) (l : VdLine) :
  v <> "" -> In l (kept_lines (Some v) vd_lines) -> vd_index l = v.
Proof.
  intros Hv. unfold kept_lines, vd_num_set, vd_num_str.
  destruct v; [contradiction|]. cbn [nonempty].
  intros H. apply filter_In in H. destruct H as [_ H]. now apply String.eqb_eq in H.
Qed.

Lemma find_In {A} (f : A -> bool) (l : list A) (x : A) :
  find f l = Some x -> In x l /\ f x = true.
Proof. apply find_some. Qed.

(** Exhibit the text before and the text after an occurrence. *)
Ltac mention a b :=
  exists a, b; rewrite ?append_assoc; reflexivity.

Section Verdict.

Variables (cfg : Config) (host : string) (vd_num : option string)
          (s : RaidStatus) (vd_lines : list VdLine).

Let kept := kept_lines vd_num vd_lines.
Let code := fst (evaluate cfg host vd_num s vd_lines).
Let msg := snd (evaluate cfg host vd_num s vd_lines).

Lemma evaluate_not_found :
  vd_num_set vd_num = true -> kept = [] ->
  evaluate cfg host vd_num s vd_lines =
  (STATE_CRITICAL, "RAID CRITICAL - Virtual Drive " ++ vd_num_str vd_num ++ " not found").
Proof.
  subst kept. unfold kept_lines, evaluate. intros -> ->. reflexivity.
Qed.

(** Past the not-found guard, [evaluate] is a cascade on the first
    non-optimal line and the two finding lists. *)
Lemma evaluate_cascade :
  vd_num_set vd_num = false \/ kept <> [] ->
  match find non_optimal kept with
  | Some l =>
      code = (if transient (vd_state l) then STATE_WARNING else STATE_CRITICAL)
      /\ mentions ("VD" ++ vd_index l ++ " ") msg
      /\ mentions (translate_status (vd_state l)) msg
      /\ (TERSE_OUTPUT cfg = false -> vd_state l = "Rbld" ->
          mentions (rebuild_status s) msg)
  | None =>
      if nonnil (critical_warnings s)
      then code = STATE_CRITICAL /\ mentions (join "; " (critical_warnings s)) msg
      else if nonnil (warnings s)
      then code = STATE_WARNING /\ mentions (join "; " (warnings s)) msg
      else code = STATE_OK
  end.
Proof.
  intros G. subst code msg. unfold evaluate. fold (kept_lines vd_num vd_lines). fold kept.
  assert (E : (vd_num_set vd_num && negb (nonnil kept)) = false).
  { destruct G as [->|G]; [reflexivity|]. destruct kept; [contradiction|].
    apply andb_false_r. }
  cbv zeta. rewrite E. rewrite filter_head_find. fold non_optimal.
  set (tail := suffixes cfg host s).
  destruct (filter non_optimal kept) as [|[[[ctrl_id vd_id] state] name] rest].
  - destruct (nonnil (critical_warnings s)); [|destruct (nonnil (warnings s))];
      cbn [fst snd]; try reflexivity; (split; [reflexivity|]);
      destruct (TERSE_OUTPUT cfg).
    + mention "RAID CRITICAL (MegaRAID) - " tail.
    + mention "RAID CRITICAL (MegaRAID) - VDs Optimal but: "
              (" (" ++ vd_info kept ++ ")" ++ tail).
    + mention "RAID WARNING (MegaRAID) - " tail.
    + mention "RAID WARNING (MegaRAID) - VDs Optimal but: "
              (" (" ++ vd_info kept ++ ")" ++ tail).
  - cbn [vd_state vd_index]. unfold transient.
    set (readable := translate_status state).
    destruct (String.eqb state "Rbld" || String.eqb state "Pdgd") eqn:T; cbn [fst snd].
    + split; [reflexivity|].
      destruct (TERSE_OUTPUT cfg).
      * split; [|split; [|discriminate]].
        -- mention "RAID WARNING (MegaRAID) - " (readable ++ tail).
        -- mention ("RAID WARNING (MegaRAID) - VD" ++ vd_id ++ " ") tail.
      * set (info := if nonempty (rebuild_status s)
                     then " [" ++ rebuild_status s ++ "]" else "").
        split; [|split].
        -- mention "RAID WARNING (MegaRAID) - "
                   ("(" ++ name ++ ") Status: " ++ readable ++ info ++ tail).
        -- mention ("RAID WARNING (MegaRAID) - VD" ++ vd_id ++ " (" ++ name
                    ++ ") Status: ") (info ++ tail).
        -- intros _ _. subst info. destruct (rebuild_status s) as [|c rs]; cbn [nonempty].
           ++ now exists "", (("RAID WARNING (MegaRAID) - VD" ++ vd_id ++ " (" ++ name
                               ++ ") Status: " ++ readable ++ "") ++ tail).
           ++ mention ("RAID WARNING (MegaRAID) - VD" ++ vd_id ++ " (" ++ name
                       ++ ") Status: " ++ readable ++ " [") ("]" ++ tail).
    + split; [reflexivity|].
      assert (N : state <> "Rbld").
      { intros ->. discriminate. }
      destruct (TERSE_OUTPUT cfg).
      * split; [|split; [|discriminate]].
        -- mention "RAID CRITICAL (MegaRAID) - " (readable ++ tail).
        -- mention ("RAID CRITICAL (MegaRAID) - VD" ++ vd_id ++ " ") tail.
      * split; [|split; [|intros _ R; contradiction]].
        -- mention "RAID CRITICAL (MegaRAID) - "
                   ("(" ++ name ++ ") Status: " ++ readable ++ tail).
        -- mention ("RAID CRITICAL (MegaRAID) - VD" ++ vd_id ++ " (" ++ name
                    ++ ") Status: ") tail.
Qed.

End Verdict.

(** C1 as the specification has it fails when a drive is asked for that the
    summary does not list: with healthy drives and no finding the cascade
    says OK, the plugin says CRITICAL. *)
Lemma C1_missing_drive_is_critical :
  let self := spare_checker (Some "5") in
  evaluate_status default_config self
  = (STATE_CRITICAL, "RAID CRITICAL - Virtual Drive 5 not found")
  /\ priority_verdict (kept_lines (vd_num self) (eval_lines self)) (status self)
     = STATE_OK.
Proof. vm_compute. split; reflexivity. Qed.

(** The rule on the lines that are not Optimal, read off the first of them
    when no Rebuilding or PartiallyDegraded line hides a worse one. *)
Lemma priority_verdict_first (kept : list VdLine) (s : RaidStatus) :
  transient_before_worse kept = false ->
  priority_verdict kept s =
  match find non_optimal kept with
  | Some l => if transient (vd_state l) then STATE_WARNING else STATE_CRITICAL
  | None =>
      if nonnil (critical_warnings s) then STATE_CRITICAL
      else if nonnil (warnings s) then STATE_WARNING
      else STATE_OK
  end.
Proof.
  unfold priority_verdict, transient_before_worse. rewrite filter_head_find.
  destruct (filter non_optimal kept) as [|l others]; [reflexivity|].
  cbn [nonnil forallb]. destruct (transient (vd_state l)); [|reflexivity].
  cbn [andb]. intros H. apply negb_false_iff in H. now rewrite H.
Qed.

(** C1, amended. When no drive is asked for, or the summary lists the drive
    asked for, the verdict follows the first matching rule: if a kept drive
    is not Optimal, WARNING when the states that are not Optimal are
    Rebuilding or PartiallyDegraded and CRITICAL when one of them is another
    state, and the message names the first such drive and its state; else any
    critical finding gives CRITICAL with all critical findings joined; else
    any warning gives WARNING with all warnings joined; else OK.  Runs in
    which a Rebuilding or PartiallyDegraded drive is listed before a drive in
    another state that is not Optimal are left aside. *)
Theorem C1_verdict_priority :
  forall (cfg : Config) (self : RaidChecker),
    let kept := kept_lines (vd_num self) (eval_lines self) in
    let code := fst (evaluate_status cfg self) in
    let msg := snd (evaluate_status cfg self) in
    vd_num_set (vd_num self) = false \/ kept <> [] ->
    transient_before_worse kept = false ->
    code = priority_verdict kept (status self)
    /\ match find non_optimal kept with
       | Some l =>
           mentions ("VD" ++ vd_index l ++ " ") msg
           /\ mentions (translate_status (vd_state l)) msg
       | None =>
           if nonnil (critical_warnings (status self))
           then mentions (join "; " (critical_warnings (status self))) msg
           else if nonnil (warnings (status self))
           then mentions (join "; " (warnings (status self))) msg
           else True
       end.
Proof.
  intros cfg self kept code msg G T.
  pose proof (evaluate_cascade cfg (host (runner self)) (vd_num self) (status self)
                (eval_lines self) G) as C.
  fold kept in C. rewrite (priority_verdict_first _ _ T).
  subst code msg. unfold evaluate_status. fold (eval_lines self).
  destruct (find non_optimal kept) as [l|].
  - destruct C as (C1 & C2 & C3 & _). auto.
  - destruct (nonnil (critical_warnings (status self)));
      [|destruct (nonnil (warnings (status self)))]; intuition.
Qed.

Lemma C1_verdict_priority_witness :
  let self := rebuild_checker default_config None in
  (vd_num_set (vd_num self) = false
   /\ transient_before_worse (kept_lines (vd_num self) (eval_lines self)) = false)
  /\ priority_verdict (kept_lines (vd_num self) (eval_lines self)) (status self)
     = STATE_WARNING
  /\ fst (evaluate_status default_config self) = STATE_WARNING.
Proof.
  cbv zeta.
  assert (H : vd_num_set (vd_num (rebuild_checker default_config None)) = false)
    by (vm_compute; reflexivity).
  assert (T : transient_before_worse
                (kept_lines (vd_num (rebuild_checker default_config None))
                   (eval_lines (rebuild_checker default_config None))) = false)
    by (vm_compute; reflexivity).
  assert (P : priority_verdict
                (kept_lines (vd_num (rebuild_checker default_config None))
                   (eval_lines (rebuild_checker default_config None)))
                (status (rebuild_checker default_config None)) = STATE_WARNING)
    by (vm_compute; reflexivity).
  split; [split; [exact H | exact T]|]. split; [exact P|].
  pose proof (C1_verdict_priority default_config
                (rebuild_checker default_config None)) as W.
  cbv zeta in W. specialize (W (or_introl H) T). destruct W as [W _].
  rewrite W. exact P.
Defined.

(** Where the plugin and the rule part.  A rebuilding drive is listed before
    an offline one: the counting step puts one drive in the critical bucket
    and the rule says CRITICAL, while [evaluate_status] reads the first line
    that is not Optimal and no other, and says WARNING. *)
Lemma rebuilding_drive_hides_offline_drive :
  map vd_state (eval_lines mixed_checker) = ["Rbld"; "OfLn"]
  /\ vd_crit (status mixed_checker) = 1
  /\ priority_verdict (kept_lines (vd_num mixed_checker) (eval_lines mixed_checker))
                      (status mixed_checker) = STATE_CRITICAL
  /\ evaluate_status default_config mixed_checker
     = (STATE_WARNING, "RAID WARNING (MegaRAID) - VD0 Rebuilding").
Proof. vm_compute. repeat split. Qed.

(** ** Token tests are case-insensitive prefix tests *)

Lemma eat_starts_ci (s : string) :
  forall c : Re.cursor,
    found_cursor (Re.eat Re.I s c) = starts_ci s (Re.rest c).
Proof.
  unfold starts_ci.
  induction s as [|a s IH]; intros c; simpl; [reflexivity|].
  destruct (Re.rest c) as [|b t] eqn:R; simpl; [reflexivity|].
  unfold Re.chr_eq. simpl.
  destruct (Ascii.eqb (lower_char a) (lower_char b)); simpl; [|reflexivity].
  rewrite IH. reflexivity.
Qed.

Lemma alts_match (l : list string) (t : string) :
  l <> [] ->
  found (Re.match_ (Re.Group 1 (Pat.alts l)) t Re.I) = existsb (fun p => starts_ci p t) l.
Proof.
  intros N. unfold Re.match_. cbn [Re.run].
  set (c0 := Re.Cursor 0 None t []).
  assert (K : forall (k : Re.cursor -> option Re.cursor),
             (forall c, k c <> None) ->
             match Re.run Re.I (Pat.alts l) c0 k with Some _ => true | None => false end
             = existsb (fun p => starts_ci p t) l).
  { induction l as [|p l IH]; [contradiction|]. intros k Hk.
    destruct l as [|q l].
    - cbn [Pat.alts Re.run existsb]. rewrite orb_false_r.
      pose proof (eat_starts_ci p c0) as E. change (Re.rest c0) with t in E.
      rewrite <- E. unfold found_cursor.
      destruct (Re.eat Re.I p c0) as [c'|]; [|reflexivity].
      specialize (Hk c'). destruct (k c'); [reflexivity | contradiction].
    - change (Pat.alts (p :: q :: l)) with (Re.Alt (Re.Lit p) (Pat.alts (q :: l))).
      cbn [Re.run]. change (existsb (fun p => starts_ci p t) (p :: q :: l))
        with (starts_ci p t || existsb (fun p => starts_ci p t) (q :: l)).
      pose proof (eat_starts_ci p c0) as E. change (Re.rest c0) with t in E.
      rewrite <- E. unfold found_cursor.
      destruct (Re.eat Re.I p c0) as [c'|].
      + specialize (Hk c'). destruct (k c'); [reflexivity | contradiction].
      + cbn [orb]. apply IH; [discriminate | exact Hk]. }
  specialize (K (fun c' => Some (Re.set_cap 1 (Re.pos c0) (Re.pos c') c'))).
  cbv beta in K. rewrite <- K by (intros c; discriminate).
  destruct (Re.run Re.I (Pat.alts l) c0 _); reflexivity.
Qed.

(** ** translate_status *)

(** X1. Translating twice is translating once: no readable name is itself an
    abbreviation of something else, and an unknown token passes through. *)
Theorem translate_status_idempotent (status : string) :
  translate_status (translate_status status) = translate_status status.
Proof.
  unfold translate_status at 2 3. unfold translations. cbn [dict_get].
  repeat match goal with
         | |- context [String.eqb ?k status] =>
             destruct (String.eqb k status) eqn:?; [reflexivity|]
         end.
  unfold translate_status, translations. cbn [dict_get].
  repeat match goal with
         | H : String.eqb ?k status = false |- _ => rewrite H; clear H
         end.
  reflexivity.
Qed.

(** A token is shown unchanged exactly when the table does not rename it. *)
Lemma translate_status_optimal (status : string) :
  translate_status status = "Optimal" <-> status = "Optl" \/ status = "Optimal".
Proof.
  split.
  - unfold translate_status, translations. cbn [dict_get].
    destruct (String.eqb "Optl" status) eqn:E; [apply String.eqb_eq in E; auto|].
    repeat match goal with
           | |- context [String.eqb ?k status] =>
               destruct (String.eqb k status) eqn:?; [discriminate|]
           end.
    auto.
  - intros [->| ->]; reflexivity.
Qed.

(** ** What the verdict depends on *)

(** X2. [evaluate_status] never answers UNKNOWN, and the label that opens the
    message is the label of the exit code. *)
Theorem evaluate_status_label (cfg : Config) (self : RaidChecker) :
  let code := fst (evaluate_status cfg self) in
  let msg := snd (evaluate_status cfg self) in
  code = STATE_OK /\ startswith "RAID OK" msg = true
  \/ code = STATE_WARNING /\ startswith "RAID WARNING" msg = true
  \/ code = STATE_CRITICAL /\ startswith "RAID CRITICAL" msg = true.
Proof.
  unfold evaluate_status, evaluate. cbv zeta.
  generalize (suffixes cfg (host (runner self)) (status self)). intros tail.
  destruct (vd_num_set (vd_num self) && _); [right; right; split; reflexivity|].
  destruct (filter _ _) as [|[[[ctrl_id vd_id] state] name] rest].
  - destruct (nonnil (critical_warnings (status self)));
      [|destruct (nonnil (warnings (status self)))];
      destruct (TERSE_OUTPUT cfg); try destruct (vd_num_set (vd_num self));
      cbn [fst snd]; auto.
  - destruct (String.eqb state "Rbld" || String.eqb state "Pdgd");
      destruct (TERSE_OUTPUT cfg); cbn [fst snd]; auto.
Qed.

(** The exit code looks at the drive asked for, the parsed lines and the two
    finding lists, and at nothing else: not at the switches, the host, the
    metrics or the status strings. *)
Lemma evaluate_code_depends (cfg1 cfg2 : Config) (host1 host2 : string)
      (vd : option string) (s1 s2 : RaidStatus) (vd_lines : list VdLine) :
  warnings s1 = warnings s2 ->
  critical_warnings s1 = critical_warnings s2 ->
  fst (evaluate cfg1 host1 vd s1 vd_lines) = fst (evaluate cfg2 host2 vd s2 vd_lines).
Proof.
  intros W C. unfold evaluate. cbv zeta. rewrite W, C.
  destruct (vd_num_set vd && _); [reflexivity|].
  destruct (filter _ _) as [|[[[ctrl_id vd_id] state] name] rest].
  - destruct (nonnil (critical_warnings s2)); [|destruct (nonnil (warnings s2))];
      reflexivity.
  - destruct (String.eqb state "Rbld" || String.eqb state "Pdgd"); reflexivity.
Qed.

(** [run_checks] for every setting of the switches at once. *)
Lemma run_checks_shape_all (self : RaidChecker) :
  exists Y,
    counts (status Y) = counts (status self)
    /\ vd_num Y = vd_num self
    /\ host (runner Y) = host (runner self)
    /\ forall cfg,
         run_checks cfg self =
         if ENABLE_LONG_OUTPUT cfg
         then build_long_output (build_perfdata (check_hotspare Y))
         else build_perfdata (check_hotspare Y).
Proof.
  unfold run_checks. do 2 step_call. cbv zeta.
  match goal with
  | |- context [check_hotspare ?x] =>
      match x with
      | context [check_controller_health ?y] =>
          exists x; assert (F : frame x = frame y)
      end
  end.
  { now rewrite check_patrol_read_frame,
      check_drive_temperature_frame, check_ssd_wear_frame,
      check_consistency_check_frame, check_rebuild_progress_frame,
      check_smart_data_frame, check_predictive_failure_frame,
      check_foreign_config_frame, check_battery_frame,
      check_controller_health_frame. }
  destruct (frame_eq _ _ F) as (F1 & _ & _ & F4 & F5 & _).
  rewrite F1, F4, F5. clear F F1 F4 F5.
  split; [|split; [|split; [|reflexivity]]]; simpl in *; congruence.
Qed.

(** X3. The presentation switches never change the exit code of a run: metrics,
    detail block, host suffix and phrasing are layered on the message only. *)
Theorem exit_code_ignores_switches (cfg1 cfg2 : Config) (self : RaidChecker) :
  fst (check_all cfg1 self) = fst (check_all cfg2 self).
Proof.
  unfold check_all.
  destruct (run_checks_shape_all self) as (Y & _ & _ & _ & E).
  rewrite (E cfg1), (E cfg2). clear E.
  generalize (build_perfdata (check_hotspare Y)). intros X.
  assert (K : forall cfg,
             fst (evaluate_status cfg
                    (if ENABLE_LONG_OUTPUT cfg then build_long_output X else X))
             = fst (evaluate_status cfg1 X)).
  { intros cfg. destruct (ENABLE_LONG_OUTPUT cfg).
    - destruct (build_long_output_only_long X) as ([lo E] & V & _ & N & R).
      unfold evaluate_status. rewrite V, N, R, E.
      apply evaluate_code_depends; reflexivity.
    - unfold evaluate_status. apply evaluate_code_depends; reflexivity. }
  now rewrite (K cfg1), (K cfg2).
Qed.

(** ** The fallback chain of the power-protection check *)

Lemma ahead_0 (self : RaidChecker) : ahead 0 self = self.
Proof.
  destruct self as [[h u t c th w n] v s vo po]. unfold ahead. simpl.
  now rewrite Nat.add_0_r.
Qed.

Lemma ahead_ahead (i j : nat) (self : RaidChecker) :
  ahead j (ahead i self) = ahead (i + j) self.
Proof. unfold ahead. simpl. now rewrite Nat.add_assoc. Qed.

Lemma call_ahead (self : RaidChecker) (cmd : string) :
  snd (call self cmd) = ahead 1 self.
Proof.
  unfold call, run, ahead.
  destruct (world (runner self) (calls (runner self)) _); simpl;
    now rewrite Nat.add_1_r.
Qed.

(** Commands are issued in list order, one process each; a command is issued
    only when every earlier one found nothing, and what the last one issued
    finds is the result. *)
Lemma first_hit_spec strategies :
  forall self : RaidChecker,
    match fst (first_hit strategies self) with
    | Some m =>
        exists k, (k < List.length strategies)%nat
                  /\ snd (first_hit strategies self) = ahead (S k) self
                  /\ finds strategies self k = Some m
                  /\ forall j, (j < k)%nat -> finds strategies self j = None
    | None =>
        snd (first_hit strategies self) = ahead (List.length strategies) self
        /\ forall j, finds strategies self j = None
    end.
Proof.
  induction strategies as [|[cmd extract] others IH]; intros self.
  - simpl. split; [now rewrite ahead_0|]. intros j. unfold finds.
    now destruct j.
  - cbn [first_hit].
    pose proof (call_ahead self cmd) as A.
    assert (R : fst (call self cmd) = reply (ahead 0 self) cmd)
      by (now rewrite ahead_0).
    destruct (call self cmd) as [output self1]. cbn [fst snd] in A, R. subst self1.
    destruct (extract output) as [m|] eqn:X.
    + cbn [fst snd]. exists 0%nat. repeat split.
      * simpl. apply Nat.lt_0_succ.
      * unfold finds. cbn [nth_error]. now rewrite <- R.
      * intros j Hj. inversion Hj.
    + specialize (IH (ahead 1 self)).
      assert (S1 : forall j, finds others (ahead 1 self) j
                             = finds ((cmd, extract) :: others) self (S j)).
      { intros j. unfold finds. cbn [nth_error].
        destruct (nth_error others j) as [[c e]|]; [|reflexivity].
        now rewrite ahead_ahead. }
      assert (S0 : finds ((cmd, extract) :: others) self 0 = None).
      { unfold finds. cbn [nth_error]. now rewrite <- R. }
      destruct (fst (first_hit others (ahead 1 self))) as [m|].
      * destruct IH as (k & Hk & Hs & Hf & Hn). exists (S k). repeat split.
        -- simpl. now apply -> Nat.succ_lt_mono.
        -- rewrite Hs. now rewrite ahead_ahead.
        -- now rewrite <- S1.
        -- intros [|j] Hj; [exact S0|]. rewrite <- S1. apply Hn.
           now apply Nat.succ_lt_mono.
      * destruct IH as (Hs & Hn). split.
        -- rewrite Hs. now rewrite ahead_ahead.
        -- intros [|j]; [exact S0|]. rewrite <- S1. apply Hn.
Qed.

(** X4. For one family (cachevault or battery): status, basic, all and the
    controller summary are asked in this order, each only when the ones
    before it gave no State/Status token, and the token of the last command
    asked is the one the check goes by. *)
Theorem find_state_order (family : string) (embedded : Re.regex) (self : RaidChecker) :
  let strategies := state_strategies family embedded (controller (runner self)) in
  match fst (find_state family embedded self) with
  | Some m =>
      exists k, (k < 4)%nat
                /\ snd (find_state family embedded self) = ahead (S k) self
                /\ finds strategies self k = Some m
                /\ forall j, (j < k)%nat -> finds strategies self j = None
  | None =>
      snd (find_state family embedded self) = ahead 4 self
      /\ forall j, finds strategies self j = None
  end.
Proof.
  cbv zeta. rewrite find_state_first_hit.
  apply (first_hit_spec (state_strategies family embedded (controller (runner self)))).
Qed.

(** A reply that says "unsupported command", in any letter case, yields no
    token however many State fields it carries. *)
Lemma unsupported_is_absent (output : string) :
  contains "unsupported command" (lower output) = true ->
  supported_state output = None.
Proof. unfold supported_state. now intros ->. Qed.

(** ** Which tokens count as good *)

Lemma optimal_good_test (t : string) :
  found (Re.match_ Pat.optimal_good t Re.I) = starts_ci "Optimal" t || starts_ci "Good" t.
Proof.
  unfold Pat.optimal_good. rewrite alts_match by discriminate.
  cbn [existsb]. now rewrite orb_false_r.
Qed.

Lemma optimal_good_ok_test (t : string) :
  found (Re.match_ Pat.optimal_good_ok t Re.I)
  = starts_ci "Optimal" t || starts_ci "Good" t || starts_ci "OK" t.
Proof.
  unfold Pat.optimal_good_ok. rewrite alts_match by discriminate.
  cbn [existsb]. now rewrite orb_false_r, orb_assoc.
Qed.

Lemma optimal_ok_good_test (t : string) :
  found (Re.match_ Pat.optimal_ok_good t Re.I)
  = starts_ci "Optimal" t || starts_ci "OK" t || starts_ci "Good" t.
Proof.
  unfold Pat.optimal_ok_good. rewrite alts_match by discriminate.
  cbn [existsb]. now rewrite orb_false_r, orb_assoc.
Qed.

Lemma ok_optimal_good_test (t : string) :
  found (Re.match_ Pat.ok_optimal_good t Re.I)
  = starts_ci "OK" t || starts_ci "Optimal" t || starts_ci "Good" t.
Proof.
  unfold Pat.ok_optimal_good. rewrite alts_match by discriminate.
  cbn [existsb]. now rewrite orb_false_r, orb_assoc.
Qed.

(** X5. The controller token is good when it begins, whatever the letter case,
    with Optimal, OK or Good; any other token is reported once, as a
    WARNING, and a summary without the field changes nothing. *)
Theorem check_controller_health_spec (self : RaidChecker) :
  let output := reply self ("/c" ++ controller (runner self) ++ " show") in
  status (check_controller_health self) =
  match Re.search Pat.controller_status output Re.I with
  | None => status self
  | Some m =>
      let t := Re.group m 1 in
      if starts_ci "Optimal" t || starts_ci "OK" t || starts_ci "Good" t
      then set_ctrl_status "Controller:OK" (status self)
      else warn ("Controller status: " ++ t)
                (set_ctrl_status ("Controller:" ++ t) (status self))
  end.
Proof.
  unfold check_controller_health, reply. cbv zeta. rewrite <- append_assoc.
  step_call. cbn [fst].
  destruct (Re.search Pat.controller_status out Re.I) as [m|]; [|assumption].
  rewrite optimal_ok_good_test.
  destruct (starts_ci "Optimal" (Re.group m 1) || starts_ci "OK" (Re.group m 1)
            || starts_ci "Good" (Re.group m 1));
    cbn [upd status]; now rewrite H.
Qed.

(** X6. The cache-vault half: a token is good when it begins with Optimal or
    Good, letter case ignored; every other token, OK included, is reported
    once as a WARNING. *)
Theorem check_cachevault_spec (self : RaidChecker) :
  status (check_cachevault self) =
  match fst (find_state "cachevault" Pat.cachevault_state self) with
  | None => status self
  | Some m =>
      let t := Re.group m 1 in
      if starts_ci "Optimal" t || starts_ci "Good" t
      then set_battery_status "CV:OK" (status self)
      else warn ("CacheVault " ++ t) (set_battery_status ("CV:" ++ t) (status self))
  end.
Proof.
  unfold check_cachevault. step_find. cbn [fst].
  destruct m as [m|]; [|assumption]. cbv zeta.
  rewrite optimal_good_test.
  destruct (starts_ci "Optimal" (Re.group m 1) || starts_ci "Good" (Re.group m 1));
    cbn [negb upd status]; now rewrite H.
Qed.

(** X7. The battery half: a token is good when it begins with Optimal, Good or
    OK, letter case ignored; every other token is reported once as a
    WARNING.  Its label is appended to what the cache-vault half left. *)
Theorem check_bbu_spec (self : RaidChecker) :
  status (check_bbu self) =
  match fst (find_state "battery" Pat.bbu_state self) with
  | None => status self
  | Some m =>
      let t := Re.group m 1 in
      let good := starts_ci "Optimal" t || starts_ci "Good" t || starts_ci "OK" t in
      let label := if good then "BBU:OK" else "BBU:" ++ t in
      let s := if good then status self else warn ("BBU " ++ t) (status self) in
      set_battery_status
        (if nonempty (battery_status s) then battery_status s ++ " " ++ label else label)
        s
  end.
Proof.
  unfold check_bbu. step_find. cbn [fst].
  destruct m as [m|]; [|assumption]. cbv zeta.
  rewrite optimal_good_ok_test.
  destruct (starts_ci "Optimal" (Re.group m 1) || starts_ci "Good" (Re.group m 1)
            || starts_ci "OK" (Re.group m 1));
    rewrite <- H; cbn [upd status warn set_warnings battery_status];
    destruct (nonempty (battery_status (status self0))); reflexivity.
Qed.

Lemma present_yes_test (t : string) :
  found (Re.match_ Pat.present_yes t Re.I) = starts_ci "Present" t || starts_ci "Yes" t.
Proof.
  unfold Pat.present_yes. rewrite alts_match by discriminate.
  cbn [existsb]. now rewrite orb_false_r.
Qed.

Lemma absent_no_test (t : string) :
  found (Re.match_ Pat.absent_no t Re.I) = starts_ci "Absent" t || starts_ci "No" t.
Proof.
  unfold Pat.absent_no. rewrite alts_match by discriminate.
  cbn [existsb]. now rewrite orb_false_r.
Qed.

(** X8. The energy-pack fallback.  With a battery status already known it does
    nothing and starts no process.  Otherwise it goes by the presence token:
    Present or Yes with no status, status 0 or a good status is OK; Present
    with any other status, and Absent or No, give one WARNING; a status
    without a presence token is ignored. *)
Theorem check_energy_pack_spec (self : RaidChecker) :
  let output := reply self ("controller show all -i " ++ controller (runner self)) in
  let present_val :=
    match Re.search Pat.energy_pack output Re.I with
    | Some m => Re.group m 1 | None => "" end in
  let status_val :=
    match Re.search Pat.energy_pack_status output Re.I with
    | Some m => Re.group m 1 | None => "" end in
  let s := status self in
  (nonempty (battery_status s) = true -> check_energy_pack self = self)
  /\ (nonempty (battery_status s) = false ->
      status (check_energy_pack self) =
      if starts_ci "Present" present_val || starts_ci "Yes" present_val then
        if negb (nonempty status_val) || String.eqb status_val "0"
           || (starts_ci "OK" status_val || starts_ci "Optimal" status_val
               || starts_ci "Good" status_val)
        then set_battery_status "Cache:OK Battery:OK" s
        else warn ("Energy Pack status " ++ status_val)
               (set_battery_status
                  ("Cache:EP" ++ status_val ++ " Battery:EP" ++ status_val) s)
      else if starts_ci "Absent" present_val || starts_ci "No" present_val
      then warn "Energy Pack Absent" s
      else s).
Proof.
  cbv zeta. unfold check_energy_pack, reply. split; intros B; rewrite B; cbn [negb].
  - reflexivity.
  - step_call. cbn [fst]. cbv zeta.
    rewrite present_yes_test, absent_no_test, ok_optimal_good_test.
    set (present_val := match Re.search Pat.energy_pack out Re.I with
                        | Some m => Re.group m 1 | None => "" end).
    set (status_val := match Re.search Pat.energy_pack_status out Re.I with
                       | Some m => Re.group m 1 | None => "" end).
    destruct (nonempty present_val || nonempty status_val) eqn:G.
    + destruct (starts_ci "Present" present_val || starts_ci "Yes" present_val).
      * destruct (negb (nonempty status_val) || String.eqb status_val "0"
                  || (starts_ci "OK" status_val || starts_ci "Optimal" status_val
                      || starts_ci "Good" status_val));
          cbn [upd status]; now rewrite H.
      * destruct (starts_ci "Absent" present_val || starts_ci "No" present_val);
          cbn [upd status]; now rewrite H.
    + apply orb_false_iff in G. destruct G as [G _].
      destruct present_val; [|discriminate]. cbn. exact H.
Qed.

(** ** The power-protection check as a whole *)







(** Where the two families part: the battery takes OK for good, the cache
    vault does not.  A cache vault that reports the state OK is labelled
    CV:OK and reported as a WARNING all the same. *)
Lemma cachevault_ok_is_a_warning :
  let self := fresh_checker cachevault_ok_script in
  battery_status (status (check_battery self)) = "CV:OK"
  /\ warnings (status (check_battery self)) = ["CacheVault OK"].
Proof. vm_compute. split; reflexivity. Qed.

(** ** Findings are only ever appended *)

Lemma extends_refl (s : RaidStatus) : extends s s.
Proof. split; exists []; now rewrite app_nil_r. Qed.

Lemma extends_trans (a b c : RaidStatus) : extends a b -> extends b c -> extends a c.
Proof.
  intros [[w1 W1] [c1 C1]] [[w2 W2] [c2 C2]]. split.
  - exists (app w1 w2). now rewrite W2, W1, app_assoc.
  - exists (app c1 c2). now rewrite C2, C1, app_assoc.
Qed.

Lemma fold_left_extends {A} (f : RaidStatus -> A -> RaidStatus) :
  (forall s x, extends s (f s x)) ->
  forall l s, extends s (fold_left f l s).
Proof.
  intros H l. induction l as [|x l IH]; intros s; simpl; [apply extends_refl|].
  eapply extends_trans; [apply H | apply IH].
Qed.

(** Read both finding lists off a report built with the setters. *)
Ltac read_findings :=
  cbn [upd status warnings critical_warnings warn crit set_warnings
       set_critical_warnings set_ctrl_status set_battery_status set_hotspare_status
       set_rebuild_status set_cc_status set_patrol_status set_spare_count
       set_max_temp set_media_errors set_other_errors] in *.

Ltac appended :=
  first [ exists []; now rewrite app_nil_r
        | eexists; rewrite <- ?app_assoc; reflexivity ].

Ltac extends_check :=
  branches; unfold extends, grows; read_findings;
  repeat match goal with
         | H : status _ = status _ |- _ => rewrite H; clear H
         end;
  split; appended.

Lemma check_controller_health_extends self :
  extends (status self) (status (check_controller_health self)).
Proof. unfold check_controller_health. extends_check. Qed.

Lemma check_battery_extends self :
  extends (status self) (status (check_battery self)).
Proof.
  unfold check_battery.
  assert (A : extends (status self) (status (check_cachevault self))).
  { unfold check_cachevault. step_find. extends_check. }
  assert (B : forall x, extends (status x) (status (check_bbu x))).
  { intros x. unfold check_bbu. step_find. extends_check. }
  assert (C : forall x, extends (status x) (status (check_energy_pack x))).
  { intros x. unfold check_energy_pack. extends_check. }
  eapply extends_trans; [exact A|]. eapply extends_trans; [apply B | apply C].
Qed.

Lemma check_foreign_config_extends self :
  extends (status self) (status (check_foreign_config self)).
Proof. unfold check_foreign_config. extends_check. Qed.

Lemma check_predictive_failure_extends self :
  extends (status self) (status (check_predictive_failure self)).
Proof. unfold check_predictive_failure. extends_check. Qed.

Lemma check_smart_data_extends self :
  extends (status self) (status (check_smart_data self)).
Proof.
  unfold check_smart_data. step_call. cbn [upd status]. rewrite H.
  apply fold_left_extends. intros s x.
  unfold smart_drive, smart_bbm, smart_shield, smart_other, smart_media.
  branches; unfold extends, grows; read_findings; split; appended.
Qed.

Lemma check_rebuild_progress_extends self :
  extends (status self) (status (check_rebuild_progress self)).
Proof. unfold check_rebuild_progress. extends_check. Qed.

Lemma check_consistency_check_extends self :
  extends (status self) (status (check_consistency_check self)).
Proof. unfold check_consistency_check. extends_check. Qed.

Lemma check_ssd_wear_extends self :
  extends (status self) (status (check_ssd_wear self)).
Proof.
  unfold check_ssd_wear. step_call. cbn [upd status]. rewrite H.
  apply fold_left_extends. intros s x. unfold ssd_drive.
  branches; unfold extends, grows; read_findings; split; appended.
Qed.

Lemma check_drive_temperature_extends self :
  extends (status self) (status (check_drive_temperature self)).
Proof.
  unfold check_drive_temperature. step_call. cbn [upd status]. rewrite H.
  apply fold_left_extends. intros s x. unfold temp_reading.
  branches; unfold extends, grows; read_findings; split; appended.
Qed.

Lemma check_patrol_read_extends self :
  extends (status self) (status (check_patrol_read self)).
Proof. unfold check_patrol_read. extends_check. Qed.

Lemma check_hotspare_extends self :
  extends (status self) (status (check_hotspare self)).
Proof. unfold check_hotspare. extends_check. Qed.

Lemma beside_counts_eq (s t : RaidStatus) :
  beside_counts s = beside_counts t ->
  spare_count s = spare_count t /\ hotspare_status s = hotspare_status t
  /\ warnings s = warnings t /\ critical_warnings s = critical_warnings t
  /\ long_output s = long_output t.
Proof.
  unfold beside_counts. intros H. injection H. intros. repeat split; assumption.
Qed.

Lemma count_drives_beside (vd_lines pd_lines : list (string * string)) (s : RaidStatus) :
  beside_counts (count_drives vd_lines pd_lines s) = beside_counts s.
Proof.
  unfold count_drives. cbv zeta.
  rewrite (fold_left_keeps beside_counts).
  - change (beside_counts (fold_left count_vd vd_lines (set_vd_total (len vd_lines) s))
            = beside_counts (set_vd_total (len vd_lines) s)).
    apply (fold_left_keeps beside_counts).
    intros s0 [i st]. unfold count_vd.
    destruct (String.eqb st "Optl");
      [|destruct (String.eqb st "Rbld" || String.eqb st "Pdgd")]; reflexivity.
  - intros s0 [i st]. unfold count_pd.
    destruct (String.eqb st "Onln"); [reflexivity|].
    destruct (String.eqb st "Rbld"); [reflexivity|].
    destruct (String.eqb st "Offln" || String.eqb st "Failed"
              || String.eqb st "UBad" || String.eqb st "Msng"); reflexivity.
Qed.

Lemma build_perfdata_frame (self : RaidChecker) :
  beside_counts (status (build_perfdata self)) = beside_counts (status self)
  /\ vd_output (build_perfdata self) = vd_output self
  /\ pd_output (build_perfdata self) = pd_output self
  /\ vd_num (build_perfdata self) = vd_num self
  /\ runner (build_perfdata self) = runner self.
Proof.
  split; [|repeat split].
  apply (count_drives_beside (vd_records self) (pd_records self) (status self)).
Qed.

(** X13. The counting step writes the eight drive counters and nothing else: no
    finding, no metric, no status string, neither summary. *)
Theorem counting_step_frame (self : RaidChecker) :
  beside_counts (status (build_perfdata self)) = beside_counts (status self)
  /\ vd_output (build_perfdata self) = vd_output self
  /\ pd_output (build_perfdata self) = pd_output self
  /\ vd_num (build_perfdata self) = vd_num self
  /\ runner (build_perfdata self) = runner self.
Proof.
  unfold build_perfdata. cbv zeta. cbn [upd status vd_output pd_output vd_num runner].
  split; [|repeat split].
  fold (vd_records self) (pd_records self).
  apply count_drives_beside.
Qed.

(** X12. No step of a run removes or rewrites a finding: at the end both lists
    are what they were at the start with something appended. *)
Theorem findings_append_only (cfg : Config) (self : RaidChecker) :
  extends (status self) (status (run_checks cfg self)).
Proof.
  unfold run_checks. do 2 step_call. cbv zeta.
  assert (L : forall X, extends (status self) (status X) ->
                        extends (status self)
                          (status (if ENABLE_LONG_OUTPUT cfg
                                   then build_long_output (build_perfdata X)
                                   else build_perfdata X))).
  { intros X E.
    destruct (build_perfdata_frame X) as (B & _).
    apply beside_counts_eq in B. destruct B as (_ & _ & W & C & _).
    assert (P : extends (status self) (status (build_perfdata X))).
    { destruct E as [[w Ew] [c Ec]]. split; [exists w | exists c]; congruence. }
    destruct (ENABLE_LONG_OUTPUT cfg); [|exact P].
    destruct (build_long_output_only_long (build_perfdata X)) as ([lo E'] & _).
    rewrite E'. exact P. }
  apply L. clear L.
  eapply extends_trans; [|apply check_hotspare_extends].
  eapply extends_trans; [|apply check_patrol_read_extends].
  eapply extends_trans; [|apply check_drive_temperature_extends].
  eapply extends_trans; [|apply check_ssd_wear_extends].
  eapply extends_trans; [|apply check_consistency_check_extends].
  eapply extends_trans; [|apply check_rebuild_progress_extends].
  eapply extends_trans; [|apply check_smart_data_extends].
  eapply extends_trans; [|apply check_predictive_failure_extends].
  eapply extends_trans; [|apply check_foreign_config_extends].
  eapply extends_trans; [|apply check_battery_extends].
  eapply extends_trans; [|apply check_controller_health_extends].
  cbn [status set_pd_output set_vd_output] in *.
  replace (status self1) with (status self) by congruence. apply extends_refl.
Qed.

Ltac same_criticals :=
  branches; read_findings;
  repeat match goal with
         | H : status _ = status _ |- _ => rewrite H; clear H
         end;
  reflexivity.

(** X10. CRITICAL findings can only come from the three per-drive checks (error
    counters, SSD wear, temperature): controller, power protection, foreign
    configuration, predictive failure, rebuild, consistency check, patrol
    read and hot spares never record one. *)
Theorem critical_only_from_drive_checks (self : RaidChecker) :
  let same f := critical_warnings (status (f self)) = critical_warnings (status self) in
  same check_controller_health /\ same check_battery /\ same check_foreign_config
  /\ same check_predictive_failure /\ same check_rebuild_progress
  /\ same check_consistency_check /\ same check_patrol_read /\ same check_hotspare.
Proof.
  cbv zeta.
  assert (A : forall x, critical_warnings (status (check_cachevault x))
                        = critical_warnings (status x)).
  { intros x. unfold check_cachevault. step_find. same_criticals. }
  assert (B : forall x, critical_warnings (status (check_bbu x))
                        = critical_warnings (status x)).
  { intros x. unfold check_bbu. step_find. same_criticals. }
  assert (C : forall x, critical_warnings (status (check_energy_pack x))
                        = critical_warnings (status x)).
  { intros x. unfold check_energy_pack. same_criticals. }
  repeat split.
  - unfold check_controller_health. same_criticals.
  - unfold check_battery. now rewrite C, B, A.
  - unfold check_foreign_config. same_criticals.
  - unfold check_predictive_failure. same_criticals.
  - unfold check_rebuild_progress. same_criticals.
  - unfold check_consistency_check. same_criticals.
  - unfold check_patrol_read. same_criticals.
  - unfold check_hotspare. same_criticals.
Qed.

Ltac only_string v :=
  branches; cbn [upd status];
  repeat match goal with
         | H : status _ = status _ |- _ => rewrite H; clear H
         end;
  first [ eexists; reflexivity
        | exists v; match goal with |- ?s = _ => destruct s; reflexivity end ].

(** X11. Rebuild progress, consistency check and patrol read are informational:
    each writes its own status string and nothing else, so none of them can
    change the verdict. *)
Theorem informational_checks (self : RaidChecker) :
  (exists v, status (check_rebuild_progress self) = set_rebuild_status v (status self))
  /\ (exists v, status (check_consistency_check self) = set_cc_status v (status self))
  /\ (exists v, status (check_patrol_read self) = set_patrol_status v (status self)).
Proof.
  split; [|split].
  - unfold check_rebuild_progress. only_string (rebuild_status (status self)).
  - unfold check_consistency_check. only_string (cc_status (status self)).
  - unfold check_patrol_read. only_string (patrol_status (status self)).
Qed.

(** ** Hot spares *)

Lemma len_nonneg {A} (l : list A) : 0 <= len l.
Proof. unfold len. lia. Qed.

Lemma check_hotspare_spec (self : RaidChecker) :
  let pd := pd_output self in
  let seen := if pd_total (status self) =? 0 then slot_lines pd
              else pd_total (status self) in
  status (check_hotspare self) =
  let s := set_spare_count (spare_tokens pd) (status self) in
  if 0 <? spare_tokens pd
  then set_hotspare_status ("Spares:" ++ str_of_Z (spare_tokens pd)) s
  else if 0 <? ugood_tokens pd
  then set_hotspare_status ("UGood:" ++ str_of_Z (ugood_tokens pd)) s
  else set_warnings
         (app (warnings s)
              (finding_if (2 <? seen) "No hot spares configured"))
         (set_hotspare_status "Spares:0" s).
Proof.
  cbv zeta. unfold check_hotspare. cbv zeta.
  fold (spare_tokens (pd_output self)) (ugood_tokens (pd_output self))
       (slot_lines (pd_output self)).
  destruct (0 <? spare_tokens (pd_output self)); [reflexivity|].
  destruct (0 <? ugood_tokens (pd_output self)); [reflexivity|].
  destruct (pd_total (status self) =? 0); cbn [negb];
    match goal with |- context [2 <? ?x] => destruct (2 <? x) end;
    cbn [finding_if upd status]; unfold warn; cbn; rewrite ?app_nil_r;
    try reflexivity; now destruct (status self).
Qed.

Lemma finish_frame (cfg : Config) (X : RaidChecker) :
  spare_count (status (finish cfg X)) = spare_count (status X)
  /\ hotspare_status (status (finish cfg X)) = hotspare_status (status X)
  /\ warnings (status (finish cfg X)) = warnings (status X)
  /\ critical_warnings (status (finish cfg X)) = critical_warnings (status X)
  /\ pd_output (finish cfg X) = pd_output X
  /\ vd_output (finish cfg X) = vd_output X.
Proof.
  unfold finish.
  destruct (build_perfdata_frame X) as (B & V & P & _).
  apply beside_counts_eq in B. destruct B as (B1 & B2 & B3 & B4 & _).
  destruct (ENABLE_LONG_OUTPUT cfg).
  - destruct (build_long_output_only_long (build_perfdata X))
      as ([lo E] & V' & P' & _).
    rewrite P', P, V', V, E. cbn. repeat split; assumption.
  - repeat split; assumption.
Qed.

(** X15. In a run the hot-spare check comes before the counting step, so it never
    sees a drive total and counts the enclosure:slot lines itself.  The
    spares metric is the number of DHS/GHS tokens; UGood tokens only replace
    the status string and hold back the WARNING, which is the last one
    recorded when there are no spares, no UGood drive and more than two
    drive lines. *)
Theorem hotspare_in_a_run (cfg : Config) (r : ESXiStorCLIRunner) (vd : option string) :
  let self := run_checks cfg (RaidChecker_new r vd) in
  let s := status self in
  let pd := pd_output self in
  spare_count s = spare_tokens pd
  /\ hotspare_status s =
     (if 0 <? spare_tokens pd then "Spares:" ++ str_of_Z (spare_tokens pd)
      else if 0 <? ugood_tokens pd then "UGood:" ++ str_of_Z (ugood_tokens pd)
      else "Spares:0")
  /\ exists before,
       warnings s =
       app before
           (finding_if ((spare_tokens pd =? 0) && (ugood_tokens pd =? 0)
                        && (2 <? slot_lines pd))
                       "No hot spares configured").
Proof.
  destruct (run_checks_shape cfg (RaidChecker_new r vd)) as (Y & Z0 & _ & _ & E).
  cbv zeta. rewrite E. clear E. fold (finish cfg (check_hotspare Y)).
  destruct (counts_eq _ _ Z0) as (_ & _ & _ & _ & T & _). cbn in T.
  destruct (finish_frame cfg (check_hotspare Y)) as (SC & H & W & _ & P & _).
  assert (PY : pd_output (check_hotspare Y) = pd_output Y).
  { destruct (frame_eq _ _ (check_hotspare_frame Y)) as (_ & _ & PY & _). exact PY. }
  rewrite P, PY. clear P PY.
  pose proof (check_hotspare_spec Y) as S. cbv zeta in S. rewrite T in S.
  change (0 =? 0) with true in S. cbv iota in S.
  generalize dependent (finish cfg (check_hotspare Y)). intros Fin SC H W.
  generalize dependent (check_hotspare Y). intros X -> -> -> ->.
  clear.
  pose proof (len_nonneg (Re.findall1 Pat.dhs_ghs (pd_output Y) Re.I)) as N1.
  pose proof (len_nonneg (Re.findall0 Pat.ugood (pd_output Y) Re.I)) as N2.
  fold (spare_tokens (pd_output Y)) in N1. fold (ugood_tokens (pd_output Y)) in N2.
  destruct (0 <? spare_tokens (pd_output Y)) eqn:A.
  - apply Z.ltb_lt in A.
    replace (spare_tokens (pd_output Y) =? 0) with false
      by (symmetry; apply Z.eqb_neq; lia).
    repeat split. exists (warnings (status Y)). cbn. now rewrite app_nil_r.
  - apply Z.ltb_ge in A.
    replace (spare_tokens (pd_output Y) =? 0) with true
      by (symmetry; apply Z.eqb_eq; lia).
    destruct (0 <? ugood_tokens (pd_output Y)) eqn:B.
    + apply Z.ltb_lt in B.
      replace (ugood_tokens (pd_output Y) =? 0) with false
        by (symmetry; apply Z.eqb_neq; lia).
      repeat split. exists (warnings (status Y)). cbn. now rewrite app_nil_r.
    + apply Z.ltb_ge in B.
      replace (ugood_tokens (pd_output Y) =? 0) with true
        by (symmetry; apply Z.eqb_eq; lia).
      repeat split. now exists (warnings (status Y)).
Qed.

(** ** Only the text of a reply matters *)

Lemma with_calls_calls (r : ESXiStorCLIRunner) : with_calls (calls r) r = r.
Proof. now destruct r. Qed.

Lemma call_sim (a b : RaidChecker) (cmd : string) :
  sim a b ->
  fst (call a cmd) = fst (call b cmd) /\ sim (snd (call a cmd)) (snd (call b cmd)).
Proof.
  intros (S & V & P & N & H & C & K & T).
  pose proof (T (calls (runner a)) cmd) as E.
  rewrite K in E at 2. rewrite !with_calls_calls in E.
  unfold call. unfold run in *.
  destruct (world (runner a) (calls (runner a)) _);
    destruct (world (runner b) (calls (runner b)) _);
    cbn in *; (split; [exact E|]); unfold sim, same_text; cbn;
    repeat split; try assumption; try congruence; try (intros n c; apply (T n c)).
Qed.

(** Replace what the second checker holds by what the first one holds. *)
Ltac align :=
  repeat match goal with
         | H : sim ?a ?b |- _ =>
             let S := fresh "S" in let V := fresh "V" in let P := fresh "P" in
             let N := fresh "N" in let R := fresh "R" in
             pose proof H as (S & V & P & N & R);
             let Hh := fresh "Hh" in let Hc := fresh "Hc" in
             pose proof R as (Hh & Hc & _);
             rewrite <- ?S, <- ?V, <- ?P, <- ?N, <- ?Hh, <- ?Hc;
             clear S V P N R Hh Hc;
             revert H
         end;
  intros.

Ltac sim_call :=
  match goal with
  | H : sim ?a ?b |- context [call ?a ?c] =>
      let E := fresh "E" in let K := fresh "K" in
      destruct (call_sim a b c H) as [E K];
      destruct (call a c) as [? ?]; destruct (call b c) as [? ?];
      cbn [fst snd] in E, K; subst
  end.

Lemma upd_sim (f : RaidStatus -> RaidStatus) (a b : RaidChecker) :
  sim a b -> sim (upd f a) (upd f b).
Proof.
  intros (S & V & P & N & R). unfold sim. cbn. rewrite S.
  split; [reflexivity | split; [|split; [|split]]]; assumption.
Qed.

(** One step of [branches]. *)
Ltac branch_step :=
  match goal with
  | |- context [match ?x with _ => _ end] =>
      lazymatch x with
      | context [match _ with _ => _ end] => fail
      | _ => destruct x eqn:?
      end
  end.

Ltac sim_find_with lem :=
  match goal with
  | H : sim ?a ?b |- context [find_state ?f ?e ?a] =>
      let E := fresh "E" in let K := fresh "K" in
      destruct (lem f e a b H) as [E K];
      destruct (find_state f e a) as [? ?]; destruct (find_state f e b) as [? ?];
      cbn [fst snd] in E, K; subst
  end.

(** Close a leaf: the same update on both sides of simulating checkers. *)
Ltac sim_leaf :=
  first [ assumption
        | unfold sim in *;
          cbn [upd status vd_output pd_output vd_num runner] in *;
          intuition congruence ].

Ltac sim_steps :=
  repeat first [ progress align | sim_call | branch_step
               | progress (cbn [upd status vd_output pd_output vd_num fst snd]) ].

Ltac sim_auto := sim_steps; sim_leaf.

Lemma check_controller_health_sim a b :
  sim a b -> sim (check_controller_health a) (check_controller_health b).
Proof.
  intros H. unfold check_controller_health. sim_auto.
Qed.

Lemma first_hit_sim strategies :
  forall a b, sim a b ->
    fst (first_hit strategies a) = fst (first_hit strategies b)
    /\ sim (snd (first_hit strategies a)) (snd (first_hit strategies b)).
Proof.
  induction strategies as [|[cmd extract] others IH]; intros a b H; cbn [first_hit].
  - now split.
  - sim_call.
    match goal with |- context [extract ?o] => destruct (extract o) end;
      [now split | now apply IH].
Qed.

Lemma find_state_sim family embedded a b :
  sim a b ->
  fst (find_state family embedded a) = fst (find_state family embedded b)
  /\ sim (snd (find_state family embedded a)) (snd (find_state family embedded b)).
Proof.
  intros H. rewrite !find_state_first_hit.
  replace (controller (runner b)) with (controller (runner a))
    by (destruct H as (_ & _ & _ & _ & _ & C & _); exact C).
  now apply first_hit_sim.
Qed.

Lemma check_battery_sim a b : sim a b -> sim (check_battery a) (check_battery b).
Proof.
  intros H. unfold check_battery.
  assert (A : forall a b, sim a b -> sim (check_cachevault a) (check_cachevault b)).
  { clear. intros a b H. unfold check_cachevault.
    sim_find_with find_state_sim. sim_auto. }
  assert (B : forall a b, sim a b -> sim (check_bbu a) (check_bbu b)).
  { clear. intros a b H. unfold check_bbu.
    sim_find_with find_state_sim. sim_auto. }
  assert (C : forall a b, sim a b -> sim (check_energy_pack a) (check_energy_pack b)).
  { clear. intros a b H. unfold check_energy_pack. sim_auto. }
  auto.
Qed.

Lemma check_foreign_config_sim a b :
  sim a b -> sim (check_foreign_config a) (check_foreign_config b).
Proof. intros H. unfold check_foreign_config. sim_auto. Qed.

Lemma check_predictive_failure_sim a b :
  sim a b -> sim (check_predictive_failure a) (check_predictive_failure b).
Proof. intros H. unfold check_predictive_failure. sim_auto. Qed.

Lemma check_smart_data_sim a b :
  sim a b -> sim (check_smart_data a) (check_smart_data b).
Proof. intros H. unfold check_smart_data. sim_auto. Qed.

Lemma check_rebuild_progress_sim a b :
  sim a b -> sim (check_rebuild_progress a) (check_rebuild_progress b).
Proof. intros H. unfold check_rebuild_progress. sim_auto. Qed.

Lemma check_consistency_check_sim a b :
  sim a b -> sim (check_consistency_check a) (check_consistency_check b).
Proof. intros H. unfold check_consistency_check. sim_auto. Qed.

Lemma check_ssd_wear_sim a b :
  sim a b -> sim (check_ssd_wear a) (check_ssd_wear b).
Proof. intros H. unfold check_ssd_wear. sim_auto. Qed.

Lemma check_drive_temperature_sim a b :
  sim a b -> sim (check_drive_temperature a) (check_drive_temperature b).
Proof. intros H. unfold check_drive_temperature. sim_auto. Qed.

Lemma check_patrol_read_sim a b :
  sim a b -> sim (check_patrol_read a) (check_patrol_read b).
Proof. intros H. unfold check_patrol_read. sim_auto. Qed.

Lemma check_hotspare_sim a b :
  sim a b -> sim (check_hotspare a) (check_hotspare b).
Proof. intros H. unfold check_hotspare. sim_auto. Qed.

Lemma set_vd_output_sim v a b : sim a b -> sim (set_vd_output v a) (set_vd_output v b).
Proof. intros H. sim_leaf. Qed.

Lemma set_pd_output_sim v a b : sim a b -> sim (set_pd_output v a) (set_pd_output v b).
Proof. intros H. sim_leaf. Qed.

Lemma build_perfdata_sim a b : sim a b -> sim (build_perfdata a) (build_perfdata b).
Proof. intros H. unfold build_perfdata. cbv zeta. align. sim_leaf. Qed.

Lemma build_long_output_sim a b :
  sim a b -> sim (build_long_output a) (build_long_output b).
Proof.
  intros H. unfold build_long_output.
  replace (vd_output b) with (vd_output a) by (now destruct H as (_ & V & _)).
  cbv zeta. now apply upd_sim.
Qed.

Lemma run_checks_sim cfg a b : sim a b -> sim (run_checks cfg a) (run_checks cfg b).
Proof.
  intros H. unfold run_checks. align. sim_call.
  match goal with
  | K : sim ?x ?y |- context [set_vd_output ?v ?x] =>
      pose proof (set_vd_output_sim v x y K)
  end.
  sim_call.
  match goal with
  | K : sim ?x ?y |- context [set_pd_output ?v ?x] =>
      pose proof (set_pd_output_sim v x y K) as S0
  end.
  cbv zeta.
  assert (F : forall x y, sim x y ->
                sim (if ENABLE_LONG_OUTPUT cfg then build_long_output x else x)
                    (if ENABLE_LONG_OUTPUT cfg then build_long_output y else y)).
  { intros x y K'. destruct (ENABLE_LONG_OUTPUT cfg);
      [now apply build_long_output_sim | exact K']. }
  apply F, build_perfdata_sim, check_hotspare_sim, check_patrol_read_sim,
    check_drive_temperature_sim, check_ssd_wear_sim, check_consistency_check_sim,
    check_rebuild_progress_sim, check_smart_data_sim, check_predictive_failure_sim,
    check_foreign_config_sim, check_battery_sim, check_controller_health_sim.
  exact S0.
Qed.

(** X16. A run goes by the text of the replies and by nothing else the runner
    holds: two runs on the same host and controller that read the same text
    for every command give the same exit code and the same message, whatever
    the exit codes of the commands, the stream the text came on, the user
    and the timeout. *)
Theorem only_reply_text_matters (cfg : Config) (a b : RaidChecker) :
  sim a b -> check_all cfg a = check_all cfg b.
Proof.
  intros H. unfold check_all. apply (run_checks_sim cfg) in H.
  generalize dependent (run_checks cfg b). generalize (run_checks cfg a).
  intros x y (S & V & P & N & Hh & _). unfold evaluate_status.
  now rewrite S, V, N, Hh.
Qed.

Lemma scripted_vs_failing (script : list (string * string)) (vd : option string) :
  sim (RaidChecker_new (scripted_runner script) vd)
      (RaidChecker_new (failing_runner script) vd).
Proof.
  unfold sim, same_text. cbn. repeat split.
  intros n cmd. unfold run. cbn. apply append_nil_r.
Qed.

Lemma only_reply_text_matters_witness :
  sim (RaidChecker_new (scripted_runner rebuild_script) (Some "1"))
      (RaidChecker_new (failing_runner rebuild_script) (Some "1"))
  /\ check_all verbose_config (RaidChecker_new (scripted_runner rebuild_script) (Some "1"))
     = check_all verbose_config (RaidChecker_new (failing_runner rebuild_script) (Some "1")).
Proof.
  split; [apply scripted_vs_failing|].
  apply (only_reply_text_matters verbose_config _ _
           (scripted_vs_failing rebuild_script (Some "1"))).
Defined.

(** C8. A run of the plugin goes by the host, the controller, the drive asked
    for, the switches and the text of the replies, and by nothing else: two
    runs that read the same text for every command at every turn return the
    same exit code and the same message, whichever world printed the text
    and whatever the user and the timeout.  Every run starts from a new
    runner and a new report, so nothing is carried over from an earlier
    run. *)
Theorem C8_evaluation_is_deterministic :
  forall (cfg : Config) (w1 w2 : World) (host user1 user2 : string)
         (vd : option string) (controller : string) (t1 t2 : Z),
    let r1 := ESXiStorCLIRunner_new w1 host user1 t1 controller in
    let r2 := ESXiStorCLIRunner_new w2 host user2 t2 controller in
    (forall n cmd, fst (fst (run (with_calls n r1) cmd))
                   = fst (fst (run (with_calls n r2) cmd))) ->
    plugin cfg w1 host user1 vd controller t1 = plugin cfg w2 host user2 vd controller t2
    /\ calls r1 = 0%nat /\ calls r2 = 0%nat
    /\ status (RaidChecker_new r1 vd) = RaidStatus_new
    /\ status (RaidChecker_new r2 vd) = RaidStatus_new.
Proof.
  intros cfg w1 w2 host user1 user2 vd controller t1 t2 r1 r2 T.
  split; [|repeat split].
  unfold plugin, check_all. fold r1 r2.
  assert (S : sim (RaidChecker_new r1 vd) (RaidChecker_new r2 vd)).
  { unfold sim, same_text. cbn [RaidChecker_new status vd_output pd_output vd_num runner].
    repeat split. exact T. }
  apply (run_checks_sim cfg) in S.
  generalize dependent (run_checks cfg (RaidChecker_new r2 vd)).
  generalize (run_checks cfg (RaidChecker_new r1 vd)).
  intros x y (S & V & P & N & H & _). unfold evaluate_status.
  now rewrite S, V, N, H.
Qed.

Lemma C8_evaluation_is_deterministic_witness :
  plugin verbose_config (scripted rebuild_script) "10.10.10.20" "nagios" (Some "1") "0" 60
  = plugin verbose_config (failing_world rebuild_script) "10.10.10.20" "root" (Some "1")
           "0" 5.
Proof.
  refine (proj1 (C8_evaluation_is_deterministic verbose_config (scripted rebuild_script)
                   (failing_world rebuild_script) "10.10.10.20" "nagios" "root"
                   (Some "1") "0" 60 5 _)).
  intros n cmd. unfold run. cbn. apply append_nil_r.
Defined.

(** ** The matcher finds a match exactly when there is one *)

Section Matcher.
Import Re Den.

Variable fl : flags.

Lemma at_pl_pl (c : cursor) : at_pl (pl c) (caps c) = c.
Proof. now destruct c. Qed.

Lemma recap_at_pl (c : cursor) (cs : list (nat * (nat * nat))) :
  recap cs c = at_pl (pl c) cs.
Proof. reflexivity. Qed.

Lemma eat_recap (s : string) :
  forall (c : cursor) cs,
    eat fl s (recap cs c) = option_map (recap cs) (eat fl s c).
Proof.
  induction s as [|a s IH]; intros c cs; simpl; [reflexivity|].
  destruct (rest c) as [|b t]; [reflexivity|].
  destruct (chr_eq fl a b); [|reflexivity].
  apply (IH (advance c b t) cs).
Qed.

Lemma eat_pl (s : string) (c c' : cursor) :
  eat fl s c = Some c' -> option_map pl (eat fl s (at_pl (pl c) [])) = Some (pl c').
Proof.
  intros E. rewrite <- recap_at_pl, eat_recap, E. reflexivity.
Qed.

Lemma eat_of_pl (s : string) (c : cursor) (q : place) :
  option_map pl (eat fl s (at_pl (pl c) [])) = Some q ->
  exists c', eat fl s c = Some c' /\ pl c' = q.
Proof.
  rewrite <- recap_at_pl, eat_recap.
  destruct (eat fl s c) as [c'|]; [|discriminate].
  cbn. intros E. injection E as <-. now exists c'.
Qed.

Lemma eat_length (s : string) :
  forall c c', eat fl s c = Some c' ->
    (pos c <= pos c')%nat
    /\ (pos c' + String.length (rest c') = pos c + String.length (rest c))%nat.
Proof.
  induction s as [|a s IH]; intros c c'; simpl.
  - intros E. injection E as <-. lia.
  - destruct (rest c) as [|b t] eqn:R; [discriminate|].
    destruct (chr_eq fl a b); [|discriminate].
    intros E. apply IH in E. cbn in E. simpl. lia.
Qed.

(** Every step keeps the end of the text where it is and never moves back. *)
Lemma den_length (r : regex) :
  forall p q, den fl r p q ->
    (offset p <= offset q)%nat
    /\ (offset q + String.length (after q) = offset p + String.length (after p))%nat.
Proof.
  induction r as [| s | | cl | | | r1 IH1 r2 IH2 | r1 IH1 r2 IH2 | g r IH | n r IH | r IH];
    intros p q; cbn [den].
  - intros ->. lia.
  - intros E. destruct (eat fl s (at_pl p [])) as [c'|] eqn:Ec; [|discriminate].
    cbn in E. injection E as <-. apply eat_length in Ec.
    destruct p as [[n pv] s0]. cbn in *. exact Ec.
  - destruct p as [[n pv] [|a t]]; cbn; [contradiction|]. intros [_ ->]. cbn. lia.
  - destruct p as [[n pv] [|a t]]; cbn; [contradiction|]. intros [_ ->]. cbn. lia.
  - intros [_ ->]. lia.
  - intros [_ ->]. lia.
  - intros (m & D1 & D2). apply IH1 in D1. apply IH2 in D2. lia.
  - intros [D|D]; [now apply IH1 | now apply IH2].
  - intros D. induction D as [x | x y z [D L] _ IHD]; [lia|].
    apply IH in D. lia.
  - apply IH.
  - intros [-> _]. lia.
Qed.

(** A result of the matcher is a result of the continuation at a place the
    pattern leads to. *)
Lemma run_sound (r : regex) :
  forall c k x, run fl r c k = Some x ->
    exists c', den fl r (pl c) (pl c') /\ k c' = Some x.
Proof.
  induction r as [| s | | cl | | | r1 IH1 r2 IH2 | r1 IH1 r2 IH2 | g r IH | n r IH | r IH];
    intros c k x; cbn [run den].
  - intros E. now exists c.
  - destruct (eat fl s c) as [c'|] eqn:Ec; [|discriminate].
    intros E. exists c'. split; [now apply eat_pl | exact E].
  - destruct c as [n pv [|a t] cs]; cbn; [discriminate|].
    match goal with
    | |- (if ?b then _ else _) = _ -> _ => destruct b eqn:D; [|discriminate]
    end.
    intros E. exists (advance (Cursor n pv (String a t) cs) a t). now repeat split.
  - destruct c as [n pv [|a t] cs]; cbn; [discriminate|].
    destruct (in_class cl a) eqn:D; [|discriminate].
    intros E. exists (advance (Cursor n pv (String a t) cs) a t). now repeat split.
  - destruct (at_bol fl c) eqn:B; [|discriminate]. intros E. exists c.
    repeat split; [|exact E]. now destruct c.
  - destruct (at_eol fl c) eqn:B; [|discriminate]. intros E. exists c.
    repeat split; [|exact E]. now destruct c.
  - intros E. apply IH1 in E. destruct E as (c1 & D1 & E).
    apply IH2 in E. destruct E as (c2 & D2 & E).
    exists c2. split; [now exists (pl c1) | exact E].
  - destruct (run fl r1 c k) as [y|] eqn:E1.
    + intros E. injection E as ->. apply IH1 in E1. destruct E1 as (c' & D & E).
      exists c'. split; [now left | exact E].
    + intros E. apply IH2 in E. destruct E as (c' & D & E).
      exists c'. split; [now right | exact E].
  - generalize (String.length (rest c)). intros fuel. revert c x.
    induction fuel as [|fuel IHf]; intros c x.
    + intros E. exists c. split; [apply rt1n_refl | exact E].
    + assert (Step : forall y,
                 run fl r c (fun c' => if (pos c <? pos c')%nat
                                       then (fix loop (n : nat) (c : cursor) {struct n} :=
                                               match n with
                                               | O => k c
                                               | S n' =>
                                                   if g then
                                                     match run fl r c (fun c' => if (pos c <? pos c')%nat then loop n' c' else None) with
                                                     | Some x => Some x
                                                     | None => k c
                                                     end
                                                   else
                                                     match k c with
                                                     | Some x => Some x
                                                     | None => run fl r c (fun c' => if (pos c <? pos c')%nat then loop n' c' else None)
                                                     end
                                               end) fuel c'
                                       else None) = Some y ->
                 exists c', clos_refl_trans_1n place
                              (fun a b => den fl r a b /\ (offset a < offset b)%nat)
                              (pl c) (pl c') /\ k c' = Some y).
      { intros y E. apply IH in E. destruct E as (c1 & D & E).
        destruct (pos c <? pos c1)%nat eqn:L; [|discriminate].
        apply Nat.ltb_lt in L. apply IHf in E. destruct E as (c' & D' & E).
        exists c'. split; [|exact E].
        apply rt1n_trans with (pl c1); [|exact D']. split; [exact D | exact L]. }
      destruct g.
      * match goal with
        | |- match ?m with _ => _ end = _ -> _ => destruct m as [y|] eqn:E1
        end.
        -- intros E. injection E as ->. now apply Step.
        -- intros E. exists c. split; [apply rt1n_refl | exact E].
      * destruct (k c) as [y|] eqn:E1.
        -- intros E. injection E as ->. exists c. split; [apply rt1n_refl | exact E1].
        -- intros E. now apply Step.
  - intros E. apply IH in E. destruct E as (c' & D & E).
    exists (set_cap n (pos c) (pos c') c'). split; [exact D | exact E].
  - destruct (run fl r c (fun c' => Some c')) as [y|] eqn:E1; [|discriminate].
    intros E. exists c. split; [|exact E]. split; [reflexivity|].
    apply IH in E1. destruct E1 as (c' & D & _). now exists (pl c').
Qed.

(** If the pattern leads somewhere the continuation accepts, whatever the
    groups, the matcher does not fail. *)
Lemma run_complete (r : regex) :
  forall c k q, den fl r (pl c) q ->
    (forall c', pl c' = q -> k c' <> None) ->
    run fl r c k <> None.
Proof.
  induction r as [| s | | cl | | | r1 IH1 r2 IH2 | r1 IH1 r2 IH2 | g r IH | n r IH | r IH];
    intros c k q; cbn [run den].
  - intros -> K. now apply K.
  - intros D K. apply eat_of_pl in D. destruct D as (c' & -> & P). now apply K.
  - destruct c as [n pv [|a t] cs]; cbn; [contradiction|].
    intros [-> ->] K. now apply K.
  - destruct c as [n pv [|a t] cs]; cbn; [contradiction|].
    intros [-> ->] K. now apply K.
  - intros [B ->] K. replace (at_bol fl c) with true by (now destruct c). now apply K.
  - intros [B ->] K. replace (at_eol fl c) with true by (now destruct c). now apply K.
  - intros (m & D1 & D2) K. apply (IH1 c _ m D1).
    intros c1 <-. now apply (IH2 c1 k q).
  - intros [D|D] K.
    + pose proof (IH1 c k q D K) as N.
      destruct (run fl r1 c k); [discriminate | contradiction].
    + destruct (run fl r1 c k); [discriminate | now apply (IH2 c k q)].
  - intros D K.
    assert (G : forall fuel c,
               (String.length (rest c) <= fuel)%nat ->
               clos_refl_trans_1n place
                 (fun a b => den fl r a b /\ (offset a < offset b)%nat) (pl c) q ->
               (fix loop (n : nat) (c : cursor) {struct n} :=
                  match n with
                  | O => k c
                  | S n' =>
                      if g then
                        match run fl r c (fun c' => if (pos c <? pos c')%nat then loop n' c' else None) with
                        | Some x => Some x
                        | None => k c
                        end
                      else
                        match k c with
                        | Some x => Some x
                        | None => run fl r c (fun c' => if (pos c <? pos c')%nat then loop n' c' else None)
                        end
                  end) fuel c <> None).
    { clear c D. induction fuel as [|fuel IHf]; intros c L D.
      - inversion D as [|y z [D1 L1] D2]; subst.
        + now apply K.
        + apply den_length in D1. cbn in D1, L1. unfold offset, after in *. cbn in *. lia.
      - assert (Step : forall m, den fl r (pl c) m -> (offset (pl c) < offset m)%nat ->
                  clos_refl_trans_1n place
                    (fun a b => den fl r a b /\ (offset a < offset b)%nat) m q ->
                  run fl r c (fun c' => if (pos c <? pos c')%nat
                     then (fix loop (n : nat) (c : cursor) {struct n} :=
                             match n with
                             | O => k c
                             | S n' =>
                                 if g then
                                   match run fl r c (fun c' => if (pos c <? pos c')%nat then loop n' c' else None) with
                                   | Some x => Some x
                                   | None => k c
                                   end
                                 else
                                   match k c with
                                   | Some x => Some x
                                   | None => run fl r c (fun c' => if (pos c <? pos c')%nat then loop n' c' else None)
                                   end
                             end) fuel c'
                     else None) <> None).
        { intros m D1 L1 D2. apply (IH c _ m D1). intros c1 <-.
          replace (pos c <? pos c1)%nat with true
            by (symmetry; apply Nat.ltb_lt; exact L1).
          apply IHf; [|exact D2].
          apply den_length in D1. unfold offset, after in *. cbn in *. lia. }
        inversion D as [|y z [D1 L1] D2]; subst.
        + assert (Kc : k c <> None) by (now apply K).
          destruct g.
          * match goal with
            | |- match ?m with _ => _ end <> None => destruct m; [discriminate | exact Kc]
            end.
          * destruct (k c); [discriminate | contradiction].
        + pose proof (Step y D1 L1 D2) as N.
          destruct g.
          * match goal with
            | |- match ?m with _ => _ end <> None =>
                destruct m; [discriminate | contradiction]
            end.
          * destruct (k c); [discriminate | exact N]. }
    now apply G.
  - intros D K. apply (IH c _ q D). intros c' P. now apply K.
  - intros [-> (x & D)] K.
    assert (N : run fl r c (fun c' => Some c') <> None).
    { apply (IH c _ x D). discriminate. }
    destruct (run fl r c (fun c' => Some c')); [now apply K | contradiction].
Qed.

End Matcher.

(** ** The two readers of the virtual-drive summary *)

(** Wherever the pattern of [evaluate_status] matches, the pattern of
    [build_perfdata] matches too: it is the same pattern cut short after the
    state column, with the two numbers in one group. *)
Lemma eval_line_is_counted (p q : Den.place) :
  Den.den Re.M Pat.vd_eval_line p q -> exists q', Den.den Re.M Pat.vd_line p q'.
Proof.
  unfold Pat.vd_eval_line, Pat.vd_line, Re.plus, Re.star, Re.lazy.
  cbn [Re.seq Den.den].
  intros (m1 & B & m2 & (m3 & D1 & D1') & m4 & L & m5 & (m6 & D2 & D2') & m7
          & (m8 & S1 & S1') & m9 & R & m10 & NS & m11 & (m12 & S2 & S2')
          & m13 & (m14 & T & T') & _).
  exists m13. exists m1. split; [exact B|].
  exists m5. split.
  - exists m2. split; [now exists m3|].
    exists m4. split; [exact L|]. now exists m6.
  - exists m7. split; [now exists m8|].
    exists m9. split; [exact R|]. exists m10. split; [exact NS|].
    exists m11. split; [now exists m12|]. now exists m14.
Qed.

Section Included.
Import Re Den.

Variables (fl : flags) (r1 r2 : regex).
Hypothesis included : forall p q, den fl r2 p q -> exists q', den fl r1 p q'.

Lemma run_included (c : cursor) (k : cursor -> option cursor) :
  (forall c', k c' <> None) -> run fl r1 c k = None -> run fl r2 c k = None.
Proof.
  intros K N. destruct (run fl r2 c k) as [x|] eqn:E; [|reflexivity].
  apply run_sound in E. destruct E as (c' & D & _).
  apply included in D. destruct D as (q' & D).
  exfalso. apply (run_complete fl r1 c k q' D); [|exact N].
  intros c'' _. apply K.
Qed.

Lemma scan_included (text : string) :
  forall s p pv,
    scan fl r1 text p pv s false = None -> scan fl r2 text p pv s false = None.
Proof.
  assert (K : forall p (c' : cursor),
             (if false && (pos c' =? p)%nat then None else Some c') <> None)
    by discriminate.
  induction s as [|a s IH]; intros p pv; cbn [scan].
  - destruct (run fl r1 _ _) eqn:E1; [discriminate|]. intros _.
    match type of E1 with
    | run fl r1 ?c ?k = None => now rewrite (run_included c k (K p) E1)
    end.
  - destruct (run fl r1 _ _) eqn:E1; [discriminate|]. intros N.
    match type of E1 with
    | run fl r1 ?c ?k = None => rewrite (run_included c k (K p) E1)
    end.
    now apply IH.
Qed.

Lemma finditer_included (text : string) :
  finditer r1 text fl = [] -> finditer r2 text fl = [].
Proof.
  unfold finditer.
  replace (2 * String.length text + 2)%nat with (S (2 * String.length text + 1))
    by lia.
  cbn [iter].
  destruct (scan fl r1 text 0 None text false) eqn:E; [discriminate|]. intros _.
  now rewrite (scan_included text _ _ _ E).
Qed.

End Included.

(** If the counting step finds no virtual-drive line, [evaluate_status]
    finds none either. *)
Lemma no_record_no_line (self : RaidChecker) :
  vd_records self = [] -> eval_lines self = [].
Proof.
  unfold vd_records, eval_lines, Re.findall2, Re.findall4. intros E.
  apply map_eq_nil in E.
  now rewrite (finditer_included Re.M Pat.vd_line Pat.vd_eval_line
                 eval_line_is_counted _ E).
Qed.

Lemma run_checks_totals (cfg : Config) (r : ESXiStorCLIRunner) (vd : option string) :
  let self := run_checks cfg (RaidChecker_new r vd) in
  vd_total (status self) = len (vd_records self) /\ vd_num self = vd.
Proof.
  destruct (run_checks_shape cfg (RaidChecker_new r vd)) as (Y & Z0 & N & _ & E).
  cbv zeta. rewrite E. clear E. cbn in N.
  destruct (frame_eq _ _ (check_hotspare_frame Y)) as (Z1 & _ & _ & N1 & _).
  rewrite <- Z1 in Z0. rewrite <- N1 in N. clear Z1 N1.
  generalize dependent (check_hotspare Y). intros X Z0 N.
  destruct (counts_eq _ _ Z0) as (_ & V1 & V2 & V3 & _ & P1 & P2 & P3).
  destruct (counted_spec cfg X V1 V2 V3 P1 P2 P3) as (K & _).
  split; [exact K|].
  destruct (build_perfdata_frame X) as (_ & _ & _ & N2 & _).
  destruct (ENABLE_LONG_OUTPUT cfg); [|congruence].
  destruct (build_long_output_only_long (build_perfdata X)) as (_ & _ & _ & N3 & _).
  congruence.
Qed.

(** X17. When the counting step finds no virtual drive, no drive was asked for
    and no check recorded a finding, the run answers OK, with a drive total
    of zero: a summary that cannot be read counts as all drives optimal. *)
Theorem no_drive_is_ok (cfg : Config) (r : ESXiStorCLIRunner) (vd : option string) :
  let self := run_checks cfg (RaidChecker_new r vd) in
  vd_records self = [] ->
  vd_num_set vd = false ->
  warnings (status self) = [] ->
  critical_warnings (status self) = [] ->
  fst (check_all cfg (RaidChecker_new r vd)) = STATE_OK
  /\ vd_total (status self) = 0.
Proof.
  cbv zeta. intros R F W C.
  destruct (run_checks_totals cfg r vd) as (T & N). cbv zeta in T, N.
  split; [|now rewrite T, R].
  unfold check_all, evaluate_status.
  pose proof (no_record_no_line _ R) as L. unfold eval_lines in L. rewrite L, N.
  unfold evaluate. cbv zeta. rewrite F, W, C. cbn.
  destruct (TERSE_OUTPUT cfg); reflexivity.
Qed.

Lemma no_drive_is_ok_witness :
  (vd_records (silent_checker default_config) = []
   /\ vd_num_set None = false
   /\ warnings (status (silent_checker default_config)) = []
   /\ critical_warnings (status (silent_checker default_config)) = [])
  /\ fst (check_all default_config (RaidChecker_new (scripted_runner []) None))
     = STATE_OK.
Proof.
  assert (R : vd_records (silent_checker default_config) = [])
    by (vm_compute; reflexivity).
  assert (W : warnings (status (silent_checker default_config)) = [])
    by (vm_compute; reflexivity).
  assert (C : critical_warnings (status (silent_checker default_config)) = [])
    by (vm_compute; reflexivity).
  split; [repeat split; assumption|].
  pose proof (no_drive_is_ok default_config (scripted_runner []) None) as T.
  cbv zeta in T. exact (proj1 (T R eq_refl W C)).
Defined.

(** C9. A run in which the counting step parses no virtual-drive line, no
    drive is asked for and no check records a finding answers OK -- not
    UNKNOWN, not an error -- with a drive total of zero and a message that
    begins with the OK label: a summary that yields no drive counts as all
    drives optimal. *)
Theorem C9_no_drive_is_ok_verdict :
  forall (cfg : Config) (r : ESXiStorCLIRunner) (vd : option string),
    let self := run_checks cfg (RaidChecker_new r vd) in
    let verdict := check_all cfg (RaidChecker_new r vd) in
    vd_records self = [] ->
    vd_num_set vd = false ->
    warnings (status self) = [] ->
    critical_warnings (status self) = [] ->
    fst verdict = STATE_OK
    /\ fst verdict <> STATE_UNKNOWN
    /\ vd_total (status self) = 0
    /\ eval_lines self = []
    /\ exists rest, snd verdict = "RAID OK (MegaRAID)" ++ rest.
Proof.
  cbv zeta. intros cfg r vd R F W C.
  destruct (run_checks_totals cfg r vd) as (T & N). cbv zeta in T, N.
  pose proof (no_record_no_line _ R) as L.
  assert (E : exists rest,
             check_all cfg (RaidChecker_new r vd)
             = (STATE_OK, "RAID OK (MegaRAID)" ++ rest)).
  { unfold check_all, evaluate_status. unfold eval_lines in L. rewrite L, N.
    unfold evaluate. cbv zeta. rewrite F, W, C. cbn [filter andb nonnil].
    destruct (TERSE_OUTPUT cfg).
    - eexists. reflexivity.
    - eexists. rewrite !append_assoc. reflexivity. }
  destruct E as (rest & ->). cbn [fst snd].
  split; [reflexivity | split; [discriminate | split; [now rewrite T, R | split]]].
  - exact L.
  - now exists rest.
Qed.

Lemma C9_no_drive_is_ok_verdict_witness :
  (vd_records (silent_checker default_config) = []
   /\ vd_num_set None = false
   /\ warnings (status (silent_checker default_config)) = []
   /\ critical_warnings (status (silent_checker default_config)) = [])
  /\ fst (check_all default_config (RaidChecker_new (scripted_runner []) None))
     = STATE_OK
  /\ vd_total (status (silent_checker default_config)) = 0.
Proof.
  assert (R : vd_records (silent_checker default_config) = [])
    by (vm_compute; reflexivity).
  assert (W : warnings (status (silent_checker default_config)) = [])
    by (vm_compute; reflexivity).
  assert (C : critical_warnings (status (silent_checker default_config)) = [])
    by (vm_compute; reflexivity).
  split; [repeat split; assumption|].
  pose proof (C9_no_drive_is_ok_verdict default_config (scripted_runner []) None) as T.
  cbv zeta in T. destruct (T R eq_refl W C) as (K & _ & Z & _).
  split; [exact K | exact Z].
Defined.

(** ** Error behaviour *)

(** X18. When every command runs out of time the checker reads "Timeout after
    60s" as the reply to each of them, finds nothing in it, and answers OK:
    [check_all] itself never turns a transport failure into UNKNOWN. *)
Theorem timeouts_are_reported_ok (cfg : Config) (host user controller : string) :
  fst (check_all cfg
         (RaidChecker_new (ESXiStorCLIRunner_new timing_out host user 60 controller)
                          None))
  = STATE_OK.
Proof.
  destruct cfg as [[|] [|] [|] [|]]; vm_compute; reflexivity.
Qed.

(** ** The detail block *)

Lemma grows_refl {A} (l : list A) : grows l l.
Proof. exists []. now rewrite app_nil_r. Qed.

Lemma grows_app {A} (l l' : list A) (x : list A) : grows l l' -> grows l (app l' x).
Proof. intros [m ->]. exists (app m x). now rewrite app_assoc. Qed.

Lemma long_grows base s m : grows base (long_output s) -> grows base (long_output (long m s)).
Proof. intros G. cbn. now apply grows_app. Qed.

Lemma long_when_grows base s c m :
  grows base (long_output s) -> grows base (long_output (long_when c m s)).
Proof.
  intros G. unfold long_when. destruct (c s); [now apply long_grows | exact G].
Qed.

Lemma fold_long_grows {A} base (f : A -> string) (l : list A) :
  forall s, grows base (long_output s) ->
            grows base (long_output (fold_left (fun s x => long (f x) s) l s)).
Proof.
  induction l as [|x l IH]; intros s G; simpl; [exact G|].
  apply IH. now apply long_grows.
Qed.

(** X14. [build_long_output] writes the detail block and nothing else, and what
    it writes comes after what was there, beginning with the heading of the
    virtual-drive list. *)
Theorem detail_block_only (self : RaidChecker) :
  only_long (status self) (status (build_long_output self))
  /\ grows (app (long_output (status self)) ["--- Virtual Drives ---"])
           (long_output (status (build_long_output self)))
  /\ vd_output (build_long_output self) = vd_output self
  /\ pd_output (build_long_output self) = pd_output self
  /\ vd_num (build_long_output self) = vd_num self
  /\ runner (build_long_output self) = runner self.
Proof.
  destruct (build_long_output_only_long self) as (O & V & P & N & R).
  repeat split; try assumption.
  unfold build_long_output. cbn [upd status].
  repeat first [ apply grows_refl | apply long_when_grows | apply fold_long_grows
               | apply long_grows ].
Qed.

(** ** A drive asked for *)

Lemma join_mentions (sep x : string) (l : list string) :
  In x l -> mentions x (join sep l).
Proof.
  unfold join. induction l as [|y l IH]; [contradiction|].
  intros [->|H].
  - destruct l as [|z l]; cbn [String.concat]; [apply mentions_refl|].
    apply (mentions_here "").
  - destruct l as [|z l]; [contradiction|].
    change (String.concat sep (y :: z :: l)) with (y ++ sep ++ String.concat sep (z :: l)).
    apply mentions_app_r, mentions_app_r, IH, H.
Qed.

(** The detail block has a line for the rebuild whenever one is under way. *)
Lemma build_long_output_rebuild (X : RaidChecker) :
  nonempty (rebuild_status (status X)) = true ->
  rebuild_status (status (build_long_output X)) = rebuild_status (status X)
  /\ In ("Rebuild: " ++ rebuild_status (status X))
        (long_output (status (build_long_output X))).
Proof.
  intros NE. split.
  { destruct (build_long_output_only_long X) as ([lo E] & _). now rewrite E. }
  unfold build_long_output. cbn [upd status].
  match goal with
  | |- In _ (long_output (long_when ?c9 ?l9 (long_when ?c8 ?l8 (long_when ?c7 ?l7
                            (long_when ?c ?m ?s5))))) =>
      set (S5 := s5);
      assert (O : only_long (status X) S5)
        by (subst S5;
            repeat first [ apply long_when_only_long | apply long_only_long
                         | apply fold_long_only_long ];
            exists (long_output (status X)); now destruct (status X));
      assert (G : grows (long_output (long_when c m S5))
                        (long_output (long_when c9 l9 (long_when c8 l8 (long_when c7 l7
                            (long_when c m S5))))))
        by (do 3 apply long_when_grows; apply grows_refl)
  end.
  clearbody S5. destruct G as [more ->]. apply in_or_app. left.
  destruct O as [lo ->]. unfold long_when. cbn [rebuild_status set_long_output].
  rewrite NE. cbn. apply in_or_app. right. now left.
Qed.

(** What a run leaves of the checker it started from, and the rebuild line
    of the detail block. *)
Lemma run_checks_asked (cfg : Config) (self0 : RaidChecker) :
  let self := run_checks cfg self0 in
  vd_num self = vd_num self0
  /\ host (runner self) = host (runner self0)
  /\ (ENABLE_LONG_OUTPUT cfg = true ->
      nonempty (rebuild_status (status self)) = true ->
      In ("Rebuild: " ++ rebuild_status (status self)) (long_output (status self))).
Proof.
  destruct (run_checks_shape cfg self0) as (Y & _ & N & H & E).
  cbv zeta. rewrite E. clear E.
  destruct (frame_eq _ _ (check_hotspare_frame Y)) as (_ & _ & _ & N1 & H1 & _).
  rewrite <- N1 in N. rewrite <- H1 in H. clear N1 H1.
  generalize dependent (check_hotspare Y). intros X N H.
  destruct (build_perfdata_frame X) as (_ & _ & _ & N2 & R2).
  rewrite <- N2 in N. rewrite <- R2 in H. clear N2 R2.
  generalize dependent (build_perfdata X). intros Z N H.
  destruct (ENABLE_LONG_OUTPUT cfg).
  - destruct (build_long_output_only_long Z) as (_ & _ & _ & N3 & R3).
    rewrite N3, R3. split; [exact N | split; [exact H|]]. intros _ NE.
    assert (NZ : nonempty (rebuild_status (status Z)) = true).
    { destruct (build_long_output_only_long Z) as ([lo E] & _).
      rewrite E in NE. exact NE. }
    destruct (build_long_output_rebuild Z NZ) as [-> I]. exact I.
  - split; [exact N | split; [exact H | discriminate]].
Qed.

(** The verdict on a first line that is Rebuilding or PartiallyDegraded. *)
Lemma evaluate_transient (cfg : Config) (host : string) (vd_num : option string)
      (s : RaidStatus) (vd_lines : list VdLine) (l : VdLine) :
  find non_optimal (kept_lines vd_num vd_lines) = Some l ->
  transient (vd_state l) = true ->
  evaluate cfg host vd_num s vd_lines =
  (STATE_WARNING,
   (if TERSE_OUTPUT cfg
    then "RAID WARNING (MegaRAID) - VD" ++ vd_index l ++ " " ++ translate_status (vd_state l)
    else "RAID WARNING (MegaRAID) - VD" ++ vd_index l ++ " (" ++ vd_name l ++ ") Status: "
         ++ translate_status (vd_state l)
         ++ (if nonempty (rebuild_status s) then " [" ++ rebuild_status s ++ "]" else ""))
   ++ suffixes cfg host s).
Proof.
  intros F T. unfold evaluate. fold (kept_lines vd_num vd_lines).
  set (kept := kept_lines vd_num vd_lines) in *.
  assert (E : (vd_num_set vd_num && negb (nonnil kept)) = false).
  { destruct kept; [discriminate | apply andb_false_r]. }
  cbv zeta. rewrite E. rewrite filter_head_find in F. fold non_optimal.
  destruct (filter non_optimal kept) as [|[[[ctrl_id vd_id] state] name] rest];
    [discriminate|].
  injection F as <-. cbn [vd_state vd_index vd_name] in *. unfold transient in T.
  rewrite T. reflexivity.
Qed.

Lemma existsb_find {A} (f : A -> bool) (l : list A) :
  existsb f l = true -> exists x, find f l = Some x.
Proof.
  induction l as [|y l IH]; cbn; [discriminate|].
  destruct (f y); [now exists y | exact IH].
Qed.

(** C4 as the specification has it fails in the default setting, terse
    phrasing without detail block: the rebuild is 45% through, drive 1 is
    asked for, and the message does not say so. *)
Lemma C4_terse_message_has_no_percentage :
  let self := rebuild_checker default_config (Some "1") in
  rebuild_status (status self) = "Rebuild:45%"
  /\ check_all default_config (RaidChecker_new (scripted_runner rebuild_script) (Some "1"))
     = (STATE_WARNING, "RAID WARNING (MegaRAID) - VD1 Rebuilding")
  /\ contains "45" (snd (evaluate_status default_config self)) = false.
Proof. vm_compute. repeat split. Qed.

(** C4, amended. In a run with a drive asked for: if the summary does not
    list it the verdict is CRITICAL and the message says the drive was not
    found; if the drive is Rebuilding (a line of it is not Optimal, and every
    such line is Rebuilding) the verdict is WARNING and the message names the
    drive; when a rebuild percentage was extracted the message carries it in
    verbose phrasing and whenever the detail block is switched on; in terse
    phrasing without detail block the message is the drive, its state and the
    host and metrics suffixes that are switched on. *)
Theorem C4_drive_filter :
  forall (cfg : Config) (self0 : RaidChecker) (v : string),
    vd_num self0 = Some v -> v <> "" ->
    let self := run_checks cfg self0 in
    let kept := kept_lines (Some v) (eval_lines self) in
    let code := fst (check_all cfg self0) in
    let msg := snd (check_all cfg self0) in
    (kept = [] ->
       code = STATE_CRITICAL
       /\ msg = "RAID CRITICAL - Virtual Drive " ++ v ++ " not found")
    /\ (existsb non_optimal kept = true ->
        (forall l, In l kept -> non_optimal l = true -> vd_state l = "Rbld") ->
        code = STATE_WARNING
        /\ mentions ("VD" ++ v ++ " ") msg
        /\ (forall p, rebuild_status (status self) = "Rebuild:" ++ p ++ "%" ->
            TERSE_OUTPUT cfg = false \/ ENABLE_LONG_OUTPUT cfg = true ->
            mentions (p ++ "%") msg)
        /\ (TERSE_OUTPUT cfg = true -> ENABLE_LONG_OUTPUT cfg = false ->
            msg = "RAID WARNING (MegaRAID) - VD" ++ v ++ " Rebuilding"
                  ++ (if SHOW_HOST cfg then " - " ++ host (runner self0) else "")
                  ++ (if ENABLE_PERFDATA cfg then " " ++ perfdata (status self) else ""))).
Proof.
  intros cfg self0 v Hv Hne self kept code msg.
  destruct (run_checks_asked cfg self0) as (N & H & L). fold self in N, H, L.
  rewrite Hv in N.
  assert (Hset : vd_num_set (vd_num self) = true).
  { rewrite N. destruct v; [contradiction | reflexivity]. }
  assert (K : kept = kept_lines (vd_num self) (eval_lines self)) by now rewrite N.
  subst code msg. unfold check_all. fold self. unfold evaluate_status.
  fold (eval_lines self). clearbody self. rewrite K in *. clear K kept.
  split.
  - intros K. rewrite (evaluate_not_found cfg _ _ _ _ Hset K). rewrite N. now split.
  - intros B A. destruct (existsb_find _ _ B) as [l F].
    assert (R : vd_state l = "Rbld").
    { apply find_In in F. destruct F as [F1 F2]. now apply A. }
    assert (I : vd_index l = v).
    { apply find_In in F. destruct F as [F _]. rewrite N in F.
      now apply (kept_lines_index v (eval_lines self)). }
    rewrite (evaluate_transient cfg _ _ _ _ l F) by (rewrite R; reflexivity).
    cbn [fst snd]. rewrite I, R, H. clear B A F R I Hset N Hv.
    change (translate_status "Rbld") with "Rebuilding".
    split; [reflexivity | split; [|split]].
    + destruct (TERSE_OUTPUT cfg).
      * mention "RAID WARNING (MegaRAID) - "
                ("Rebuilding" ++ suffixes cfg (host (runner self0)) (status self)).
      * apply mentions_app_l.
        mention "RAID WARNING (MegaRAID) - "
                ("(" ++ vd_name l ++ ") Status: Rebuilding"
                 ++ (if nonempty (rebuild_status (status self))
                     then " [" ++ rebuild_status (status self) ++ "]" else "")).
    + intros p P [T|D].
      * rewrite T, P. apply mentions_app_l. cbn [nonempty append].
        mention ("RAID WARNING (MegaRAID) - VD" ++ v ++ " (" ++ vd_name l
                 ++ ") Status: Rebuilding [Rebuild:") "]".
      * apply mentions_app_r. unfold suffixes. rewrite D.
        assert (NE : nonempty (rebuild_status (status self)) = true)
          by (rewrite P; reflexivity).
        specialize (L D NE). rewrite P in L.
        destruct (long_output (status self)) as [|x lo] eqn:LO; [contradiction|].
        cbn [andb nonnil]. do 3 apply mentions_app_r.
        destruct (join_mentions LF _ _ L) as (a & b & ->).
        exists (a ++ "Rebuild: Rebuild:"), b. now rewrite !append_assoc.
    + intros T D. rewrite T. unfold suffixes. rewrite D. cbn [andb].
      now rewrite !append_assoc, append_nil_r.
Qed.

Lemma C4_drive_filter_witness :
  let self0 := RaidChecker_new (scripted_runner rebuild_script) (Some "1") in
  (vd_num self0 = Some "1" /\ "1" <> "")
  /\ fst (check_all detail_config self0) = STATE_WARNING
  /\ mentions "45%" (snd (check_all detail_config self0))
  /\ mentions "45%" (snd (check_all verbose_config self0)).
Proof.
  cbv zeta.
  set (self0 := RaidChecker_new (scripted_runner rebuild_script) (Some "1")).
  assert (H : vd_num self0 = Some "1") by reflexivity.
  assert (N : "1" <> "") by discriminate.
  split; [split; [exact H | exact N]|].
  assert (K1 : kept_lines (Some "1") (eval_lines (run_checks detail_config self0))
               = [("0", "1", "Rbld", "VD1")]) by (vm_compute; reflexivity).
  assert (K2 : kept_lines (Some "1") (eval_lines (run_checks verbose_config self0))
               = [("0", "1", "Rbld", "VD1")]) by (vm_compute; reflexivity).
  assert (R1 : rebuild_status (status (run_checks detail_config self0))
               = "Rebuild:" ++ "45" ++ "%") by (vm_compute; reflexivity).
  assert (R2 : rebuild_status (status (run_checks verbose_config self0))
               = "Rebuild:" ++ "45" ++ "%") by (vm_compute; reflexivity).
  assert (A : forall l : VdLine,
             In l [("0", "1", "Rbld", "VD1")] -> non_optimal l = true -> vd_state l = "Rbld").
  { intros l [<-|[]] _. reflexivity. }
  pose proof (C4_drive_filter detail_config self0 "1" H N) as W1.
  pose proof (C4_drive_filter verbose_config self0 "1" H N) as W2.
  cbv zeta in W1, W2. destruct W1 as [_ W1]. destruct W2 as [_ W2].
  rewrite K1 in W1. rewrite K2 in W2.
  specialize (W1 eq_refl A). specialize (W2 eq_refl A).
  destruct W1 as (C1 & _ & P1 & _). destruct W2 as (_ & _ & P2 & _).
  split; [exact C1 | split].
  - exact (P1 "45" R1 (or_intror eq_refl)).
  - exact (P2 "45" R2 (or_introl eq_refl)).
Defined.

(** ** The spares metric *)





(** ** Foreign configuration *)

Lemma alts_run (l : list string) (c : Re.cursor) (k : Re.cursor -> option Re.cursor) :
  l <> [] -> (forall c', k c' <> None) ->
  found_cursor (Re.run Re.I (Pat.alts l) c k)
  = existsb (fun p => starts_ci p (Re.rest c)) l.
Proof.
  intros N K. induction l as [|p l IH]; [contradiction|].
  destruct l as [|q l].
  - cbn [Pat.alts Re.run existsb]. rewrite orb_false_r, <- eat_starts_ci.
    unfold found_cursor. destruct (Re.eat Re.I p c) as [c'|]; [|reflexivity].
    specialize (K c'). destruct (k c'); [reflexivity | contradiction].
  - change (Pat.alts (p :: q :: l)) with (Re.Alt (Re.Lit p) (Pat.alts (q :: l))).
    cbn [Re.run].
    change (existsb (fun p => starts_ci p (Re.rest c)) (p :: q :: l))
      with (starts_ci p (Re.rest c)
            || existsb (fun p => starts_ci p (Re.rest c)) (q :: l)).
    rewrite <- eat_starts_ci. unfold found_cursor at 2.
    destruct (Re.eat Re.I p c) as [c'|].
    + specialize (K c'). destruct (k c'); [reflexivity | contradiction].
    + cbn [orb]. apply IH. discriminate.
Qed.

Lemma existsb_orb {A} (f g : A -> bool) (l : list A) :
  existsb (fun x => f x || g x) l = existsb f l || existsb g l.
Proof.
  induction l as [|x l IH]; simpl; [reflexivity|]. rewrite IH.
  destruct (f x), (g x), (existsb f l), (existsb g l); reflexivity.
Qed.

(** Searching for one of several literal texts, letter case ignored, is
    asking whether one of them occurs in the text. *)
Lemma search_alts (l : list string) (text : string) :
  l <> [] ->
  found (Re.search (Pat.alts l) text Re.I)
  = existsb (fun p => contains (lower p) (lower text)) l.
Proof.
  intros N. unfold Re.search. generalize text at 1. intros subject.
  generalize 0%nat (@None ascii). induction text as [|a t IH]; intros n pv.
  - cbn [Re.scan andb].
    pose proof (alts_run l (Re.Cursor n pv "" []) (fun c' => Some c') N) as R.
    cbn [Re.rest] in R.
    change (existsb (fun p => contains (lower p) (lower "")) l)
      with (existsb (fun p => starts_ci p "" || (fun _ => false) p) l).
    rewrite existsb_orb.
    replace (existsb (fun _ : string => false) l) with false
      by (clear; induction l; [reflexivity | assumption]).
    rewrite orb_false_r, <- R by discriminate. unfold found_cursor.
    destruct (Re.run Re.I (Pat.alts l) _ _); reflexivity.
  - cbn [Re.scan andb].
    pose proof (alts_run l (Re.Cursor n pv (String a t) []) (fun c' => Some c') N) as R.
    cbn [Re.rest] in R.
    change (existsb (fun p => contains (lower p) (lower (String a t))) l)
      with (existsb (fun p => starts_ci p (String a t) || contains (lower p) (lower t)) l).
    rewrite existsb_orb, <- R by discriminate. unfold found_cursor.
    destruct (Re.run Re.I (Pat.alts l) _ _); [reflexivity|]. cbn [orb]. apply IH.
Qed.

(** X9. A foreign configuration is reported when the reply contains "foreign
    configuration" or the two letters "DG", in any letter case and anywhere,
    and at least one line begins with a digit; the WARNING carries the number
    of such lines. *)
Theorem check_foreign_config_spec (self : RaidChecker) :
  let output := reply self ("/c" ++ controller (runner self) ++ "/fall show") in
  let lines_with_number := len (Re.findall0 Pat.leading_number output Re.M) in
  status (check_foreign_config self) =
  if (contains "foreign configuration" (lower output) || contains "dg" (lower output))
     && (0 <? lines_with_number)
  then warn ("Foreign config detected (" ++ str_of_Z lines_with_number ++ ")")
            (status self)
  else status self.
Proof.
  unfold check_foreign_config, reply. cbv zeta. rewrite <- append_assoc.
  step_call. cbn [fst]. unfold Pat.foreign_marker.
  rewrite search_alts by discriminate. cbn [existsb]. rewrite orb_false_r.
  change (lower "foreign configuration") with "foreign configuration".
  change (lower "DG") with "dg".
  destruct (contains "foreign configuration" (lower out) || contains "dg" (lower out));
    [|assumption].
  cbn [andb]. destruct (0 <? len (Re.findall0 Pat.leading_number out Re.M));
    cbn [upd status]; now rewrite H.
Qed.
